(** * news-agent: article discovery, normalisation and the article store

    A shallow embedding of the parsing and persistence layer of the
    repository:
      - [src/tools/articles_database.py]  (class [ArticlesDatabase]),
      - [v1/src/tools/news_retriever.py]  (class [NewsRetriever]),
    and of what is built around it:
      - [v1/src/config.py]  ([Config.get]),
      - [src/utils.py]  ([to_camel_case], [get_printable_articles_list]),
      - [src/agents/retriever_agent.py] and
        [src/agents/llama_index/browser_agent.py]  (the documents of the
        reading agent, the limit on the searches),
      - [src/agents/articles_multi_agent.py]  (the session with the user,
        the answer of the agents).

    Python [str] values are modelled by [string]: a character is a code
    point below 256 (Latin-1), which covers every character the code tests
    for (the non-breaking space is code point 160).  [None] is [option]'s
    [None]; a Python exception is the [Raise] constructor of [result]. *)

From Stdlib Require Import String Ascii List ZArith Lia Bool Arith.
Import ListNotations.
Open Scope string_scope.
Open Scope list_scope.
Open Scope nat_scope.

(** Concatenation of Python strings, [a + b]. *)
Notation "a +++ b" := (String.append a b) (at level 60, right associativity).

(* ================================================================== *)
(** ** Exceptions *)

Inductive exn : Type :=
| AttributeError
| TypeError
| ValueError
| OverflowError
| UnboundLocalError
| KeyError
| NavigationError
| IOError.

Inductive result (A : Type) : Type :=
| Ok (a : A)
| Raise (e : exn).
Arguments Ok {A} a.
Arguments Raise {A} e.

Definition bind {A B} (r : result A) (k : A -> result B) : result B :=
  match r with
  | Ok a => k a
  | Raise e => Raise e
  end.

Notation "x <- r ;; k" := (bind r (fun x => k))
  (at level 61, r at next level, right associativity).

(* ================================================================== *)
(** ** Python strings *)

Module PyStr.

Definition code (c : ascii) : nat := nat_of_ascii c.

Definition between (lo hi : nat) (c : ascii) : bool :=
  (lo <=? code c) && (code c <=? hi).

(** [c.isdigit()] restricted to Latin-1 decimal digits, the class [\d]. *)
Definition is_digit (c : ascii) : bool := between 48 57 c.

(** [str.isspace] on one character, which is also the class [\s] of [re]:
    TAB..CR, FS..US, SPACE, NEL and NBSP. *)
Definition is_space (c : ascii) : bool :=
  between 9 13 c || between 28 32 c || (code c =? 133) || (code c =? 160).

Definition is_upper (c : ascii) : bool := between 65 90 c.
Definition is_lower (c : ascii) : bool := between 97 122 c.

(** [\w] on Latin-1: letters, digits (the superscripts and fractions
    count as numeric) and the underscore. *)
Definition is_word (c : ascii) : bool :=
  is_digit c || is_upper c || is_lower c || (code c =? 95)
  || (code c =? 170) || (code c =? 178) || (code c =? 179)
  || (code c =? 181) || (code c =? 185) || (code c =? 186)
  || between 188 190 c || between 192 214 c || between 216 246 c
  || between 248 255 c.

(** [str.lower] and [str.upper] on the ASCII letters.  Both are only applied
    to text that was filtered to ASCII or matched against ASCII names. *)
Definition lower_char (c : ascii) : ascii :=
  if is_upper c then ascii_of_nat (code c + 32) else c.
Definition upper_char (c : ascii) : ascii :=
  if is_lower c then ascii_of_nat (code c - 32) else c.

Fixpoint map_chars (f : ascii -> ascii) (s : string) : string :=
  match s with
  | EmptyString => EmptyString
  | String c r => String (f c) (map_chars f r)
  end.

Definition lower (s : string) : string := map_chars lower_char s.
Definition upper (s : string) : string := map_chars upper_char s.

(** [s.startswith(p)] *)
Fixpoint startswith (s p : string) : bool :=
  match p with
  | EmptyString => true
  | String a p' =>
      match s with
      | EmptyString => false
      | String b s' => Ascii.eqb a b && startswith s' p'
      end
  end.

(** [needle in hay] *)
Fixpoint contains (needle hay : string) : bool :=
  startswith hay needle
  || match hay with
     | EmptyString => false
     | String _ r => contains needle r
     end.

(** [c in s] for a single character [c]. *)
Fixpoint mem_char (c : ascii) (s : string) : bool :=
  match s with
  | EmptyString => false
  | String d r => Ascii.eqb c d || mem_char c r
  end.

(** [s[n:]] for [n >= 0]. *)
Fixpoint drop (n : nat) (s : string) : string :=
  match n, s with
  | O, _ => s
  | S _, EmptyString => EmptyString
  | S m, String _ r => drop m r
  end.

(** [''.join(c for c in s if keep c)] *)
Fixpoint filter_chars (keep : ascii -> bool) (s : string) : string :=
  match s with
  | EmptyString => EmptyString
  | String c r =>
      if keep c then String c (filter_chars keep r) else filter_chars keep r
  end.

(** [s.replace(old, new)] for a one-character [old]. *)
Fixpoint replace (old : ascii) (new : string) (s : string) : string :=
  match s with
  | EmptyString => EmptyString
  | String c r =>
      if Ascii.eqb c old then new +++ replace old new r
      else String c (replace old new r)
  end.

Fixpoint all_chars (p : ascii -> bool) (s : string) : bool :=
  match s with
  | EmptyString => true
  | String c r => p c && all_chars p r
  end.

(** [s.lstrip(chars)], [s.rstrip(chars)], [s.strip(chars)] with the set of
    stripped characters given as a predicate. *)
Fixpoint lstrip (p : ascii -> bool) (s : string) : string :=
  match s with
  | EmptyString => EmptyString
  | String c r => if p c then lstrip p r else s
  end.

Fixpoint rstrip (p : ascii -> bool) (s : string) : string :=
  match s with
  | EmptyString => EmptyString
  | String c r =>
      match rstrip p r with
      | EmptyString => if p c then EmptyString else String c EmptyString
      | r' => String c r'
      end
  end.

Definition strip_set (p : ascii -> bool) (s : string) : string :=
  rstrip p (lstrip p s).

(** [s.strip()] *)
Definition strip (s : string) : string := strip_set is_space s.

(** [sep.join(l)] *)
Fixpoint join (sep : string) (l : list string) : string :=
  match l with
  | [] => EmptyString
  | [x] => x
  | x :: r => x +++ sep +++ join sep r
  end.

Definition is_empty (s : string) : bool :=
  match s with EmptyString => true | _ => false end.

(** Truth value of a [str]: non-empty. *)
Definition truthy (s : string) : bool := negb (is_empty s).

(** Truth value of a value that is [None] or a [str]. *)
Definition truthy_opt (o : option string) : bool :=
  match o with None => false | Some s => truthy s end.

(** [f"{x}"] of a value that is [None] or a [str]. *)
Definition format_opt (o : option string) : string :=
  match o with None => "None" | Some s => s end.

Fixpoint last_char (s : string) : option ascii :=
  match s with
  | EmptyString => None
  | String c EmptyString => Some c
  | String _ r => last_char r
  end.

Definition first_char (s : string) : option ascii :=
  match s with EmptyString => None | String c _ => Some c end.

End PyStr.

(* ================================================================== *)
(** ** The article store: [ArticlesDatabase] *)

Module ArticlesDatabase.
Import PyStr.

(** An article stub, the [dict] the retriever produces.  A key that is
    missing and a key bound to [None] are both [None] here: the store reads
    every key through [article.get(key, "")] and only tests the truth value
    of what it gets. *)
Record article : Type := mk_article {
  title : option string;
  publish_date : option string;
  url : option string;
  source_url : string;
  source : string;
  authors : list string;
  pdf_url : option string;
  text : option string
}.

(** One row of [articles_records], in the column order of the csv header
    [url,article_file_path,title,source,publish_date,has_text,is_new]. *)
Record row : Type := mk_row {
  row_url : string;
  article_file_path : string;
  row_title : option string;
  row_source : string;
  row_publish_date : option string;
  has_text : bool;
  is_new : bool
}.

Definition dquote : ascii := ascii_of_nat 34.

(** [string.printable]: digits, letters, punctuation and
    [string.whitespace], which is [' \t\n\r\x0b\x0c']. *)
Definition whitespace : string :=
  String " " (String (ascii_of_nat 9) (String (ascii_of_nat 10)
    (String (ascii_of_nat 13) (String (ascii_of_nat 11)
      (String (ascii_of_nat 12) EmptyString))))).

Definition punctuation : string :=
  "!" +++ String dquote "#$%&'()*+,-./:;<=>?@[\]^_`{|}~".

Definition printable : string :=
  "0123456789" +++ "abcdefghijklmnopqrstuvwxyz"
  +++ "ABCDEFGHIJKLMNOPQRSTUVWXYZ" +++ punctuation +++ whitespace.

Definition invalid_chars : string := "<>:" +++ String dquote "/\|?*".

Definition reserved_names : list string :=
  ["CON"; "PRN"; "AUX"; "NUL";
   "COM1"; "COM2"; "COM3"; "COM4"; "COM5"; "COM6"; "COM7"; "COM8"; "COM9";
   "LPT1"; "LPT2"; "LPT3"; "LPT4"; "LPT5"; "LPT6"; "LPT7"; "LPT8"; "LPT9"].

(** [s.rfind(c)]: the index of the last [c], [None] for Python's [-1]. *)
Fixpoint rfind (c : ascii) (s : string) : option nat :=
  match s with
  | EmptyString => None
  | String d r =>
      match rfind c r with
      | Some i => Some (S i)
      | None => if Ascii.eqb d c then Some 0 else None
      end
  end.

(** [os.path.splitext] ([genericpath._splitext] with [sep = "/"] and
    [extsep = "."]): the extension starts at the last dot, unless only dots
    lie between the last separator and that dot. *)
Definition splitext (p : string) : string * string :=
  let sepIndex := rfind "/" p in
  match rfind "." p with
  | None => (p, EmptyString)
  | Some dotIndex =>
      let filenameIndex := match sepIndex with None => 0 | Some i => S i end in
      if filenameIndex <=? dotIndex then
        let leading := substring filenameIndex (dotIndex - filenameIndex) p in
        if all_chars (Ascii.eqb ".") leading then (p, EmptyString)
        else (substring 0 dotIndex p, drop dotIndex p)
      else (p, EmptyString)
  end.

(** [__safe_filename] *)
Definition safe_filename (filename : string) : string :=
  (* Replace invalid characters with empty string *)
  let filename :=
    fold_left (fun f char => replace char EmptyString f)
              (list_ascii_of_string invalid_chars) filename in
  (* Remove control characters *)
  let filename := filter_chars (fun c => mem_char c printable) filename in
  (* Replace spaces and hyphens with underscores *)
  let filename := replace "-" "_" (replace " " "_" filename) in
  (* Handle Windows reserved filenames *)
  let base_name := upper (fst (splitext filename)) in
  let filename :=
    if existsb (String.eqb base_name) reserved_names then
      if mem_char "." filename then
        let (name, ext) := splitext filename in name +++ "_" +++ ext
      else filename +++ "_"
    else filename in
  (* Ensure filename doesn't begin or end with a space or period *)
  let filename := strip_set (fun c => mem_char c " .") filename in
  (* If empty filename, provide a default *)
  if is_empty filename then "unnamed_file" else filename.

(** [os.path.join(a, b)] of [posixpath]. *)
Definition os_path_join (a b : string) : string :=
  if startswith b "/" then b
  else if is_empty a || match last_char a with
                         | Some c => Ascii.eqb c "/"
                         | None => false
                         end
       then a +++ b
       else a +++ "/" +++ b.

Section Store.

(** [self.docs_folder] *)
Variable docs_folder : string.

(** The file system and the network are outside the model: [io_ok a] says
    whether persisting the body of [a] (download and conversion of the pdf,
    or the write of the text file) goes through; when it does not, the
    exception leaves [update]. *)
Variable io_ok : article -> bool.

(** [__download_pdf_from_url]: the path of the text file it leaves. *)
Definition download_pdf_from_url (a : article) : result string :=
  let filename := format_opt (title a) +++ "_" +++ source a +++ "_"
                  +++ format_opt (publish_date a) in
  let filename := lower (safe_filename filename) in
  let txt_filename := filename +++ ".txt" in
  let txt_file_path := os_path_join docs_folder txt_filename in
  if io_ok a then Ok txt_file_path else Raise IOError.

(** [__save_article_to_txt] *)
Definition save_article_to_txt (a : article) : result string :=
  let filename := format_opt (title a) +++ "_" +++ source a +++ "_"
                  +++ format_opt (publish_date a) +++ ".txt" in
  let filename := lower (safe_filename filename) in
  let txt_file_path := os_path_join docs_folder filename in
  if io_ok a then Ok txt_file_path else Raise IOError.

(** [is_article_already_fetched]: [url in self.articles_records["url"].values].
    [None] equals no stored url. *)
Definition is_article_already_fetched (records : list row) (u : option string)
  : bool :=
  match u with
  | None => false
  | Some s => existsb (fun r => String.eqb s (row_url r)) records
  end.

(** [self.articles_records.loc[:, "is_new"] = False], on one row. *)
Definition clear_is_new (r : row) : row :=
  mk_row (row_url r) (article_file_path r) (row_title r) (row_source r)
         (row_publish_date r) (has_text r) false.

(** The [for article in articles] loop of [update].  The data frame is
    mutated in place, so the rows appended before an exception stay: the
    loop returns the rows it reached together with the outcome, the counter
    [new_articles] when it ran to the end. *)
Fixpoint update_loop (records : list row) (new_articles : nat)
         (articles : list article) : list row * result nat :=
  match articles with
  | [] => (records, Ok new_articles)
  | a :: rest =>
      (* skip the article if it doesn't have an url *)
      match url a with
      | None => update_loop records new_articles rest
      | Some u =>
          if negb (truthy u) then update_loop records new_articles rest
          (* skip the article if it has already been fetched *)
          else if is_article_already_fetched records (Some u)
          then update_loop records new_articles rest
          else
            match (if truthy_opt (pdf_url a) then download_pdf_from_url a
                   else save_article_to_txt a) with
            | Raise e => (records, Raise e)
            | Ok path =>
                let r := mk_row u path (title a) (source a) (publish_date a)
                                (truthy_opt (text a)) true in
                update_loop (records ++ [r]) (S new_articles) rest
            end
      end
  end.

(** [update] *)
Definition update (records : list row) (articles : list article)
  : list row * result nat :=
  update_loop (map clear_is_new records) 0 articles.

(** What [update] prints at its end. *)
Inductive report : Type :=
| UpdatedWith (new_articles : nat)
| AlreadyUpToDate.

Definition update_report (new_articles : nat) : report :=
  if 0 <? new_articles then UpdatedWith new_articles else AlreadyUpToDate.

End Store.

(** A cell of [values.tolist()]. *)
Inductive cell : Type :=
| CStr (s : string)
| CBool (b : bool)
| CNone.

Definition cell_of_opt (o : option string) : cell :=
  match o with Some s => CStr s | None => CNone end.

Definition row_values (r : row) : list cell :=
  [CStr (row_url r); CStr (article_file_path r); cell_of_opt (row_title r);
   CStr (row_source r); cell_of_opt (row_publish_date r);
   CBool (has_text r); CBool (is_new r)].

(** [get_new_articles] *)
Definition get_new_articles (records : list row) : string * list (list cell) :=
  ("articles_list", map row_values (filter is_new records)).

(** [get_all_articles] *)
Definition get_all_articles (records : list row) : string * list (list cell) :=
  ("articles_list", map row_values records).

End ArticlesDatabase.

(* ================================================================== *)
(** ** Parsed documents: the part of BeautifulSoup the retriever uses *)

Module Bs4.
Import PyStr.

(** A parsed document.  The parser gives [class] as a list of names; the
    attributes the code reads by name ([href], [datetime], [id], [title])
    are plain strings and live in [attrs]. *)
#[local] Set Warnings "-register-all".

Inductive node : Type :=
| NavigableString (s : string)
| Element (name : string) (classes : option (list string))
          (attrs : list (string * string)) (contents : list node).

(** A [Tag] object: an element of the tree together with the siblings that
    follow it, which is all of the tree around it the code navigates to. *)
Record tag : Type := mk_tag {
  tag_name : string;
  tag_class : option (list string);
  tag_attrs : list (string * string);
  tag_contents : list node;
  next_siblings : list node
}.

(** The element [n] (if it is one) and the elements below it, in document
    order. *)
Fixpoint self_and_descendants (n : node) (siblings : list node) : list tag :=
  match n with
  | NavigableString _ => []
  | Element nm cl at_ cs =>
      mk_tag nm cl at_ cs siblings
      :: (fix walk (l : list node) : list tag :=
            match l with
            | [] => []
            | c :: r => self_and_descendants c r ++ walk r
            end) cs
  end.

Fixpoint descendants_in (l : list node) : list tag :=
  match l with
  | [] => []
  | c :: r => self_and_descendants c r ++ descendants_in r
  end.

(** [tag.descendants], elements only. *)
Definition descendants (t : tag) : list tag := descendants_in (tag_contents t).

(** The strings below a node, in document order. *)
Fixpoint strings_of (n : node) : list string :=
  match n with
  | NavigableString s => [s]
  | Element _ _ _ cs => flat_map strings_of cs
  end.

Definition all_strings (t : tag) : list string :=
  flat_map strings_of (tag_contents t).

(** [tag.get_text(separator, strip)]: with [strip], every string is stripped
    and the empty ones are dropped before joining. *)
Definition get_text (separator : string) (strip_ : bool) (t : tag) : string :=
  join separator
       (if strip_ then filter truthy (map strip (all_strings t))
        else all_strings t).

(** [tag.text] *)
Definition text_of (t : tag) : string := get_text EmptyString false t.

(** [tag.attrs.get(key)] *)
Fixpoint lookup (key : string) (l : list (string * string)) : option string :=
  match l with
  | [] => None
  | (k, v) :: r => if String.eqb k key then Some v else lookup key r
  end.

(** What is passed as [class_=]: a string or a function.  The function is
    applied to a class name, to the whole attribute, or to [None] when the
    element has no [class]; it may raise. *)
Inductive class_arg : Type :=
| ClassStr (s : string)
| ClassFn (f : option string -> result bool).

Fixpoint any_item (f : option string -> result bool) (items : list string)
  : result bool :=
  match items with
  | [] => Ok false
  | item :: r => b <- f (Some item) ;; if b then Ok true else any_item f r
  end.

(** [SoupStrainer._matches] on the value of [class]: some single name
    matches, or the names joined by a space do. *)
Definition matches_class (arg : class_arg) (cl : option (list string))
  : result bool :=
  match arg, cl with
  | ClassStr s, None => Ok (is_empty s)
  | ClassStr s, Some l =>
      Ok (existsb (String.eqb s) l || String.eqb (join " " l) s)
  | ClassFn f, None => f None
  | ClassFn f, Some l =>
      b <- any_item f l ;; if b then Ok true else f (Some (join " " l))
  end.

(** The keyword filters of [find] and [find_all] the code passes. *)
Inductive attr_filter : Type :=
| NoFilter
| ByClass (c : class_arg)
| ByAttr (key value : string).

Definition matches (name : string) (flt : attr_filter) (t : tag)
  : result bool :=
  if String.eqb (tag_name t) name then
    match flt with
    | NoFilter => Ok true
    | ByClass c => matches_class c (tag_class t)
    | ByAttr k v =>
        Ok (match lookup k (tag_attrs t) with
            | Some v' => String.eqb v' v
            | None => is_empty v
            end)
    end
  else Ok false.

Fixpoint filter_matching (name : string) (flt : attr_filter) (l : list tag)
  : result (list tag) :=
  match l with
  | [] => Ok []
  | t :: r =>
      b <- matches name flt t ;;
      rest <- filter_matching name flt r ;;
      Ok (if b then t :: rest else rest)
  end.

(** [tag.find_all(name, ...)] *)
Definition find_all (t : tag) (name : string) (flt : attr_filter)
  : result (list tag) :=
  filter_matching name flt (descendants t).

(** [tag.find(name, ...)]: the search stops at the first match. *)
Fixpoint first_matching (name : string) (flt : attr_filter) (l : list tag)
  : result (option tag) :=
  match l with
  | [] => Ok None
  | t :: r =>
      b <- matches name flt t ;;
      if b then Ok (Some t) else first_matching name flt r
  end.

Definition find (t : tag) (name : string) (flt : attr_filter)
  : result (option tag) :=
  first_matching name flt (descendants t).

(** [tag.find_next_sibling(name)] *)
Fixpoint next_sibling_in (name : string) (l : list node) : option tag :=
  match l with
  | [] => None
  | NavigableString _ :: r => next_sibling_in name r
  | Element nm cl at_ cs :: r =>
      if String.eqb nm name then Some (mk_tag nm cl at_ cs r)
      else next_sibling_in name r
  end.

Definition find_next_sibling (t : tag) (name : string) : option tag :=
  next_sibling_in name (next_siblings t).

(** The [BeautifulSoup] object of a document: the root tag. *)
Definition soup_of (contents : list node) : tag :=
  mk_tag "[document]" None [] contents [].

(** Method call on a value that may be [None]. *)
Definition deref {A} (o : option A) : result A :=
  match o with
  | Some a => Ok a
  | None => Raise AttributeError
  end.

End Bs4.

(* ================================================================== *)
(** ** Regular expressions: the fragment [_strptime] and the retriever build *)

Module Regex.
Import PyStr.

(** A character class. *)
Definition cclass : Type := ascii -> bool.

(** The patterns in use are concatenations of two kinds of pieces: a group
    of ordered alternatives, each a fixed sequence of character classes
    (a directive such as [(?P<d>3[0-1]|[1-2]\d|0[1-9]|[1-9]| [1-9])], a
    literal), and [\s+]. *)
Inductive piece : Type :=
| Group (name : option ascii) (alts : list (list cclass))
| Spaces.

Definition groups : Type := list (ascii * string).

Fixpoint match_seq (cs : list cclass) (s : string) : option (string * string) :=
  match cs with
  | [] => Some (EmptyString, s)
  | p :: cs' =>
      match s with
      | String c r =>
          if p c then
            match match_seq cs' r with
            | Some (g, rest) => Some (String c g, rest)
            | None => None
            end
          else None
      | EmptyString => None
      end
  end.

(** Ordered choice with backtracking: the first alternative after which the
    rest of the pattern [k] matches. *)
Fixpoint match_alts {A} (alts : list (list cclass)) (s : string)
         (k : string -> string -> option A) : option A :=
  match alts with
  | [] => None
  | a :: alts' =>
      match (match match_seq a s with
             | Some (g, rest) => k g rest
             | None => None
             end) with
      | Some r => Some r
      | None => match_alts alts' s k
      end
  end.

(** [\s*], greedy: the longest run first, then shorter ones. *)
Fixpoint match_spaces_star {A} (s : string) (k : string -> option A)
  : option A :=
  match s with
  | String c r =>
      if is_space c then
        match match_spaces_star r k with
        | Some x => Some x
        | None => k s
        end
      else k s
  | EmptyString => k EmptyString
  end.

(** [\s+] *)
Definition match_spaces {A} (s : string) (k : string -> option A) : option A :=
  match s with
  | String c r => if is_space c then match_spaces_star r k else None
  | EmptyString => None
  end.

Definition record_group (name : option ascii) (g : string) (found : groups)
  : groups :=
  match name with
  | Some n => found ++ [(n, g)]
  | None => found
  end.

(** [re.match]: the pattern is anchored at the start only; the result is the
    named groups and the text left after the match. *)
Fixpoint match_pieces (ps : list piece) (s : string) (found : groups)
  : option (groups * string) :=
  match ps with
  | [] => Some (found, s)
  | Group name alts :: ps' =>
      match_alts alts s
                 (fun g rest => match_pieces ps' rest (record_group name g found))
  | Spaces :: ps' => match_spaces s (fun rest => match_pieces ps' rest found)
  end.

Definition is_char (c : ascii) : cclass := Ascii.eqb c.
Definition one_of (s : string) : cclass := fun c => mem_char c s.

(** A literal character under [re.IGNORECASE]. *)
Definition ci_char (c : ascii) : cclass :=
  fun d => Ascii.eqb (lower_char d) (lower_char c).

Definition ci_word (w : string) : list cclass :=
  map ci_char (list_ascii_of_string w).

Definition literal (c : ascii) : piece := Group None [[ci_char c]].

Fixpoint group_value (name : ascii) (found : groups) : option string :=
  match found with
  | [] => None
  | (n, g) :: r => if Ascii.eqb n name then Some g else group_value name r
  end.

(** The maximal run of digits at the head of [s], and what follows it. *)
Fixpoint span_digits (s : string) : string * string :=
  match s with
  | String c r =>
      if is_digit c then let (d, rest) := span_digits r in (String c d, rest)
      else (EmptyString, s)
  | EmptyString => (EmptyString, EmptyString)
  end.

(** [int(s)] for a string of decimal digits with blanks around it. *)
Definition digit_value (c : ascii) : Z := Z.of_nat (code c - 48).

Fixpoint int_acc (acc : Z) (s : string) : Z :=
  match s with
  | EmptyString => acc
  | String c r => int_acc (10 * acc + digit_value c)%Z r
  end.

Definition py_int (s : string) : Z := int_acc 0%Z (strip s).

End Regex.

(* ================================================================== *)
(** ** Dates: [datetime.date], [strptime], [strftime] *)

Module Datetime.
Import PyStr Regex.
#[local] Open Scope Z_scope.

Record date : Type := mk_date { year : Z; month : Z; day : Z }.

Definition MINYEAR : Z := 1.
Definition MAXYEAR : Z := 9999.
Definition MAXORDINAL : Z := 3652059.

Definition is_leap (y : Z) : bool :=
  (y mod 4 =? 0) && (negb (y mod 100 =? 0) || (y mod 400 =? 0)).

Definition days_in_month (y m : Z) : Z :=
  if m =? 2 then (if is_leap y then 29 else 28)
  else if (m =? 4) || (m =? 6) || (m =? 9) || (m =? 11) then 30
  else 31.

(** [_DAYS_BEFORE_MONTH] *)
Definition DAYS_BEFORE_MONTH (m : Z) : Z :=
  nth (Z.to_nat m) [0; 0; 31; 59; 90; 120; 151; 181; 212; 243; 273; 304; 334] 0.

Definition days_before_year (y : Z) : Z :=
  let y := y - 1 in y * 365 + y / 4 - y / 100 + y / 400.

Definition days_before_month (y m : Z) : Z :=
  DAYS_BEFORE_MONTH m + (if (2 <? m) && is_leap y then 1 else 0).

(** The check of the [date] constructor. *)
Definition valid_date (y m d : Z) : bool :=
  (MINYEAR <=? y) && (y <=? MAXYEAR) && (1 <=? m) && (m <=? 12)
  && (1 <=? d) && (d <=? days_in_month y m).

(** [date.toordinal] ([_ymd2ord]) *)
Definition toordinal (d : date) : Z :=
  days_before_year (year d) + days_before_month (year d) (month d) + day d.

Definition DI400Y : Z := 146097.
Definition DI100Y : Z := 36524.
Definition DI4Y : Z := 1461.

(** [date.fromordinal] ([_ord2ymd]) *)
Definition fromordinal (n : Z) : date :=
  let n := n - 1 in
  let n400 := n / DI400Y in
  let n := n mod DI400Y in
  let y := n400 * 400 + 1 in
  let n100 := n / DI100Y in
  let n := n mod DI100Y in
  let n4 := n / DI4Y in
  let n := n mod DI4Y in
  let n1 := n / 365 in
  let n := n mod 365 in
  let y := y + n100 * 100 + n4 * 4 + n1 in
  if (n1 =? 4) || (n100 =? 4) then mk_date (y - 1) 12 31
  else
    let leapyear := (n1 =? 3) && (negb (n4 =? 24) || (n100 =? 3)) in
    let m := Z.shiftr (n + 50) 5 in
    let preceding :=
      DAYS_BEFORE_MONTH m + (if (2 <? m) && leapyear then 1 else 0) in
    if n <? preceding then
      let m := m - 1 in
      let preceding :=
        preceding - (nth (Z.to_nat m)
                         [0; 31; 28; 31; 30; 31; 30; 31; 31; 30; 31; 30; 31] 0
                     + (if (m =? 2) && leapyear then 1 else 0)) in
      mk_date y m (n - preceding + 1)
    else mk_date y m (n - preceding + 1).

(** [datetime.now() - timedelta(days=n)], date part: [timedelta] takes at
    most 999999999 days, and the difference must be a date. *)
Definition minus_days (today : date) (n : Z) : result date :=
  if 999999999 <? n then Raise OverflowError
  else
    let o := toordinal today - n in
    if (0 <? o) && (o <=? MAXORDINAL) then Ok (fromordinal o)
    else Raise OverflowError.

(** Decimal digits of [n], zero-padded to [width]. *)
Definition digit_char (n : Z) : ascii := ascii_of_nat (48 + Z.to_nat (n mod 10)).

Fixpoint zero_padded (width : nat) (n : Z) (acc : string) : string :=
  match width with
  | O => acc
  | S w => zero_padded w (n / 10) (String (digit_char n) acc)
  end.

(** The number of decimal digits of a year, which is between 1 and 9999. *)
Definition year_digits (y : Z) : nat :=
  if y <? 10 then 1 else if y <? 100 then 2 else if y <? 1000 then 3 else 4.

(** [d.strftime("%Y-%m-%d")].  The format goes to the [strftime] of the C
    library, which writes [%Y] as the decimal number of the year, without
    padding: a year below 1000 comes out with fewer than four digits.
    [%m] and [%d] are padded to two digits. *)
Definition strftime_iso (d : date) : string :=
  zero_padded (year_digits (year d)) (year d) EmptyString +++ "-"
  +++ zero_padded 2 (month d) EmptyString +++ "-"
  +++ zero_padded 2 (day d) EmptyString.

(** *** [_strptime] in the default (C) locale *)

Definition f_month : list string :=
  [""; "january"; "february"; "march"; "april"; "may"; "june"; "july";
   "august"; "september"; "october"; "november"; "december"].

Definition a_month : list string :=
  [""; "jan"; "feb"; "mar"; "apr"; "may"; "jun"; "jul"; "aug"; "sep"; "oct";
   "nov"; "dec"].

Definition a_weekday : list string :=
  ["mon"; "tue"; "wed"; "thu"; "fri"; "sat"; "sun"].

(** [sorted(to_convert, key=len, reverse=True)]: stable, longest first. *)
Fixpoint insert_by_len (w : string) (l : list string) : list string :=
  match l with
  | [] => [w]
  | x :: r =>
      if (String.length x <? String.length w)%nat then w :: l
      else x :: insert_by_len w r
  end.

Definition sorted_by_len (l : list string) : list string :=
  fold_left (fun acc w => insert_by_len w acc) l [].

(** [__seqToRE] *)
Definition seqToRE (to_convert : list string) (directive : ascii) : piece :=
  Group (Some directive) (map ci_word (sorted_by_len to_convert)).

(** The directives of [TimeRE] the formats of the retriever use. *)
Definition directive (d : ascii) : option piece :=
  if Ascii.eqb d "d" then
    Some (Group (Some d)
                [[is_char "3"; one_of "01"]; [one_of "12"; is_digit];
                 [is_char "0"; one_of "123456789"]; [one_of "123456789"];
                 [is_char " "; one_of "123456789"]])
  else if Ascii.eqb d "m" then
    Some (Group (Some d)
                [[is_char "1"; one_of "012"];
                 [is_char "0"; one_of "123456789"]; [one_of "123456789"]])
  else if Ascii.eqb d "Y" then
    Some (Group (Some d) [[is_digit; is_digit; is_digit; is_digit]])
  else if Ascii.eqb d "B" then Some (seqToRE (tl f_month) d)
  else if Ascii.eqb d "b" then Some (seqToRE (tl a_month) d)
  else if Ascii.eqb d "a" then Some (seqToRE a_weekday d)
  else None.

(** [TimeRE.pattern]: a run of blanks in the format stands for [\s+], [%x]
    for the directive [x], any other character for itself.  [None] is the
    [ValueError] of a bad directive. *)
Fixpoint pattern_from (after_space : bool) (format : string)
  : option (list piece) :=
  match format with
  | EmptyString => Some []
  | String c r =>
      if is_space c then
        match pattern_from true r with
        | Some ps => Some (if after_space then ps else Spaces :: ps)
        | None => None
        end
      else if Ascii.eqb c "%" then
        match r with
        | EmptyString => None
        | String d r' =>
            match directive d, pattern_from false r' with
            | Some p, Some ps => Some (p :: ps)
            | _, _ => None
            end
        end
      else
        match pattern_from false r with
        | Some ps => Some (literal c :: ps)
        | None => None
        end
  end.

Definition pattern (format : string) : option (list piece) :=
  pattern_from false format.

(** [l.index(w)] *)
Fixpoint index_of (w : string) (l : list string) : option Z :=
  match l with
  | [] => None
  | x :: r =>
      if String.eqb x w then Some 0
      else match index_of w r with Some i => Some (i + 1) | None => None end
  end.

Definition or_default (o : option Z) (d : Z) : Z :=
  match o with Some z => z | None => d end.

(** The conversion loop of [_strptime] over the groups that matched. *)
Fixpoint convert (found : groups) (y : option Z) (m d : Z)
  : option Z * Z * Z :=
  match found with
  | [] => (y, m, d)
  | (key, g) :: r =>
      if Ascii.eqb key "Y" then convert r (Some (py_int g)) m d
      else if Ascii.eqb key "m" then convert r y (py_int g) d
      else if Ascii.eqb key "B" then
        convert r y (or_default (index_of (lower g) f_month) m) d
      else if Ascii.eqb key "b" then
        convert r y (or_default (index_of (lower g) a_month) m) d
      else if Ascii.eqb key "d" then convert r y m (py_int g)
      else convert r y m d
  end.

(** [datetime.strptime(data_string, format).date()] *)
Definition strptime (data_string format : string) : result date :=
  match pattern format with
  | None => Raise ValueError
  | Some ps =>
      match match_pieces ps data_string [] with
      | None => Raise ValueError
      | Some (found, rest) =>
          if truthy rest then Raise ValueError
          else
            let '(y, m, d) := convert found None 1 1 in
            let y := match y with
                     | Some y => y
                     | None => if (m =? 2) && (d =? 29) then 1904 else 1900
                     end in
            if valid_date y m d then Ok (mk_date y m d)
            else Raise ValueError
      end
  end.

End Datetime.

(* ================================================================== *)
(** ** The retriever: [NewsRetriever] *)

Module NewsRetriever.
Import PyStr Regex Bs4 Datetime ArticlesDatabase.

Definition DEEPMIND_URL : string := "https://deepmind.google".
Definition ANTHROPIC_URL : string := "https://www.anthropic.com".
Definition OPENAI_URL : string := "https://openai.com".
Definition GOOGLE_RESEARCH_URL : string := "https://research.google".
Definition HUGGINGFACE_URL : string := "https://huggingface.co".
Definition VERGE_URL : string := "https://www.theverge.com".
Definition WIRED_URL : string := "https://www.wired.com".
Definition VENTUREBEAT_URL : string := "https://venturebeat.com".
Definition TECHCRUNCH_URL : string := "https://techcrunch.com".
Definition AIBUSINESS_URL : string := "https://aibusiness.com".
Definition ARXIV_URL : string := "https://arxiv.org".
Definition ILPOST_URL : string := "https://www.ilpost.it".
Definition MISTRAL_URL : string := "https://mistral.ai".
Definition PERPLEXITY_URL : string := "https://www.perplexity.ai".
Definition XAI_URL : string := "https://x.ai".
Definition GOOGLE_BLOG_URL : string := "https://blog.google".
Definition GOOGLE_DEVELOPERS_BLOG_URL : string :=
  "https://developers.googleblog.com".
Definition META_AI_URL : string := "https://ai.meta.com".

(** A class parameter of [__parse_website_for_article_links]: a string, a
    list of alternatives, or a function handed to BeautifulSoup. *)
Inductive class_param : Type :=
| PStr (s : string)
| PList (l : list string)
| PFn (f : option string -> result bool).

(** Truth value of an optional class parameter. *)
Definition truthy_class (c : option class_param) : bool :=
  match c with
  | None => false
  | Some (PStr s) => truthy s
  | Some (PList l) => negb (match l with [] => true | _ => false end)
  | Some (PFn _) => true
  end.

(** The keyword arguments of [__parse_website_for_article_links]. *)
Record rule : Type := mk_rule {
  source_ : string;
  article_class : option class_param;
  title_class : option class_param;
  article_html_tag : string;
  title_html_tag : string;
  date_html_tag : string;
  time_class : option string;
  time_html_attr : option string;
  article_wrapper_html_tag : option string;
  article_wrapper_class : option class_param;
  time_tag_index : nat
}.

(** Lines 474-480: the url of a link, from its [href]. *)
Definition normalize_url (source_url link_url : string) : string :=
  (* append url if the link doesn't start with https *)
  if negb (startswith link_url "https") then
    let link_url :=
      if startswith link_url "." then drop 1 link_url
      else if negb (startswith link_url "/") then "/" +++ link_url
      else link_url in
    source_url +++ link_url
  else link_url.

(** [l[:n]]: the first [n] elements, and for a negative [n] all but the
    last [-n]. *)
Definition slice_to {A} (l : list A) (n : Z) : list A :=
  if (0 <=? n)%Z then firstn (Z.to_nat n) l
  else firstn (Z.to_nat (Z.of_nat (length l) + n)) l.

(** [for x in l: ...] where an iteration appends to the result or raises. *)
Fixpoint for_each {A B} (body : A -> result (list B)) (l : list A)
  : result (list B) :=
  match l with
  | [] => Ok []
  | a :: r =>
      x <- body a ;;
      rest <- for_each body r ;;
      Ok (x ++ rest)
  end.

(** [for cls in classes: t = tag.find(name, class_=cls); if t: break] *)
Fixpoint find_by_classes (t : tag) (name : string) (classes : list string)
  : result (option tag) :=
  match classes with
  | [] => Ok None
  | cls :: r =>
      found <- find t name (ByClass (ClassStr cls)) ;;
      match found with
      | Some x => Ok (Some x)
      | None => find_by_classes t name r
      end
  end.

(** [tag.find(name)] narrowed by an optional class parameter, as the code
    does for the link and for the title. *)
Definition find_with_class (t : tag) (name : string) (c : option class_param)
  : result (option tag) :=
  if truthy_class c then
    match c with
    | Some (PList l) => find_by_classes t name l
    | Some (PStr s) => find t name (ByClass (ClassStr s))
    | Some (PFn f) => find t name (ByClass (ClassFn f))
    | None => find t name NoFilter
    end
  else find t name NoFilter.

(** [date_str[:date_str.find("T")]] when there is a ["T"]. *)
Fixpoint before_T (s : string) : string :=
  match s with
  | EmptyString => EmptyString
  | String c r => if Ascii.eqb c "T" then EmptyString else String c (before_T r)
  end.

(** [re.search(r"\d+ giorni fa", s)]: the match, if any.  After a maximal
    run of digits a shorter run is followed by a digit, never by the blank,
    so only the maximal run is tried at each position. *)
Definition giorni_fa_here (s : string) : option string :=
  let (ds, rest) := span_digits s in
  if truthy ds && startswith rest " giorni fa" then Some (ds +++ " giorni fa")
  else None.

Fixpoint search_giorni_fa (s : string) : option string :=
  match giorni_fa_here s with
  | Some m => Some m
  | None =>
      match s with
      | EmptyString => None
      | String _ r => search_giorni_fa r
      end
  end.

(** [re.search(r"\d+", s).group(0)] on a string that holds a digit. *)
Fixpoint search_digits (s : string) : string :=
  match s with
  | EmptyString => EmptyString
  | String c r => if is_digit c then fst (span_digits s) else search_digits r
  end.

(** [int(s)] of a digit string: more than 4300 digits are refused. *)
Definition int_of_digits (s : string) : result Z :=
  if 4300 <? String.length s then Raise ValueError else Ok (py_int s).

Definition formats : list string :=
  ["%B %d, %Y"; "%b %d, %Y"; "%m.%d.%Y"; "%d/%m/%Y"].

Section Retriever.

(** [self.max_articles_per_site]: the integer of the configuration, which
    may be negative. *)
Variable max_articles_per_site : Z.

(** [self.websites] *)
Variable websites : list string.

(** The date of [datetime.now()] during the run. *)
Variable today : date.

(** The browser: [page.goto(url)] then [BeautifulSoup(page.content())];
    [None] when the navigation fails. *)
Variable render : string -> option tag.

(** Lines 529-542: the [for fmt in formats] loop over the visible text. *)
Fixpoint parse_date_text (date_str : string) (fmts : list string)
  : result (option string) :=
  match fmts with
  | [] => Ok None
  | fmt :: rest =>
      match strptime date_str fmt with
      | Ok d => Ok (Some (strftime_iso d))
      | Raise ValueError =>
          match search_giorni_fa date_str with
          | Some days_str =>
              days <- int_of_digits (search_digits days_str) ;;
              d <- minus_days today days ;;
              Ok (Some (strftime_iso d))
          | None => parse_date_text date_str rest
          end
      | Raise e => Raise e
      end
  end.

(** Lines 500-545: the publication date of one container.  The code
    overwrites [time_class] with ["mistral"] when [time_tag_index > 0] and
    restores it before the next container; [time_class'] is that value. *)
Definition resolve_date (r : rule) (article_tag : tag) : result (option string) :=
  time_tag <-
    (match time_class r with
     | Some tc =>
         if truthy tc
         then find_all article_tag (date_html_tag r) (ByClass (ClassStr tc))
         else find_all article_tag (date_html_tag r) NoFilter
     | None => find_all article_tag (date_html_tag r) NoFilter
     end) ;;
  match nth_error time_tag (time_tag_index r) with
  | None => Ok None
  | Some time_tag =>
      let time_class' :=
        if 0 <? time_tag_index r then Some "mistral" else time_class r in
      if negb (truthy_opt time_class') then
        match time_html_attr r with
        | Some attr =>
            if truthy attr then
              match lookup attr (tag_attrs time_tag) with
              | Some date_str => Ok (Some (before_T date_str))
              | None => Ok None
              end
            else Ok None
        | None => Ok None
        end
      else parse_date_text (get_text EmptyString true time_tag) formats
  end.

(** Lines 447-472: the [href] of the link of one container; [None] where the
    code skips the container. *)
Definition resolve_link (r : rule) (article_tag : tag) : result (option string) :=
  if truthy_opt (article_wrapper_html_tag r) then
    article_link <-
      find_with_class article_tag (article_html_tag r) (article_class r) ;;
    match article_link with
    | Some link => Ok (lookup "href" (tag_attrs link))
    | None => Ok None
    end
  else Ok (lookup "href" (tag_attrs article_tag)).

(** Lines 482-498 *)
Definition resolve_title (r : rule) (article_tag : tag) : result (option string) :=
  title_tag <- find_with_class article_tag (title_html_tag r) (title_class r) ;;
  Ok (match title_tag with
      | Some t => Some (get_text EmptyString true t)
      | None => None
      end).

(** One iteration of the loop of lines 446-556. *)
Definition extract_article (records : list row) (source_url : string)
           (r : rule) (article_tag : tag) : result (list article) :=
  link <- resolve_link r article_tag ;;
  match link with
  | None => Ok []
  | Some link_url =>
      let link_url := normalize_url source_url link_url in
      title <- resolve_title r article_tag ;;
      publish_date <- resolve_date r article_tag ;;
      if negb (is_article_already_fetched records (Some link_url)) then
        Ok [mk_article title publish_date (Some link_url) source_url
                       (source_ r) [] None None]
      else Ok []
  end.

(** Lines 420-440: the containers of a listing. *)
Definition select_containers (soup : tag) (r : rule) : result (list tag) :=
  let article_tag_to_extract :=
    match article_wrapper_html_tag r with
    | Some w => if truthy w then w else article_html_tag r
    | None => article_html_tag r
    end in
  let article_class_to_extract :=
    if truthy_class (article_wrapper_class r) then article_wrapper_class r
    else article_class r in
  if truthy_class article_class_to_extract then
    match article_class_to_extract with
    | Some (PList l) =>
        all_elements <- find_all soup article_tag_to_extract NoFilter ;;
        Ok (filter
              (fun element =>
                 match tag_class element with
                 | Some (c :: cs) =>
                     existsb (fun cls => existsb (String.eqb cls) (c :: cs)) l
                 | _ => false
                 end)
              all_elements)
    | Some (PStr s) =>
        find_all soup article_tag_to_extract (ByClass (ClassStr s))
    | Some (PFn f) =>
        find_all soup article_tag_to_extract (ByClass (ClassFn f))
    | None => find_all soup article_tag_to_extract NoFilter
    end
  else find_all soup article_tag_to_extract NoFilter.

(** [__parse_website_for_article_links].  [soup] is [None] when the [find]
    that locates the listing found nothing. *)
Definition parse_website_for_article_links (soup : option tag)
           (source_url : string) (records : list row) (r : rule)
  : result (list article) :=
  soup <- deref soup ;;
  articles_in_site <- select_containers soup r ;;
  let articles_to_extract :=
    Z.min (Z.of_nat (length articles_in_site)) max_articles_per_site in
  for_each (extract_article records source_url r)
           (slice_to articles_in_site articles_to_extract).

(** *** The arXiv listing: [__search_arxiv] *)

Definition exact (c : ascii) : piece := Group None [[is_char c]].

(** [r"(\w{3}, \d{1,2} \w{3} \d{4})"] *)
Definition arxiv_date_pattern : list piece :=
  [Group None [[is_word; is_word; is_word]]; exact ","; exact " ";
   Group None [[is_digit; is_digit]; [is_digit]]; exact " ";
   Group None [[is_word; is_word; is_word]]; exact " ";
   Group None [[is_digit; is_digit; is_digit; is_digit]]].

(** Lines 567-572: the date of a section, from the text of its heading. *)
Definition section_date (date : string) : result (option string) :=
  match match_pieces arxiv_date_pattern date [] with
  | Some (_, rest) =>
      let group1 :=
        substring 0 (String.length date - String.length rest) date in
      d <- strptime group1 "%a, %d %b %Y" ;;
      Ok (Some (strftime_iso d))
  | None => Ok None
  end.

(** [a['href']] made absolute, for the link titled [title] below [dt]. *)
Definition arxiv_link (dt : tag) (title_ : string) : result (option string) :=
  link <- find dt "a" (ByAttr "title" title_) ;;
  match link with
  | None => Ok None
  | Some a =>
      match lookup "href" (tag_attrs a) with
      | None => Raise KeyError
      | Some link_url =>
          Ok (Some (if negb (startswith link_url "https")
                    then ARXIV_URL +++ link_url else link_url))
      end
  end.

Fixpoint texts_of (l : list tag) : list string :=
  match l with
  | [] => []
  | a :: r => get_text EmptyString true a :: texts_of r
  end.

(** Lines 581-621: one [dt] entry. *)
Definition arxiv_entry (records : list row) (source_url : string)
           (date : option string) (dt : tag) : result (list article) :=
  link_url <- arxiv_link dt "Abstract" ;;
  pdf_link_url <- arxiv_link dt "Download PDF" ;;
  title_authors <-
    (match find_next_sibling dt "dd" with
     | None => Ok (None, [])
     | Some dd =>
         list_title <- find dd "div" (ByClass (ClassStr "list-title")) ;;
         list_title <- deref list_title ;;
         let title_ := drop 6 (get_text EmptyString true list_title) in
         authors_section <- find dd "div" (ByClass (ClassStr "list-authors")) ;;
         authors_section <- deref authors_section ;;
         links <- find_all authors_section "a" NoFilter ;;
         Ok (Some title_, texts_of links)
     end) ;;
  if negb (is_article_already_fetched records link_url) then
    Ok [mk_article (fst title_authors) date link_url source_url "arxiv"
                   (snd title_authors) pdf_link_url None]
  else Ok [].

(** Lines 565-621: the work done for one [dl] section.  The entries are the
    [dt] elements of the whole document, [soup.find_all('dt')]. *)
Definition arxiv_section (soup : tag) (records : list row)
           (source_url : string) (news_section : tag) : result (list article) :=
  h3 <- find news_section "h3" NoFilter ;;
  h3 <- deref h3 ;;
  date <- section_date (strip (text_of h3)) ;;
  dt_elements <- find_all soup "dt" NoFilter ;;
  let articles_to_extract :=
    Z.min (Z.of_nat (length dt_elements)) max_articles_per_site in
  for_each (arxiv_entry records source_url date)
           (slice_to dt_elements articles_to_extract).

(** [__search_arxiv] *)
Definition search_arxiv (soup : tag) (source_url : string)
           (records : list row) : result (list article) :=
  news_sections <- find_all soup "dl" (ByAttr "id" "articles") ;;
  for_each (arxiv_section soup records source_url) news_sections.

(** *** The sites: [__scrape_websites] *)

Definition classes_to_find : list string := ["flex"; "flex-col"].

(** [lambda class_list: all(cls in class_list for cls in classes_to_find)];
    BeautifulSoup applies it to one string, or to [None]. *)
Definition huggingface_article_class (class_list : option string)
  : result bool :=
  match class_list with
  | None => Raise TypeError
  | Some s => Ok (forallb (fun cls => contains cls s) classes_to_find)
  end.

Definition deepmind_rule : rule :=
  mk_rule "deepmind" (Some (PStr "glue-card card")) (Some (PStr "glue-headline"))
          "a" "p" "time" None (Some "datetime") None None 0.
Definition anthropic_rule : rule :=
  mk_rule "anthropic" (Some (PStr "PostCard_post-card__z_Sqq"))
          (Some (PStr "PostCard_post-heading__Ob1pu"))
          "a" "h3" "div" (Some "PostList_post-date__djrOA") None None None 0.
Definition openai_rule : rule :=
  mk_rule "openai" None (Some (PStr "text-h5"))
          "a" "div" "time" None (Some "datetime") None None 0.
Definition google_research_rule : rule :=
  mk_rule "google_research" (Some (PStr "glue-card")) (Some (PStr "headline-5"))
          "a" "span" "p" (Some "glue-label") None None None 0.
Definition huggingface_rule : rule :=
  mk_rule "huggingface" (Some (PFn huggingface_article_class))
          (Some (PStr "font-semibold"))
          "a" "h2" "span" (Some "truncate") None None None 0.
Definition theverge_rule : rule :=
  mk_rule "theverge" (Some (PStr "_1lkmsmo1")) (Some (PStr "_1lkmsmo1"))
          "a" "a" "time" None (Some "datetime") (Some "div")
          (Some (PList ["_184mfto4"; "_1pm20r51"; "_1dqvz267"; "_1dqvz265"])) 0.
Definition wired_rule : rule :=
  mk_rule "wired" (Some (PStr "summary-item__hed-link"))
          (Some (PStr "summary-item__hed"))
          "a" "h3" "time" (Some "summary-item__publish-date") None (Some "div")
          (Some (PStr "summary-item__content")) 0.
Definition venturebeat_rule : rule :=
  mk_rule "venturebeat" (Some (PStr "ArticleListing__title-link"))
          (Some (PStr "ArticleListing__title-link"))
          "a" "a" "time" None (Some "datetime") (Some "article")
          (Some (PStr "ArticleListing")) 0.
Definition techcrunch_rule : rule :=
  mk_rule "techcrunch" (Some (PStr "loop-card__title-link"))
          (Some (PStr "loop-card__title-link"))
          "a" "a" "time" None (Some "datetime") (Some "div")
          (Some (PStr "loop-card__content")) 0.
Definition aibusiness_rule : rule :=
  mk_rule "aibusiness" (Some (PStr "ListPreview-Title"))
          (Some (PStr "ListPreview-Title"))
          "a" "a" "span" (Some "ListPreview-Date") None (Some "div")
          (Some (PStr "ListPreview-ContentWrapper")) 0.
Definition ilpost_rule : rule :=
  mk_rule "ilpost" None (Some (PStr "_article-title_vvjfb_7"))
          "a" "h2" "time" (Some "_taxonomy-item__time_1moex_37") None
          (Some "article") (Some (PStr "_taxonomy-item_1moex_1")) 0.
Definition mistral_rule : rule :=
  mk_rule "mistral" None None
          "a" "h3" "span" None None (Some "div") (Some (PStr "blog-fade-in")) 1.
Definition perplexity_rule : rule :=
  mk_rule "perplexity_ai" (Some (PStr "framer-fkCik")) (Some (PStr "framer-text"))
          "a" "h4" "p" (Some "framer-text") None None None 0.
Definition xai_rule : rule :=
  mk_rule "xai" None (Some (PStr "text-lg"))
          "a" "h4" "span" (Some "mono-tag") None (Some "div")
          (Some (PStr "flex-col")) 0.
Definition meta_ai_rule : rule :=
  mk_rule "meta_ai" (Some (PStr "_amcw _amdf")) (Some (PStr "_amcw _amdf"))
          "a" "a" "div" (Some "_amdj") None (Some "div") (Some (PStr "_amdc")) 1.

(** [soup.find(name, class_=cls)] *)
Definition find_class (soup : tag) (name cls : string) : result (option tag) :=
  find soup name (ByClass (ClassStr cls)).

(** Lines 309-323: the header article of the Perplexity page. *)
Definition perplexity_header (soup : tag) (records : list row)
  : result (list article) :=
  header_article <- find_class soup "div" "framer-1qu7j16-container" ;;
  header_article <- deref header_article ;;
  header_link <- find_class header_article "a" "framer-text" ;;
  header_link <- deref header_link ;;
  let header_text := get_text EmptyString true header_link in
  match lookup "href" (tag_attrs header_link) with
  | None => Raise TypeError
  | Some header_link =>
      let url_ := PERPLEXITY_URL +++ drop 1 header_link in
      if negb (is_article_already_fetched records (Some url_)) then
        Ok [mk_article (Some header_text) None (Some url_) PERPLEXITY_URL
                       "perplexity_ai" [] None None]
      else Ok []
  end.

(** Lines 354-374: the header article of the Meta AI page. *)
Definition meta_ai_header (soup : tag) (records : list row)
  : result (list article) :=
  header_article <- find_class soup "div" "_amc_" ;;
  header_article <- deref header_article ;;
  header_link <- find_class header_article "a" "_amcw _amd2" ;;
  header_link <- deref header_link ;;
  let header_text := get_text EmptyString true header_link in
  let header_link := lookup "href" (tag_attrs header_link) in
  publish_date <- find_class header_article "div" "_amun" ;;
  publish_date <- deref publish_date ;;
  let date_str := get_text EmptyString true publish_date in
  publish_date <- strptime date_str "%B %d, %Y" ;;
  let publish_date := strftime_iso publish_date in
  let url_ := header_link in
  if negb (is_article_already_fetched records url_) then
    Ok [mk_article (Some header_text) (Some publish_date) url_ META_AI_URL
                   "meta_ai" [] None None]
  else Ok [].

(** The body of the [for website_url in websites_to_scrape] loop, after the
    page was rendered: what the iteration adds to [articles]. *)
Definition scrape_site (records : list row) (website_url : string) (soup : tag)
  : result (list article) :=
  let generic soup' base r :=
    parse_website_for_article_links soup' base records r in
  if contains DEEPMIND_URL website_url then
    generic (Some soup) DEEPMIND_URL deepmind_rule
  else if contains ANTHROPIC_URL website_url then
    generic (Some soup) ANTHROPIC_URL anthropic_rule
  else if contains OPENAI_URL website_url then
    news_content <-
      find_class soup "div" "grid @sm:grid-cols-2 @md:grid-cols-3 gap-x-sm gap-y-2xl" ;;
    generic news_content OPENAI_URL openai_rule
  else if contains GOOGLE_RESEARCH_URL website_url then
    news_content <- find_class soup "ul" "blog-posts-grid__cards" ;;
    generic news_content GOOGLE_RESEARCH_URL google_research_rule
  else if contains HUGGINGFACE_URL website_url then
    news_content <- find_class soup "div" "col-span-1" ;;
    generic news_content HUGGINGFACE_URL huggingface_rule
  else if contains VERGE_URL website_url then
    generic (Some soup) VERGE_URL theverge_rule
  else if contains WIRED_URL website_url then
    generic (Some soup) WIRED_URL wired_rule
  else if contains VENTUREBEAT_URL website_url then
    news_content <- find_class soup "div" "story-river" ;;
    generic news_content VENTUREBEAT_URL venturebeat_rule
  else if contains TECHCRUNCH_URL website_url then
    generic (Some soup) TECHCRUNCH_URL techcrunch_rule
  else if contains AIBUSINESS_URL website_url then
    news_content <- find_class soup "div" "LatestFeatured-ColumnList" ;;
    generic news_content AIBUSINESS_URL aibusiness_rule
  else if contains ILPOST_URL website_url then
    news_content <- find_class soup "div" "index_home-left__ikJqd" ;;
    generic news_content ILPOST_URL ilpost_rule
  else if contains MISTRAL_URL website_url then
    news_content <- find soup "div" (ByAttr "id" "news-section") ;;
    generic news_content MISTRAL_URL mistral_rule
  else if contains PERPLEXITY_URL website_url then
    header <- perplexity_header soup records ;;
    news_content <- find_class soup "div" "framer-1pk4ise" ;;
    site_articles <- generic news_content PERPLEXITY_URL perplexity_rule ;;
    Ok (header ++ site_articles)
  else if contains XAI_URL website_url then
    news_content <- find_class soup "div" "sm:gap-6" ;;
    generic news_content XAI_URL xai_rule
  else if contains META_AI_URL website_url then
    header <- meta_ai_header soup records ;;
    news_content <- find_class soup "div" "_amd6" ;;
    site_articles <- generic news_content META_AI_URL meta_ai_rule ;;
    Ok (header ++ site_articles)
  else if contains ARXIV_URL website_url then
    search_arxiv soup website_url records
  else Ok [].

(** [__scrape_websites] *)
Definition scrape_websites (records : list row) : result (list article) :=
  for_each (fun website_url =>
              match render website_url with
              | None => Raise NavigationError
              | Some soup => scrape_site records website_url soup
              end)
           websites.

(** *** The article text: [__parse_article], [__scrape_article] *)

Definition nbsp : ascii := ascii_of_nat 160.
Definition newline : ascii := ascii_of_nat 10.

(** [__parse_article] *)
Definition parse_article (soup : tag) (content_tag : string)
           (content_class : option string) : result (option string) :=
  content <-
    (if truthy_opt content_class then
       match content_class with
       | Some c => find soup content_tag (ByClass (ClassStr c))
       | None => find soup content_tag NoFilter
       end
     else find soup content_tag NoFilter) ;;
  match content with
  | Some content =>
      let text_ := get_text " " true content in
      let text_ :=
        replace "'" "'" (replace newline " " (replace nbsp " " text_)) in
      Ok (Some text_)
  | None => Ok None
  end.

(** The content selector of each site, in the order of the [if] chain of
    [__scrape_article]. *)
Definition content_selectors : list (string * (string * string)) :=
  [(ILPOST_URL, ("div", "contenuto"));
   (AIBUSINESS_URL, ("div", "ArticleBase-BodyContent"));
   (TECHCRUNCH_URL, ("div", "wp-block-post-content"));
   (VENTUREBEAT_URL, ("div", "article-content"));
   (WIRED_URL, ("div", "ArticlePageChunks-fLyCVG"));
   (VERGE_URL, ("div", "duet--layout--entry-body"));
   (HUGGINGFACE_URL, ("div", "blog-content"));
   (GOOGLE_RESEARCH_URL, ("div", "glue-grid__col"));
   (OPENAI_URL, ("article", "flex flex-col"));
   (ANTHROPIC_URL, ("div", "Body_body__XEXq7"));
   (DEEPMIND_URL, ("div", "glue-page"));
   (GOOGLE_BLOG_URL, ("article", "uni-article-wrapper"));
   (GOOGLE_DEVELOPERS_BLOG_URL, ("div", "blog-detail-container"));
   (MISTRAL_URL, ("div", "blog-rich-text"));
   (PERPLEXITY_URL, ("div", "framer-tef8j0"));
   (META_AI_URL, ("div", "_7h8s"));
   (XAI_URL, ("section", "py-16"));
   (ARXIV_URL, ("blockquote", "abstract"))].

(** The [if]/[elif] chain: the first site whose url occurs in
    [article_url] decides; with none, [article_text] was never assigned. *)
Fixpoint dispatch_article (soup : tag) (article_url : string)
         (chain : list (string * (string * string))) : result (option string) :=
  match chain with
  | [] => Raise UnboundLocalError
  | (site, (content_tag, content_class)) :: rest =>
      if contains site article_url
      then parse_article soup content_tag (Some content_class)
      else dispatch_article soup article_url rest
  end.

(** [__scrape_article].  A url that is [None] cannot be navigated to, nor
    searched for a site url. *)
Definition scrape_article (a : article) : result (option string) :=
  match url a with
  | None => Raise TypeError
  | Some article_url =>
      match render article_url with
      | None => Raise NavigationError
      | Some soup => dispatch_article soup article_url content_selectors
      end
  end.

Definition set_text (a : article) (t : option string) : article :=
  mk_article (title a) (publish_date a) (url a) (source_url a) (source a)
             (authors a) (pdf_url a) t.

Definition opt_eqb (a b : option string) : bool :=
  match a, b with
  | None, None => true
  | Some x, Some y => String.eqb x y
  | _, _ => false
  end.

(** Lines 645-659: keep the first article of each url and fetch its text. *)
Fixpoint unique_with_text (seen_urls : list (option string))
         (all_articles : list article) : result (list article) :=
  match all_articles with
  | [] => Ok []
  | a :: rest =>
      if negb (existsb (opt_eqb (url a)) seen_urls) then
        article_text <- scrape_article a ;;
        unique_articles <- unique_with_text (url a :: seen_urls) rest ;;
        Ok (set_text a article_text :: unique_articles)
      else unique_with_text seen_urls rest
  end.

(** [fetch_articles_from_sources] *)
Definition fetch_articles_from_sources (records : list row)
  : result (list article) :=
  website_articles <- scrape_websites records ;;
  unique_with_text [] website_articles.

End Retriever.

End NewsRetriever.

(* ================================================================== *)
(** ** More of Python's [str] *)

From Stdlib Require Import DecimalString.

Module PyBuiltins.
Import PyStr.

(** [s.split(sep)] for a one-character [sep]: the pieces between the
    separators, empty pieces included, so never the empty list. *)
Fixpoint split (sep : ascii) (s : string) : list string :=
  match s with
  | EmptyString => [EmptyString]
  | String c r =>
      if Ascii.eqb c sep then EmptyString :: split sep r
      else match split sep r with
           | x :: xs => String c x :: xs
           | [] => [String c EmptyString]
           end
  end.

(** [s.endswith(suffix)] *)
Fixpoint endswith (s suffix : string) : bool :=
  String.eqb s suffix
  || match s with
     | EmptyString => false
     | String _ r => endswith r suffix
     end.

Definition is_ascii (c : ascii) : bool := code c <? 128.

(** [s.title()] on ASCII text: a letter that follows a letter is put in
    lower case, any other letter in upper case. *)
Fixpoint str_title_from (previous_is_cased : bool) (s : string) : string :=
  match s with
  | EmptyString => EmptyString
  | String c r =>
      String (if previous_is_cased then lower_char c else upper_char c)
             (str_title_from (is_upper c || is_lower c) r)
  end.

Definition str_title (s : string) : string := str_title_from false s.

(** The white space [int] skips around a number: TAB..CR, SPACE, NEL and
    NBSP.  The separators FS..US, which [str.isspace] accepts, are not
    skipped. *)
Definition is_int_space (c : ascii) : bool :=
  between 9 13 c || (code c =? 32) || (code c =? 133) || (code c =? 160).

(** The digits of a decimal literal: single underscores are allowed
    between digits.  [count] is the number of digits read. *)
Fixpoint digits_value (acc : Z) (count : nat) (after_digit : bool)
         (s : string) : option (Z * nat) :=
  match s with
  | EmptyString => if after_digit then Some (acc, count) else None
  | String c r =>
      if is_digit c
      then digits_value (10 * acc + Z.of_nat (code c - 48))%Z (S count) true r
      else if Ascii.eqb c "_" && after_digit
           then digits_value acc count false r
           else None
  end.

(** [sys.get_int_max_str_digits()], by default. *)
Definition int_max_str_digits : nat := 4300.

(** [int(s)] of a [str], [None] for [ValueError]: white space around, one
    optional sign, decimal digits, and no more digits than the limit on
    the conversion allows. *)
Definition int_of_string (s : string) : option Z :=
  let s := strip_set is_int_space s in
  let (negative, digits) :=
    match s with
    | String c r =>
        if Ascii.eqb c "-" then (true, r)
        else if Ascii.eqb c "+" then (false, r)
        else (false, s)
    | EmptyString => (false, s)
    end in
  match digits_value 0 0 false digits with
  | Some (n, count) =>
      if int_max_str_digits <? count then None
      else Some (if negative then (- n)%Z else n)
  | None => None
  end.

(** [str(n)] of a natural number. *)
Definition str_of_nat (n : nat) : string :=
  NilEmpty.string_of_uint (Nat.to_uint n).

(** [l[i]] of a list, [None] for [IndexError]: a negative index counts
    from the end. *)
Definition getitem {A : Type} (l : list A) (i : Z) : option A :=
  if (0 <=? i)%Z then nth_error l (Z.to_nat i)
  else if (- Z.of_nat (length l) <=? i)%Z
       then nth_error l (Z.to_nat (Z.of_nat (length l) + i))
       else None.

End PyBuiltins.

(* ================================================================== *)
(** ** The configuration: [Config.get] *)

Module Config.
Import PyStr PyBuiltins.

#[local] Set Warnings "-register-all".

(** A value of the loaded document: a [dict], or anything else (a string,
    a number, a list, [None], ...), which [get] never looks into.  The items
    of a [dict] are kept in a list, and a name is bound to the first item
    that carries it. *)
Inductive value (A : Type) : Type :=
| Leaf (a : A)
| Dict (items : list (string * value A)).
Arguments Leaf {A} a.
Arguments Dict {A} items.

(** [value[k]], with [None] for [k not in value]. *)
Fixpoint lookup_key {V : Type} (k : string) (items : list (string * V))
  : option V :=
  match items with
  | [] => None
  | (k', v) :: rest => if String.eqb k k' then Some v else lookup_key k rest
  end.

(** The [for k in keys] loop of [get]. *)
Fixpoint get_loop {A : Type} (value_ : value A) (keys : list string)
         (default : value A) : value A :=
  match keys with
  | [] => value_
  | k :: rest =>
      match value_ with
      | Dict items =>
          match lookup_key k items with
          | Some v => get_loop v rest default
          | None => default
          end
      | Leaf _ => default
      end
  end.

(** [Config.get] *)
Definition get {A : Type} (config : value A) (key : string)
           (default : value A) : value A :=
  let keys := split "." key in
  get_loop config keys default.

End Config.

(* ================================================================== *)
(** ** [src/utils.py] *)

Module Utils.
Import PyStr PyBuiltins.

(** [to_camel_case] *)
Definition to_camel_case (snake_str : string) : string :=
  let components := split "_" snake_str in
  join EmptyString (map str_title components).

End Utils.

(* ================================================================== *)
(** ** The agents that search: [RetrieverAgent], [BrowserAgent] *)

Module SearchAgents.
Import PyStr PyBuiltins.

(** The test of the list comprehension that selects the documents of the
    docs folder in [RetrieverAgent.__init__]; [and] binds tighter than
    [or]. *)
Definition is_document (isfile : string -> bool) (f : string) : bool :=
  isfile f && endswith f ".pdf" || endswith f ".txt".

Definition documents (isfile : string -> bool) (listing : list string)
  : list string :=
  filter (is_document isfile) listing.

(** The pydantic fields of both agents. *)
Record counters : Type := mk_counters {
  count_search_calls : Z;
  max_search_calls : Z
}.

(** The defaults of the fields. *)
Definition default_counters : counters := mk_counters 0 10.

(** What one call of [chat] gives: the text that refuses the search, the
    response of the workflow, or the exception the workflow raised. *)
Inductive answer (R : Type) : Type :=
| LimitReached
| Response (r : R)
| Failed.
Arguments LimitReached {R}.
Arguments Response {R} r.
Arguments Failed {R}.

Section Run.

(** The workflow behind [self.run(user_msg)] is outside the model: from a
    state of the world it gives a response, or raises ([None]). *)
Variable world : Type.
Variable R : Type.
Variable run : world -> string -> world * option R.

(** [__run], which is all [chat] does. *)
Definition run_ (self : counters) (w : world) (user_msg : string)
  : counters * world * answer R :=
  if (max_search_calls self <=? count_search_calls self)%Z
  then (self, w, LimitReached)
  else
    (* perform the query *)
    match run w user_msg with
    | (w', Some response) =>
        (mk_counters (count_search_calls self + 1)%Z (max_search_calls self),
         w', Response response)
    | (w', None) => (self, w', Failed)
    end.

Definition chat := run_.

(** A caller that chats with one agent several times, going on after a
    failure. *)
Fixpoint chats (self : counters) (w : world) (user_msgs : list string)
  : counters * world * list (answer R) :=
  match user_msgs with
  | [] => (self, w, [])
  | m :: rest =>
      let '(self', w', a) := chat self w m in
      let '(self'', w'', answers) := chats self' w' rest in
      (self'', w'', a :: answers)
  end.

End Run.

End SearchAgents.

(* ================================================================== *)
(** ** The session with the user: [ArticlesMultiAgent] *)

Module ArticlesMultiAgent.
Import PyStr PyBuiltins ArticlesDatabase.

(** How a step of the session can stop: [input] finds the end of the
    input, an index is out of range, a menu has no such key ([KeyError]).
    [OutOfFuel] is no exception: it marks a run of the main loop that was
    cut by the bound on its iterations. *)
Inductive error : Type :=
| EOFError
| IndexError
| NoSuchOption
| OutOfFuel.

Inductive outcome (A : Type) : Type :=
| Return (a : A)
| Throw (e : error).
Arguments Return {A} a.
Arguments Throw {A} e.

(** The [dict] that [chat] returns. *)
Record reply : Type := mk_reply {
  reply_response : string;
  reply_report : string;
  reply_review : string
}.

(** What [chat] does is outside the model: it answers, or it raises an
    exception, of which [str(e)] is kept. *)
Inductive chat_result : Type :=
| Answered (r : reply)
| ChatFailed (str_e : string).

(** A response of [perform_selected_option]: a text, the text that says
    that no article matches the request, or the answer of [chat]. *)
Inductive response_value : Type :=
| VStr (s : string)
| VNoMatch
| VReply (r : reply).

(** The pairs [(operation, result)] the options of a menu return: the
    operation is one of [articles_list], [str] and [query_agent]. *)
Inductive operation : Type :=
| ArticlesList (result : list (list cell))
| Str (result : string)
| QueryAgent (result : response_value).

(** [response_code]: [str] or [query_agent]. *)
Inductive response_code : Type :=
| CodeStr
| CodeQueryAgent.

(** What the user typed at a menu: a number, or the text as it was. *)
Inductive choice : Type :=
| ChoiceInt (option : Z)
| ChoiceText (option : string).

(** What the session writes, in order.  [Asked] is no output: it records a
    call of [chat] with its message. *)
Inductive event : Type :=
| GoodMorning
| GoodAfternoon
| GoodEvening
| SomeNews
| NoNews
| MenuHeader
| MenuOption (key : nat) (label : string)
| AskOption
| AskArticle
| InvalidOption
| ListHeader
| Printed (v : response_value)
| Asked (user_msg : response_value)
| Goodbye.

(** [str(x)] of a cell. *)
Definition str_of_cell (c : cell) : string :=
  match c with
  | CStr s => s
  | CBool true => "True"
  | CBool false => "False"
  | CNone => "None"
  end.

Definition cell_eqb (a b : cell) : bool :=
  match a, b with
  | CStr x, CStr y => String.eqb x y
  | CBool x, CBool y => Bool.eqb x y
  | CNone, CNone => true
  | _, _ => false
  end.

(** [get_printable_articles_list] of [src/utils.py]: one line for each row,
    numbered from zero, with the cells of index 2, 3 and 4. *)
Fixpoint printable_from (index : nat) (articles_list : list (list cell))
         (output : string) : outcome string :=
  match articles_list with
  | [] => Return output
  | row :: rest =>
      match getitem row 2, getitem row 3, getitem row 4 with
      | Some title_, Some source_, Some date_ =>
          let article_number_str := str_of_nat index +++ ") " in
          printable_from
            (S index) rest
            (output +++ String (ascii_of_nat 9) article_number_str
                    +++ str_of_cell title_ +++ " - " +++ str_of_cell source_
                    +++ ", " +++ str_of_cell date_
                    +++ String (ascii_of_nat 10) EmptyString)
      | _, _, _ => Throw IndexError
      end
  end.

Definition get_printable_articles_list (articles_list : list (list cell))
  : outcome string :=
  printable_from 0 articles_list EmptyString.

Section Agent.

(** The agents behind [chat], with their state. *)
Variable world : Type.
Variable chat : world -> response_value -> world * chat_result.

(** [self.articles_database.articles_records], which a session only
    reads. *)
Variable records : list row.

(** [datetime.now().hour] *)
Variable current_hour : nat.

(** The state a session runs in: the lines the user will type, what was
    written so far, the agents, and the list object [articles] of [start],
    which [perform_selected_option] updates in place and [explore_article]
    reads. *)
Record state : Type := mk_state {
  inputs : list string;
  printed : list event;
  agent : world;
  articles : list (list cell)
}.

Definition M (A : Type) : Type := state -> state * outcome A.

Definition ret {A : Type} (a : A) : M A := fun st => (st, Return a).

Definition throw {A : Type} (e : error) : M A := fun st => (st, Throw e).

Definition bindM {A B : Type} (m : M A) (k : A -> M B) : M B :=
  fun st =>
    match m st with
    | (st', Return a) => k a st'
    | (st', Throw e) => (st', Throw e)
    end.

#[local] Notation "x <~ m ;; k" := (bindM m (fun x => k))
  (at level 61, m at next level, right associativity).

Definition lift {A : Type} (r : outcome A) : M A := fun st => (st, r).

Definition lift_option {A : Type} (e : error) (o : option A) : M A :=
  match o with
  | Some a => ret a
  | None => throw e
  end.

Definition write (events : list event) : M unit :=
  fun st =>
    (mk_state (inputs st) (printed st ++ events) (agent st) (articles st),
     Return tt).

Definition print (e : event) : M unit := write [e].

Definition get_articles : M (list (list cell)) :=
  fun st => (st, Return (articles st)).

(** [articles[:] = result] *)
Definition set_articles (result : list (list cell)) : M unit :=
  fun st =>
    (mk_state (inputs st) (printed st) (agent st) result, Return tt).

(** [self.chat(user_msg)] inside [try ... except Exception as e]. *)
Definition call_chat (user_msg : response_value) : M response_value :=
  fun st =>
    let (w, r) := chat (agent st) user_msg in
    (mk_state (inputs st) (printed st ++ [Asked user_msg]) w (articles st),
     Return match r with
            | Answered d => VReply d
            | ChatFailed str_e => VStr str_e
            end).

(** The loop [while True: option = input(prompt) ...] of
    [interactive_menu] and of [explore_article]: it goes on while the line
    is a number outside [0 <= option < n], and ends with a number inside,
    or with the first line that is no number. *)
Fixpoint choose (prompt : event) (n : nat) (lines : list string)
  : list event * list string * outcome choice :=
  match lines with
  | [] => ([prompt], [], Throw EOFError)
  | line :: rest =>
      match int_of_string line with
      | Some option =>
          if (0 <=? option)%Z && (option <? Z.of_nat n)%Z
          then ([prompt], rest, Return (ChoiceInt option))
          else
            let '(events, rest', r) := choose prompt n rest in
            (prompt :: InvalidOption :: events, rest', r)
      | None => ([prompt], rest, Return (ChoiceText line))
      end
  end.

Definition ask (prompt : event) (n : nat) : M choice :=
  fun st =>
    let '(events, rest, r) := choose prompt n (inputs st) in
    (mk_state rest (printed st ++ events) (agent st) (articles st), r).

Fixpoint menu_lines (key : nat) (options : list string) : list event :=
  match options with
  | [] => []
  | value_ :: rest => MenuOption key value_ :: menu_lines (S key) rest
  end.

(** [interactive_menu]; the keys of [options] are [0 .. len(options) - 1]. *)
Definition interactive_menu (options : list string) : M choice :=
  _ <~ print MenuHeader ;;
  _ <~ write (menu_lines 0 options) ;;
  ask AskOption (length options).

(** [options[option]] of a [dict] with the keys [0 .. len(options) - 1]. *)
Definition option_of_key {A : Type} (options : list A) (key : Z) : option A :=
  if (0 <=? key)%Z then nth_error options (Z.to_nat key) else None.

Definition is_bye (v : response_value) : bool :=
  match v with
  | VStr s => String.eqb s "/bye"
  | _ => false
  end.

(** [perform_selected_option] *)
Definition perform_selected_option (option : choice)
           (options : list (M operation))
           (force_response_code : response_code) : M response_value :=
  answer <~
    match option with
    | ChoiceInt key =>
        run_option <~ lift_option NoSuchOption (option_of_key options key) ;;
        op <~ run_option ;;
        match op with
        | ArticlesList result =>
            (* if the obtained list is not empty *)
            if 0 <? length result then
              _ <~ print ListHeader ;;
              (* set the global articles list to the new one *)
              _ <~ set_articles result ;;
              current <~ get_articles ;;
              response <~ lift (get_printable_articles_list current) ;;
              ret (VStr response, CodeStr)
            else ret (VNoMatch, CodeStr)
        | Str result => ret (VStr result, CodeStr)
        | QueryAgent result => ret (result, CodeQueryAgent)
        end
    | ChoiceText text_ => ret (VStr text_, force_response_code)
    end ;;
  let (response, code) := answer : response_value * response_code in
  match code with
  | CodeQueryAgent =>
      if negb (is_bye response) then call_chat response else ret response
  | CodeStr => ret response
  end.

Definition browse_first : string :=
  "browse the URL of the article to scrape and extract article information by "
  +++ "handing off to BrowserAgent,".

Definition retrieve_first : string :=
  "retrieve the article and extract article information from the knowledge base "
  +++ "by handing off to RetrieverAgent,".

Definition prompt_header (title_ : option string) (source_ : string)
           (publish_date_ : option string) (url_ : cell) : string :=
  "Given this article with the title '" +++ format_opt title_
  +++ "', published by " +++ source_ +++ " on " +++ format_opt publish_date_
  +++ " at the url '" +++ str_of_cell url_ +++ "',".

(** The three requests about one article, by their key in the menu. *)
Definition article_requests (header has_textual_content : string)
  : list string :=
  [header +++ " " +++ has_textual_content +++ " then summarize it.";
   header +++ " " +++ has_textual_content +++ " then create a "
   +++ "detailed report about it, with "
   +++ "specific insights on the conclusion "
   +++ "and the findings of the article, "
   +++ "plus explain if what is described in "
   +++ "the article is a game changer and, "
   +++ "if so how.";
   header +++ " search on DuckDuckGo for "
   +++ "more information about the content of the "
   +++ "article by handing off to BrowserAgent."].

Definition article_menu : list string :=
  ["Summarize the article"; "Create a report";
   "Search the web for more information"].

(** [explore_article] *)
Definition explore_article : M operation :=
  current <~ get_articles ;;
  option <~ ask AskArticle (length current) ;;
  match option with
  | ChoiceInt index =>
      (* extract the article selected by the user *)
      article <~ lift_option IndexError (getitem current index) ;;
      (* extract the article from the database using the url *)
      url_ <~ lift_option IndexError (getitem article 0) ;;
      let article_row :=
        filter (fun r => cell_eqb (CStr (row_url r)) url_) records in
      first <~ lift_option IndexError (hd_error article_row) ;;
      let has_textual_content :=
        if negb (has_text first) then browse_first else retrieve_first in
      let header :=
        prompt_header (row_title first) (row_source first)
                      (row_publish_date first) url_ in
      (* open the interactive menu for the current article *)
      article_option <~ interactive_menu article_menu ;;
      result <~ perform_selected_option
                  article_option
                  (map (fun request => ret (Str request))
                       (article_requests header has_textual_content))
                  CodeStr ;;
      ret (QueryAgent result)
  | ChoiceText text_ => ret (QueryAgent (VStr text_))
  end.

Definition main_menu : list string :=
  ["Show recent articles"; "Show all articles"; "Explore a specific article"].

Definition main_options : list (M operation) :=
  [ret (ArticlesList (snd (get_new_articles records)));
   ret (ArticlesList (snd (get_all_articles records)));
   explore_article].

(** The loop [while True] of [start]; [fuel] bounds its iterations. *)
Fixpoint main_loop (fuel : nat) : M unit :=
  match fuel with
  | O => throw OutOfFuel
  | S fuel' =>
      (* open the interactive menu *)
      option <~ interactive_menu main_menu ;;
      (* perform the selected option *)
      result <~ perform_selected_option option main_options CodeQueryAgent ;;
      if is_bye result then ret tt
      else
        _ <~ print (Printed result) ;;
        main_loop fuel'
  end.

Definition greeting : event :=
  if (5 <=? current_hour) && (current_hour <? 12) then GoodMorning
  else if (12 <=? current_hour) && (current_hour <? 18) then GoodAfternoon
       else GoodEvening.

(** [start] *)
Definition start (fuel : nat) : M unit :=
  _ <~ print greeting ;;
  (* retrieve new articles *)
  let new_articles := snd (get_new_articles records) in
  _ <~ (if 0 <? length new_articles
        then _ <~ print SomeNews ;; set_articles new_articles
        else _ <~ print NoNews ;;
             set_articles (snd (get_all_articles records))) ;;
  current <~ get_articles ;;
  listing <~ lift (get_printable_articles_list current) ;;
  _ <~ print (Printed (VStr listing)) ;;
  _ <~ main_loop fuel ;;
  print Goodbye.

(** A session that starts with the lines [lines] to come. *)
Definition session (w : world) (lines : list string) : state * outcome unit :=
  start (S (length lines)) (mk_state lines [] w []).

End Agent.

End ArticlesMultiAgent.

(* ================================================================== *)
(** ** The answer of the agents: [ArticlesMultiAgent.__chat] *)

Module AgentChat.
Import PyStr ArticlesMultiAgent.

(** What the loop of [__chat] tells apart in an event of the workflow. *)
Inductive event_kind : Type :=
| AgentOutput (content : option string) (tool_calls : list string)
| ToolCallResult
| ToolCall
| OtherEvent.

(** An event of the stream.  [current_agent_name] is [None] when the event
    has no such attribute, and else its value. *)
Record stream_event : Type := mk_stream_event {
  current_agent_name : option (option string);
  kind : event_kind
}.

(** [event.current_agent_name != current_agent] *)
Definition names_another_agent (event : stream_event)
           (current_agent : option string) : bool :=
  match current_agent_name event with
  | None => false
  | Some name =>
      negb match name, current_agent with
           | None, None => true
           | Some x, Some y => String.eqb x y
           | _, _ => false
           end
  end.

(** The loop [async for event in handler.stream_events()], without what it
    prints: the agent last named, and the response kept. *)
Fixpoint stream (verbose : bool) (events : list stream_event)
         (current_agent : option string) (response : string) : string :=
  match events with
  | [] => response
  | event :: rest =>
      if verbose then
        if names_another_agent event current_agent then
          match current_agent_name event with
          | Some name => stream verbose rest name response
          | None => stream verbose rest current_agent response
          end
        else
          match kind event with
          | AgentOutput content _ =>
              if truthy_opt content
              then stream verbose rest current_agent (format_opt content)
              else stream verbose rest current_agent response
          | _ => stream verbose rest current_agent response
          end
      else stream verbose rest current_agent response
  end.

(** [key in final_state] and [final_state[key]] *)
Fixpoint state_get (key : string) (final_state : list (string * string))
  : option string :=
  match final_state with
  | [] => None
  | (k, v) :: rest => if String.eqb key k then Some v else state_get key rest
  end.

(** [__chat], from the events of the run and the state it ends in. *)
Definition chat_ (verbose : bool) (events : list stream_event)
           (final_state : list (string * string)) : result reply :=
  let response := stream verbose events None EmptyString in
  _ <- (if verbose then
          match state_get "report_content" final_state with
          | Some _ => Ok tt
          | None => Raise KeyError
          end
        else Ok tt) ;;
  let report_content :=
    match state_get "report_content" final_state with
    | Some r => r
    | None => EmptyString
    end in
  (* Review feedback (if any) *)
  let review :=
    match state_get "review" final_state with
    | Some r => if verbose then r else EmptyString
    | None => EmptyString
    end in
  Ok (mk_reply response report_content review).

End AgentChat.

(* ================================================================== *)
(** * Properties *)

Import PyStr Regex Bs4 Datetime ArticlesDatabase NewsRetriever.

(** ** The error monad *)

Lemma bind_Ok_inv {A B} (r : result A) (k : A -> result B) (b : B) :
  bind r k = Ok b -> exists a, r = Ok a /\ k a = Ok b.
Proof. destruct r as [a|e]; simpl; intros H; [eauto | discriminate]. Qed.

Ltac inv_bind H :=
  let a := fresh "a" in
  let Ha := fresh "Ha" in
  apply bind_Ok_inv in H; destruct H as [a [Ha H]].

(** ** Strings *)

Lemma mem_char_app (c : ascii) (a b : string) :
  mem_char c (a +++ b) = mem_char c a || mem_char c b.
Proof.
  induction a as [|d a IH]; simpl; [reflexivity|].
  rewrite IH, orb_assoc. reflexivity.
Qed.

Lemma append_empty_r (s : string) : s +++ EmptyString = s.
Proof. induction s as [|c s IH]; simpl; [reflexivity | now rewrite IH]. Qed.

Lemma append_assoc (a b c : string) : (a +++ b) +++ c = a +++ (b +++ c).
Proof. induction a as [|d a IH]; simpl; [reflexivity | now rewrite IH]. Qed.

Lemma replace_removes (old : ascii) (new s : string) :
  mem_char old new = false -> mem_char old (replace old new s) = false.
Proof.
  intros Hnew. induction s as [|c s IH]; simpl; [reflexivity|].
  destruct (Ascii.eqb c old) eqn:E.
  - rewrite mem_char_app, Hnew, IH. reflexivity.
  - simpl. rewrite IH, orb_false_r.
    rewrite Ascii.eqb_sym. exact E.
Qed.

Lemma replace_keeps_absent (c old : ascii) (new s : string) :
  mem_char c new = false -> mem_char c s = false ->
  mem_char c (replace old new s) = false.
Proof.
  intros Hnew. induction s as [|d s IH]; simpl; [reflexivity|].
  intros H. apply orb_false_iff in H. destruct H as [H1 H2].
  destruct (Ascii.eqb d old).
  - rewrite mem_char_app, Hnew, IH by assumption. reflexivity.
  - simpl. rewrite H1, IH by assumption. reflexivity.
Qed.

Lemma replace_same (c : ascii) (s : string) :
  replace c (String c EmptyString) s = s.
Proof.
  induction s as [|d s IH]; simpl; [reflexivity|].
  destruct (Ascii.eqb d c) eqn:E; simpl; rewrite IH; [|reflexivity].
  apply Ascii.eqb_eq in E. now subst.
Qed.

Lemma all_chars_app (p : ascii -> bool) (a b : string) :
  all_chars p (a +++ b) = all_chars p a && all_chars p b.
Proof.
  induction a as [|c a IH]; simpl; [reflexivity|].
  now rewrite IH, andb_assoc.
Qed.

Lemma all_chars_weaken (p q : ascii -> bool) (s : string) :
  (forall c, p c = true -> q c = true) ->
  all_chars p s = true -> all_chars q s = true.
Proof.
  intros Hpq. induction s as [|c s IH]; simpl; [reflexivity|].
  intros H. apply andb_true_iff in H. destruct H as [H1 H2].
  rewrite (Hpq _ H1), IH by assumption. reflexivity.
Qed.

(** Every character, for checks by computation over a class. *)
Definition all_ascii : list ascii := map ascii_of_nat (seq 0 256).

Lemma ascii_forall (P : ascii -> bool) :
  forallb P all_ascii = true -> forall c, P c = true.
Proof.
  intros H c. rewrite forallb_forall in H. apply H.
  unfold all_ascii. rewrite <- (ascii_nat_embedding c).
  apply in_map. apply in_seq. pose proof (nat_ascii_bounded c). lia.
Qed.

(** ** The article store *)

Section StoreProperties.

Variable docs_folder : string.
Variable io_ok : article -> bool.

#[local] Abbreviation update_loop := (update_loop docs_folder io_ok).
#[local] Abbreviation update := (update docs_folder io_ok).

Definition urls (records : list row) : list string := map row_url records.

Lemma known_iff_In (records : list row) (u : string) :
  is_article_already_fetched records (Some u) = true <-> In u (urls records).
Proof.
  unfold urls. simpl. rewrite existsb_exists. split.
  - intros [r [Hr E]]. apply String.eqb_eq in E. subst u. now apply in_map.
  - intros H. apply in_map_iff in H. destruct H as [r [E Hr]].
    exists r. split; [assumption|]. subst u. apply String.eqb_refl.
Qed.

Lemma urls_clear (records : list row) :
  urls (map clear_is_new records) = urls records.
Proof. unfold urls. rewrite map_map. reflexivity. Qed.

(** What one run of the loop of [update] does to the rows: it appends rows,
    each flagged new, each with a non-empty url that was stored nowhere
    before and comes from the batch, and it counts them. *)
Lemma update_loop_appends (articles : list article) :
  forall (records : list row) (n : nat),
  exists inserted : list row,
    fst (update_loop records n articles) = records ++ inserted
    /\ Forall (fun r => is_new r = true) inserted
    /\ Forall (fun r => truthy (row_url r) = true
                        /\ ~ In (row_url r) (urls records)
                        /\ exists a, In a articles /\ url a = Some (row_url r))
              inserted
    /\ NoDup (urls inserted)
    /\ (forall m, snd (update_loop records n articles) = Ok m ->
                  m = n + length inserted).
Proof.
  induction articles as [|a rest IH]; intros records n.
  - exists []. simpl. rewrite app_nil_r.
    repeat split; try constructor. intros m H. injection H as <-. lia.
  - assert (Hskip :
      (exists inserted : list row,
         fst (update_loop records n rest) = records ++ inserted
         /\ Forall (fun r => is_new r = true) inserted
         /\ Forall (fun r => truthy (row_url r) = true
                        /\ ~ In (row_url r) (urls records)
                        /\ exists a0, In a0 (a :: rest)
                                      /\ url a0 = Some (row_url r)) inserted
         /\ NoDup (urls inserted)
         /\ (forall m, snd (update_loop records n rest) = Ok m ->
                       m = n + length inserted))).
    { destruct (IH records n) as [ins [H1 [H2 [H3 [H4 H5]]]]].
      exists ins. repeat split; try assumption.
      eapply Forall_impl; [|exact H3]. simpl.
      intros r [Ha [Hb [a0 [Hc Hd]]]]. repeat split; try assumption.
      exists a0. split; [now right | assumption]. }
    simpl. destruct (url a) as [u|] eqn:Eu; [|exact Hskip].
    destruct (truthy u) eqn:Et; simpl; [|exact Hskip].
    destruct (existsb (fun r => String.eqb u (row_url r)) records) eqn:Ek;
      [exact Hskip|].
    assert (Hfresh : ~ In u (urls records)).
    { intros Hin. apply known_iff_In in Hin. simpl in Hin. congruence. }
    destruct (if truthy_opt (pdf_url a)
              then download_pdf_from_url docs_folder io_ok a
              else save_article_to_txt docs_folder io_ok a) as [path|e].
    + set (r := mk_row u path (title a) (source a) (publish_date a)
                       (truthy_opt (text a)) true).
      destruct (IH (records ++ [r]) (S n)) as [ins [H1 [H2 [H3 [H4 H5]]]]].
      exists (r :: ins). rewrite H1, <- app_assoc. simpl.
      assert (Hnot : ~ In u (urls ins)).
      { intros Hin. unfold urls in Hin. apply in_map_iff in Hin.
        destruct Hin as [x [Ex Hx]].
        rewrite Forall_forall in H3. destruct (H3 x Hx) as [_ [Hn _]].
        apply Hn. unfold urls. rewrite map_app, in_app_iff. right.
        simpl. left. now rewrite Ex. }
      repeat split.
      * constructor; [reflexivity | assumption].
      * constructor.
        -- simpl. repeat split; try assumption.
           exists a. split; [now left | assumption].
        -- eapply Forall_impl; [|exact H3]. simpl.
           intros x [Ha [Hb [a0 [Hc Hd]]]]. repeat split; try assumption.
           ++ intros Hin. apply Hb. unfold urls. rewrite map_app, in_app_iff.
              now left.
           ++ exists a0. split; [now right | assumption].
      * simpl. constructor; assumption.
      * intros m Hm. apply H5 in Hm. simpl. lia.
    + exists []. simpl. rewrite app_nil_r.
      repeat split; try constructor. intros m Hm. discriminate.
Qed.

Lemma NoDup_append {A} (l1 l2 : list A) :
  NoDup l1 -> NoDup l2 -> (forall x, In x l2 -> ~ In x l1) -> NoDup (l1 ++ l2).
Proof.
  induction l1 as [|x l1 IH]; simpl; intros H1 H2 Hd; [assumption|].
  inversion H1; subst. constructor.
  - rewrite in_app_iff. intros [Hx|Hx]; [contradiction|].
    apply (Hd x Hx). now left.
  - apply IH; try assumption. intros y Hy Hin. apply (Hd y Hy). now right.
Qed.

(** When [update] runs to its end, every url of the batch that is a
    non-empty string is stored. *)
Lemma update_loop_stores (articles : list article) :
  forall (records : list row) (n m : nat) (a : article) (u : string),
    snd (update_loop records n articles) = Ok m ->
    In a articles -> url a = Some u -> truthy u = true ->
    In u (urls (fst (update_loop records n articles))).
Proof.
  induction articles as [|b rest IH]; intros records n m a u Hok Hin Hu Ht;
    [contradiction|].
  assert (Hmono : forall recs k, In u (urls recs) ->
                                 In u (urls (fst (update_loop recs k rest)))).
  { intros recs k Hk.
    destruct (update_loop_appends rest recs k) as [ins [H1 _]].
    rewrite H1. unfold urls. rewrite map_app, in_app_iff. now left. }
  simpl in *. destruct Hin as [<-|Hin].
  - rewrite Hu in *. rewrite Ht in *. simpl in *.
    destruct (existsb (fun r => String.eqb u (row_url r)) records) eqn:Ek.
    + apply Hmono. apply known_iff_In. exact Ek.
    + destruct (if truthy_opt (pdf_url b)
                then download_pdf_from_url docs_folder io_ok b
                else save_article_to_txt docs_folder io_ok b) as [path|e];
        [|discriminate].
      apply Hmono. unfold urls. rewrite map_app, in_app_iff. right. now left.
  - destruct (url b) as [v|]; [|eauto].
    destruct (truthy v); simpl in *; [|eauto].
    destruct (existsb (fun r => String.eqb v (row_url r)) records); [eauto|].
    destruct (if truthy_opt (pdf_url b)
              then download_pdf_from_url docs_folder io_ok b
              else save_article_to_txt docs_folder io_ok b) as [path|e];
      [eauto | discriminate].
Qed.

(** C4.  After [update], [is_new] is true exactly for the rows the call
    inserted: the rows that were there keep their place and their data with
    [is_new] false, the inserted rows follow them with [is_new] true, and
    the count [update] reports is their number.  This holds of the rows
    [update] leaves, also when it is interrupted by an exception. *)
Theorem update_is_new_exactly_inserted (records : list row)
        (articles : list article) :
  exists inserted : list row,
    fst (update records articles) = map clear_is_new records ++ inserted
    /\ Forall (fun r => is_new r = false) (map clear_is_new records)
    /\ Forall (fun r => is_new r = true) inserted
    /\ (forall i r, nth_error (fst (update records articles)) i = Some r ->
                    (is_new r = true <-> length records <= i))
    /\ (forall n, snd (update records articles) = Ok n -> n = length inserted).
Proof.
  unfold update.
  destruct (update_loop_appends articles (map clear_is_new records) 0)
    as [ins [H1 [H2 [_ [_ H5]]]]].
  exists ins.
  assert (Hold : Forall (fun r => is_new r = false) (map clear_is_new records)).
  { apply Forall_forall. intros r Hr. apply in_map_iff in Hr.
    destruct Hr as [x [<- _]]. reflexivity. }
  repeat split; try assumption.
  - intros Hnew. rewrite H1 in H.
    destruct (Nat.le_gt_cases (length records) i) as [Hle|Hlt]; [assumption|].
    rewrite nth_error_app1 in H by (rewrite length_map; assumption).
    apply nth_error_In in H. rewrite Forall_forall in Hold.
    rewrite (Hold r H) in Hnew. discriminate.
  - intros Hle. rewrite H1 in H.
    rewrite nth_error_app2 in H by (rewrite length_map; assumption).
    apply nth_error_In in H. rewrite Forall_forall in H2. now apply H2.
Qed.

(** C5.  [update] keeps the urls of the store pairwise distinct, whatever
    the batch holds (stubs without url, stubs of a stored url, two stubs of
    one url): the rows it appends have non-empty urls. *)
Theorem update_keeps_urls_unique (records : list row) (articles : list article) :
  NoDup (urls records) ->
  NoDup (urls (fst (update records articles)))
  /\ Forall (fun r => truthy (row_url r) = true)
            (skipn (length records) (fst (update records articles))).
Proof.
  intros Hnd. unfold update.
  destruct (update_loop_appends articles (map clear_is_new records) 0)
    as [ins [H1 [_ [H3 [H4 _]]]]].
  rewrite H1. split.
  - unfold urls. rewrite map_app. apply NoDup_append.
    + fold (urls (map clear_is_new records)). now rewrite urls_clear.
    + exact H4.
    + intros x Hx. apply in_map_iff in Hx. destruct Hx as [r [<- Hr]].
      rewrite Forall_forall in H3. now destruct (H3 r Hr) as [_ [Hn _]].
  - replace (length records) with (length (map clear_is_new records) + 0)
      by (rewrite length_map; lia).
    rewrite skipn_app, skipn_all2 by lia. simpl.
    replace (length (map clear_is_new records) + 0
             - length (map clear_is_new records)) with 0 by lia.
    simpl. eapply Forall_impl; [|exact H3]. simpl. tauto.
Qed.

End StoreProperties.

(** C10.  The accessors return a pair: the constant ["articles_list"], then
    the rows as lists of cells, those flagged new for [get_new_articles] and
    all of them for [get_all_articles]. *)
Theorem accessors_return_tagged_rows (records : list row) :
  fst (get_new_articles records) = "articles_list"
  /\ snd (get_new_articles records)
     = map row_values (filter is_new records)
  /\ Forall (fun cells => nth_error cells 6 = Some (CBool true))
            (snd (get_new_articles records))
  /\ fst (get_all_articles records) = "articles_list"
  /\ snd (get_all_articles records) = map row_values records.
Proof.
  repeat split. simpl. apply Forall_forall. intros cells H.
  apply in_map_iff in H. destruct H as [r [<- Hr]].
  apply filter_In in Hr. destruct Hr as [_ Hr]. simpl. now rewrite Hr.
Qed.

(** ** Url normalisation *)

(** C2, as the claim states it, fails: an [href] with the scheme [http] is
    not passed through, it is appended to the base url; and an [href] that
    starts with a dot loses the dot and gets no slash. *)
Lemma normalize_url_scheme_counterexample :
  normalize_url "https://example.com" "http://example.org/x"
  = "https://example.com/http://example.org/x"
  /\ normalize_url "https://example.com" "http://example.org/x"
     <> "http://example.org/x"
  /\ normalize_url "https://example.com" ".c" = "https://example.comc".
Proof. repeat split. discriminate. Qed.

(** C2, amended.  An [href] that starts with ["https"] passes through
    unchanged.  Any other [href] is appended to the base url after one of
    three exclusive steps: a leading dot is removed (and no slash is added),
    or a slash is prepended when the [href] starts with neither a dot nor a
    slash, or the [href] is taken as it is when it starts with a slash. *)
Theorem normalize_url_cases (source_url href : string) :
  normalize_url source_url href =
    (if startswith href "https" then href
     else if startswith href "." then source_url +++ drop 1 href
     else if startswith href "/" then source_url +++ href
     else source_url +++ "/" +++ href)
  /\ normalize_url "https://example.com" "/a/b" = "https://example.com/a/b"
  /\ normalize_url "https://example.com" "./c" = "https://example.com/c"
  /\ normalize_url "https://example.com" "d" = "https://example.com/d".
Proof.
  repeat split. unfold normalize_url.
  destruct (startswith href "https"); simpl; [reflexivity|].
  destruct (startswith href "."); simpl; [reflexivity|].
  destruct (startswith href "/"); reflexivity.
Qed.

(** ** The text of an article *)

(** The elements [parse_article] looks for: the tag name, and the class
    when one is given (a class that is [None] or empty is not given).  A
    class matches one name of the element, or all of them joined. *)
Definition content_matches (content_tag : string)
           (content_class : option string) (t : tag) : bool :=
  String.eqb (tag_name t) content_tag
  && match content_class with
     | Some c =>
         if truthy c then
           match tag_class t with
           | Some l => existsb (String.eqb c) l || String.eqb (join " " l) c
           | None => false
           end
         else true
     | None => true
     end.

Lemma first_matching_pure (name : string) (flt : attr_filter)
      (p : tag -> bool) (l : list tag) :
  (forall t, matches name flt t = Ok (p t)) ->
  first_matching name flt l = Ok (List.find p l).
Proof.
  intros Hp. induction l as [|t l IH]; simpl; [reflexivity|].
  rewrite Hp. simpl. destruct (p t); [reflexivity | exact IH].
Qed.

Lemma find_none_iff {A} (p : A -> bool) (l : list A) :
  List.find p l = None <-> forall x, In x l -> p x = false.
Proof.
  induction l as [|a l IH]; simpl.
  - split; [intros _ x [] | reflexivity].
  - destruct (p a) eqn:E.
    + split; [discriminate|]. intros H. rewrite (H a) in E by now left.
      discriminate.
    + rewrite IH. split.
      * intros H x [<-|Hx]; [assumption | now apply H].
      * intros H x Hx. apply H. now right.
Qed.

Definition normalized_text (content : tag) : string :=
  replace newline " " (replace nbsp " " (get_text " " true content)).

Lemma parse_article_eq (soup : tag) (content_tag : string)
      (content_class : option string) :
  parse_article soup content_tag content_class
  = Ok (option_map normalized_text
          (List.find (content_matches content_tag content_class)
                     (descendants soup))).
Proof.
  unfold parse_article, find.
  assert (H : (if truthy_opt content_class
               then match content_class with
                    | Some c =>
                        first_matching content_tag (ByClass (ClassStr c))
                                       (descendants soup)
                    | None =>
                        first_matching content_tag NoFilter (descendants soup)
                    end
               else first_matching content_tag NoFilter (descendants soup))
              = Ok (List.find (content_matches content_tag content_class)
                              (descendants soup))).
  { destruct content_class as [c|]; simpl.
    - destruct (truthy c) eqn:Et; apply first_matching_pure; intros t;
        unfold matches, content_matches; rewrite Et;
        destruct (String.eqb (tag_name t) content_tag); simpl; try reflexivity.
      destruct (tag_class t); simpl; [reflexivity|].
      unfold truthy in Et. destruct (is_empty c); [discriminate|reflexivity].
    - apply first_matching_pure; intros t. unfold matches, content_matches.
      destruct (String.eqb (tag_name t) content_tag); reflexivity. }
  rewrite H. simpl.
  destruct (List.find _ _); simpl; [|reflexivity].
  unfold normalized_text. now rewrite replace_same.
Qed.

(** C9.  [__parse_article] never raises; it returns [None] exactly when no
    element below the document matches the tag (and the class, when one is
    given); otherwise it returns the visible text of the first matching
    element in document order, pieces joined by one space, with every
    non-breaking space and every newline replaced by a space, so that the
    text holds neither. *)
Theorem parse_article_first_match_text (soup : tag) (content_tag : string)
        (content_class : option string) :
  (parse_article soup content_tag content_class = Ok None
   <-> forall t, In t (descendants soup) ->
                 content_matches content_tag content_class t = false)
  /\ (forall content,
        List.find (content_matches content_tag content_class)
                  (descendants soup) = Some content ->
        parse_article soup content_tag content_class
        = Ok (Some (normalized_text content))
        /\ mem_char nbsp (normalized_text content) = false
        /\ mem_char newline (normalized_text content) = false)
  /\ exists r, parse_article soup content_tag content_class = Ok r.
Proof.
  rewrite parse_article_eq. repeat split.
  - intros H. apply find_none_iff.
    destruct (List.find _ _); [discriminate | reflexivity].
  - intros H. apply find_none_iff in H. now rewrite H.
  - now rewrite H.
  - unfold normalized_text. apply replace_keeps_absent; [reflexivity|].
    apply replace_removes. reflexivity.
  - unfold normalized_text. apply replace_removes. reflexivity.
  - eexists. reflexivity.
Qed.

(** ** File names *)

Lemma all_chars_replace (q : ascii -> bool) (old : ascii) (new s : string) :
  all_chars q new = true -> all_chars q s = true ->
  all_chars q (replace old new s) = true.
Proof.
  intros Hnew. induction s as [|c s IH]; simpl; [reflexivity|].
  intros H. apply andb_true_iff in H. destruct H as [Hc Hs].
  destruct (Ascii.eqb c old).
  - rewrite all_chars_app, Hnew, IH by assumption. reflexivity.
  - simpl. rewrite Hc, IH by assumption. reflexivity.
Qed.

Lemma all_chars_removed (q : ascii -> bool) (old : ascii) (s : string) :
  all_chars q s = true ->
  all_chars (fun c => q c && negb (Ascii.eqb c old))
            (replace old EmptyString s) = true.
Proof.
  induction s as [|c s IH]; simpl; [reflexivity|].
  intros H. apply andb_true_iff in H. destruct H as [Hc Hs].
  destruct (Ascii.eqb c old) eqn:E; simpl.
  - now apply IH.
  - rewrite Hc, E, IH by assumption. reflexivity.
Qed.

Lemma all_chars_filter (keep : ascii -> bool) (q : ascii -> bool) (s : string) :
  all_chars q s = true ->
  all_chars (fun c => keep c && q c) (filter_chars keep s) = true.
Proof.
  induction s as [|c s IH]; simpl; [reflexivity|].
  intros H. apply andb_true_iff in H. destruct H as [Hc Hs].
  destruct (keep c) eqn:E; simpl.
  - rewrite E, Hc, IH by assumption. reflexivity.
  - now apply IH.
Qed.

Lemma all_chars_lstrip (p q : ascii -> bool) (s : string) :
  all_chars q s = true -> all_chars q (lstrip p s) = true.
Proof.
  induction s as [|c s IH]; simpl; [reflexivity|].
  intros H. destruct (p c); [|exact H].
  apply andb_true_iff in H. now apply IH.
Qed.

Lemma all_chars_rstrip (p q : ascii -> bool) (s : string) :
  all_chars q s = true -> all_chars q (rstrip p s) = true.
Proof.
  induction s as [|c s IH]; simpl; [reflexivity|].
  intros H. apply andb_true_iff in H. destruct H as [Hc Hs].
  specialize (IH Hs). destruct (rstrip p s) as [|d r].
  - destruct (p c); simpl; [reflexivity | now rewrite Hc].
  - simpl in *. now rewrite Hc, IH.
Qed.

Lemma substring_drop (n : nat) (s : string) :
  substring 0 n s +++ drop n s = s.
Proof.
  revert s. induction n as [|n IH]; intros s.
  - destruct s; reflexivity.
  - destruct s as [|c s]; simpl; [reflexivity | now rewrite IH].
Qed.

Lemma splitext_app (p : string) :
  fst (splitext p) +++ snd (splitext p) = p.
Proof.
  unfold splitext. destruct (rfind "." p) as [dotIndex|]; simpl;
    [|apply append_empty_r].
  destruct (_ <=? dotIndex); simpl; [|apply append_empty_r].
  destruct (all_chars _ _); simpl; [apply append_empty_r|].
  apply substring_drop.
Qed.

(** The characters that may remain: printable and none of the invalid. *)
Definition safe_char (c : ascii) : bool :=
  mem_char c printable && negb (mem_char c invalid_chars).

Definition not_among (l : list ascii) (c : ascii) : bool :=
  negb (existsb (Ascii.eqb c) l).

Lemma fold_replace_removes (l : list ascii) :
  forall (done : list ascii) (s : string),
    all_chars (not_among done) s = true ->
    all_chars (not_among (done ++ l))
              (fold_left (fun f char => replace char EmptyString f) l s) = true.
Proof.
  induction l as [|ch l IH]; intros done s H; simpl.
  - now rewrite app_nil_r.
  - replace (done ++ ch :: l) with ((done ++ [ch]) ++ l)
      by (rewrite <- app_assoc; reflexivity).
    apply IH. eapply all_chars_weaken; [|apply all_chars_removed; exact H].
    intros c Hc. cbv beta in Hc. apply andb_true_iff in Hc.
    destruct Hc as [H1 H2]. unfold not_among in *. rewrite existsb_app. simpl.
    apply negb_true_iff in H1. apply negb_true_iff in H2.
    now rewrite H1, H2.
Qed.

Lemma not_among_invalid (c : ascii) :
  not_among (list_ascii_of_string invalid_chars) c
  = negb (mem_char c invalid_chars).
Proof.
  apply eqb_prop. revert c. apply ascii_forall. vm_compute. reflexivity.
Qed.

Lemma all_chars_true (s : string) : all_chars (fun _ => true) s = true.
Proof. induction s; simpl; auto. Qed.

Lemma safe_filename_chars (filename : string) :
  all_chars safe_char (safe_filename filename) = true.
Proof.
  unfold safe_filename.
  set (f1 := fold_left _ _ filename).
  assert (H1 : all_chars (not_among (list_ascii_of_string invalid_chars)) f1
               = true).
  { apply (fold_replace_removes _ [] filename).
    eapply all_chars_weaken; [|apply all_chars_true]. reflexivity. }
  set (f2 := filter_chars _ f1).
  assert (H2 : all_chars safe_char f2 = true).
  { eapply all_chars_weaken;
      [|apply (all_chars_filter (fun c => mem_char c printable)); exact H1].
    intros c Hc. cbv beta in Hc. apply andb_true_iff in Hc.
    destruct Hc as [Ha Hb]. unfold safe_char.
    now rewrite Ha, <- not_among_invalid, Hb. }
  set (f3 := replace "-" "_" (replace " " "_" f2)).
  assert (H3 : all_chars safe_char f3 = true).
  { unfold f3. repeat apply all_chars_replace; try reflexivity. exact H2. }
  set (f4 := if existsb _ reserved_names then _ else f3).
  assert (H4 : all_chars safe_char f4 = true).
  { unfold f4. destruct (existsb _ reserved_names); [|exact H3].
    destruct (mem_char "." f3).
    - pose proof (splitext_app f3) as E. destruct (splitext f3) as [name ext].
      simpl in E. rewrite <- E, all_chars_app in H3.
      apply andb_true_iff in H3. destruct H3 as [Hn He].
      rewrite !all_chars_app, Hn, He. reflexivity.
    - rewrite all_chars_app, H3. reflexivity. }
  set (f5 := strip_set _ f4).
  assert (H5 : all_chars safe_char f5 = true).
  { unfold f5, strip_set. apply all_chars_rstrip, all_chars_lstrip. exact H4. }
  destruct (is_empty f5); [reflexivity | exact H5].
Qed.

Lemma lstrip_head (p : ascii -> bool) (s : string) (c : ascii) :
  first_char (lstrip p s) = Some c -> p c = false.
Proof.
  induction s as [|d s IH]; simpl; [discriminate|].
  destruct (p d) eqn:E; [exact IH|]. simpl. intros H. injection H as <-.
  exact E.
Qed.

Lemma rstrip_head (p : ascii -> bool) (s : string) (c : ascii) :
  first_char (rstrip p s) = Some c -> first_char s = Some c.
Proof.
  destruct s as [|d s]; simpl; [discriminate|].
  destruct (rstrip p s); [destruct (p d)|]; simpl; congruence.
Qed.

Lemma rstrip_last (p : ascii -> bool) (s : string) (c : ascii) :
  last_char (rstrip p s) = Some c -> p c = false.
Proof.
  induction s as [|d s IH]; simpl; [discriminate|].
  destruct (rstrip p s) as [|e r] eqn:E.
  - destruct (p d) eqn:Ep; simpl; [discriminate|].
    intros H. injection H as <-. exact Ep.
  - intros H. apply IH. exact H.
Qed.

Definition tab : ascii := ascii_of_nat 9.

(** C8 on the code: a tab of the input stays in the file name, since
    [string.printable] holds the blanks [\t\n\r\x0b\x0c]; and a reserved
    name behind a leading dot comes out bare, since the dots are stripped
    after the reserved names were looked at. *)
Theorem safe_filename_keeps_tab_and_reserved_name :
  safe_filename ("a" +++ String tab "b") = "a" +++ String tab "b"
  /\ mem_char tab (safe_filename ("a" +++ String tab "b")) = true
  /\ mem_char tab printable = true
  /\ safe_filename ".CON" = "CON"
  /\ existsb (String.eqb (safe_filename ".CON")) reserved_names = true.
Proof. repeat split. Qed.

(** The part of C8 that holds.  The file name is never empty, holds none of
    the characters of [invalid_chars], neither begins nor ends with a space or a
    period, and is made of characters of [string.printable]. *)
Theorem safe_filename_legal (filename : string) :
  is_empty (safe_filename filename) = false
  /\ (forall c, mem_char c invalid_chars = true ->
                mem_char c (safe_filename filename) = false)
  /\ (forall c, first_char (safe_filename filename) = Some c ->
                mem_char c " ." = false)
  /\ (forall c, last_char (safe_filename filename) = Some c ->
                mem_char c " ." = false)
  /\ all_chars (fun c => mem_char c printable) (safe_filename filename) = true.
Proof.
  pose proof (safe_filename_chars filename) as Hsafe.
  repeat split.
  - unfold safe_filename.
    match goal with
    | |- is_empty (if is_empty ?x then _ else _) = _ =>
        destruct (is_empty x) eqn:E
    end; [reflexivity | exact E].
  - intros c Hc. destruct (mem_char c (safe_filename filename)) eqn:E;
      [|reflexivity].
    assert (H : safe_char c = true).
    { revert E. generalize (safe_filename filename) Hsafe.
      induction s as [|d s IH]; simpl; [discriminate|].
      intros H E. apply andb_true_iff in H. destruct H as [Hd Hs].
      apply orb_true_iff in E. destruct E as [E|E]; [|now apply IH].
      apply Ascii.eqb_eq in E. now subst. }
    unfold safe_char in H. rewrite Hc in H. now rewrite andb_false_r in H.
  - intros c. unfold safe_filename.
    match goal with
    | |- first_char (if is_empty ?x then _ else _) = _ -> _ =>
        destruct (is_empty x)
    end.
    + simpl. intros H. injection H as <-. reflexivity.
    + unfold strip_set. intros H. apply rstrip_head in H.
      apply lstrip_head in H. exact H.
  - intros c. unfold safe_filename.
    match goal with
    | |- last_char (if is_empty ?x then _ else _) = _ -> _ =>
        destruct (is_empty x)
    end.
    + simpl. intros H. injection H as <-. reflexivity.
    + unfold strip_set. apply rstrip_last.
  - eapply all_chars_weaken; [|exact Hsafe].
    intros c Hc. unfold safe_char in Hc. now apply andb_true_iff in Hc.
Qed.

(** ** Listings *)

Definition text_element (name : string) (classes : option (list string))
           (s : string) : node :=
  Element name classes [] [NavigableString s].

(** An entry of an arXiv listing: a [dt] with its links, then a [dd]. *)
Definition arxiv_dt (abs : string) : node :=
  Element "dt" None []
          [Element "a" None [("title", "Abstract"); ("href", abs)] []].

Definition arxiv_dd (title_ author : string) : node :=
  Element "dd" None []
          [text_element "div" (Some ["list-title"]) title_;
           Element "div" (Some ["list-authors"]) []
                   [text_element "a" None author]].

(** A listing with two dated sections, the first of which holds one entry. *)
Definition two_section_listing : tag :=
  soup_of
    [Element "dl" None [("id", "articles")]
             [text_element "h3" None "Fri, 5 Jan 2024";
              arxiv_dt "/abs/2401.00001";
              arxiv_dd "Title:A" "B"];
     Element "dl" None [("id", "articles")]
             [text_element "h3" None "Thu, 4 Jan 2024"]].

Definition arxiv_stub (date : string) : article :=
  mk_article (Some "A") (Some date) (Some "https://arxiv.org/abs/2401.00001")
             "https://arxiv.org/list/cs.AI/recent" "arxiv" ["B"] None None.

(** C7 on the code.  The entries are looked up in the whole document,
    [soup.find_all('dt')], inside the loop over the sections, where the
    section at hand only gives the date.  So every section emits the
    entries of the document again: with [max_articles_per_site = 1], a
    listing of two sections, of which the first holds the one entry and the
    second none, yields two stubs, of one url and two dates.  The count
    passes the cap, and the entry is filed under a date that is not its
    own. *)
Theorem search_arxiv_repeats_entries_for_each_section :
  search_arxiv 1 two_section_listing "https://arxiv.org/list/cs.AI/recent" []
  = Ok [arxiv_stub "2024-01-05"; arxiv_stub "2024-01-04"]
  /\ 1 < length [arxiv_stub "2024-01-05"; arxiv_stub "2024-01-04"]
  /\ url (arxiv_stub "2024-01-05") = url (arxiv_stub "2024-01-04")
  /\ publish_date (arxiv_stub "2024-01-05")
     <> publish_date (arxiv_stub "2024-01-04")
  /\ exists first second,
       find_all two_section_listing "dl" (ByAttr "id" "articles")
       = Ok [first; second]
       /\ length (tag_contents first) = 3
       /\ find_all second "dt" NoFilter = Ok [].
Proof.
  split; [reflexivity|]. split; [simpl; lia|]. split; [reflexivity|].
  split; [discriminate|]. eexists. eexists. repeat split.
Qed.

(** C1 on the code: when the container of the header article, or the
    container that holds the listing, is not in the page, the scrape of the
    site raises [AttributeError]. *)
Theorem missing_container_raises (max_articles_per_site : Z)
        (records : list row) (today : date) :
  scrape_site max_articles_per_site today records
              "https://www.perplexity.ai/hub" (soup_of [])
  = Raise AttributeError
  /\ scrape_site max_articles_per_site today records
                 "https://ai.meta.com/blog/" (soup_of [])
     = Raise AttributeError
  /\ scrape_site max_articles_per_site today records
                 "https://openai.com/news/" (soup_of [])
     = Raise AttributeError.
Proof. repeat split. Qed.

(** ** Regular expressions: what a match consumes *)

(** The characters a sequence, a group, a piece, a pattern can consume. *)
Definition seq_class (cs : list cclass) : cclass :=
  fun c => existsb (fun cl => cl c) cs.
Definition alts_class (alts : list (list cclass)) : cclass :=
  fun c => existsb (fun a => seq_class a c) alts.
Definition piece_class (p : piece) : cclass :=
  match p with
  | Group _ alts => alts_class alts
  | Spaces => is_space
  end.
Definition pieces_class (ps : list piece) : cclass :=
  fun c => existsb (fun p => piece_class p c) ps.

Lemma match_seq_inv (cs : list cclass) :
  forall s g rest,
    match_seq cs s = Some (g, rest) ->
    s = g +++ rest /\ all_chars (seq_class cs) g = true.
Proof.
  induction cs as [|p cs IH]; simpl; intros s g rest H.
  - injection H as <- <-. split; reflexivity.
  - destruct s as [|c r]; [discriminate|].
    destruct (p c) eqn:Ep; [|discriminate].
    destruct (match_seq cs r) as [[g' rest']|] eqn:E; [|discriminate].
    injection H as <- <-. destruct (IH _ _ _ E) as [-> Hall]. split.
    + reflexivity.
    + simpl. unfold seq_class at 1. simpl. rewrite Ep. simpl.
      eapply all_chars_weaken; [|exact Hall].
      intros d Hd. unfold seq_class in *. simpl. rewrite Hd. apply orb_true_r.
Qed.

Lemma match_alts_inv {A} (alts : list (list cclass)) (s : string)
      (k : string -> string -> option A) (r : A) :
  match_alts alts s k = Some r ->
  exists g rest,
    s = g +++ rest /\ all_chars (alts_class alts) g = true
    /\ k g rest = Some r.
Proof.
  induction alts as [|a alts IH]; simpl; [discriminate|].
  destruct (match_seq a s) as [[g rest]|] eqn:E.
  - destruct (k g rest) as [x|] eqn:Ek.
    + intros H. injection H as <-. exists g, rest.
      destruct (match_seq_inv _ _ _ _ E) as [-> Hall].
      repeat split; try assumption.
      eapply all_chars_weaken; [|exact Hall].
      intros c Hc. unfold alts_class. simpl. now rewrite Hc.
    + intros H. destruct (IH H) as [g' [rest' [H1 [H2 H3]]]].
      exists g', rest'. repeat split; try assumption.
      eapply all_chars_weaken; [|exact H2].
      intros c Hc. unfold alts_class in *. simpl. rewrite Hc.
      apply orb_true_r.
  - intros H. destruct (IH H) as [g' [rest' [H1 [H2 H3]]]].
    exists g', rest'. repeat split; try assumption.
    eapply all_chars_weaken; [|exact H2].
    intros c Hc. unfold alts_class in *. simpl. rewrite Hc. apply orb_true_r.
Qed.

Lemma match_spaces_star_inv {A} (k : string -> option A) (r : A) :
  forall s,
    match_spaces_star s k = Some r ->
    exists g rest,
      s = g +++ rest /\ all_chars is_space g = true /\ k rest = Some r.
Proof.
  induction s as [|c s IH]; simpl; intros H.
  - exists EmptyString, EmptyString. repeat split; assumption.
  - destruct (is_space c) eqn:Ec.
    + destruct (match_spaces_star s k) as [x|] eqn:E.
      * injection H as <-. destruct (IH eq_refl) as [g [rest [-> [H2 H3]]]].
        exists (String c g), rest. simpl. rewrite Ec, H2. now repeat split.
      * exists EmptyString, (String c s). now repeat split.
    + exists EmptyString, (String c s). now repeat split.
Qed.

Lemma match_spaces_inv {A} (k : string -> option A) (r : A) (s : string) :
  match_spaces s k = Some r ->
  exists g rest,
    s = g +++ rest /\ all_chars is_space g = true /\ k rest = Some r.
Proof.
  unfold match_spaces. destruct s as [|c s]; [discriminate|].
  destruct (is_space c) eqn:Ec; [|discriminate]. intros H.
  destruct (match_spaces_star_inv _ _ _ H) as [g [rest [-> [H2 H3]]]].
  exists (String c g), rest. simpl. rewrite Ec, H2. now repeat split.
Qed.

(** A match of a pattern consumes a prefix made of characters of its
    pieces. *)
Lemma match_pieces_inv (ps : list piece) :
  forall s found found' rest,
    match_pieces ps s found = Some (found', rest) ->
    exists g, s = g +++ rest /\ all_chars (pieces_class ps) g = true.
Proof.
  induction ps as [|p ps IH]; simpl; intros s found found' rest H.
  - injection H as _ <-. exists EmptyString. now split.
  - assert (Hmono : forall b, all_chars (pieces_class ps) b = true ->
                              all_chars (pieces_class (p :: ps)) b = true).
    { intros b. apply all_chars_weaken. intros c Hc.
      unfold pieces_class in *. simpl. rewrite Hc. apply orb_true_r. }
    assert (Hhead : forall b, all_chars (piece_class p) b = true ->
                              all_chars (pieces_class (p :: ps)) b = true).
    { intros b. apply all_chars_weaken. intros c Hc.
      unfold pieces_class. simpl. now rewrite Hc. }
    destruct p as [name alts|].
    + apply match_alts_inv in H. destruct H as [g [r [-> [H2 H3]]]].
      destruct (IH _ _ _ _ H3) as [g' [-> H4]].
      exists (g +++ g'). rewrite append_assoc. split; [reflexivity|].
      rewrite all_chars_app, (Hhead g), (Hmono g') by assumption. reflexivity.
    + apply match_spaces_inv in H. destruct H as [g [r [-> [H2 H3]]]].
      destruct (IH _ _ _ _ H3) as [g' [-> H4]].
      exists (g +++ g'). rewrite append_assoc. split; [reflexivity|].
      rewrite all_chars_app, (Hhead g), (Hmono g') by assumption. reflexivity.
Qed.

(** The same, with the part the first piece consumed set apart. *)
Lemma match_pieces_head (p : piece) (ps : list piece) (s : string)
      (found found' : groups) (rest : string) :
  match_pieces (p :: ps) s found = Some (found', rest) ->
  exists a b,
    s = a +++ b +++ rest
    /\ all_chars (piece_class p) a = true
    /\ all_chars (pieces_class ps) b = true.
Proof.
  simpl. intros H. destruct p as [name alts|].
  - apply match_alts_inv in H. destruct H as [g [r [-> [H2 H3]]]].
    destruct (match_pieces_inv _ _ _ _ _ H3) as [g' [-> H4]].
    exists g, g'. now repeat split.
  - apply match_spaces_inv in H. destruct H as [g [r [-> [H2 H3]]]].
    destruct (match_pieces_inv _ _ _ _ _ H3) as [g' [-> H4]].
    exists g, g'. now repeat split.
Qed.

(** ** Day numbers *)

Section DayNumbers.

#[local] Open Scope Z_scope.

Lemma is_leap_cycle (q400 q100 q4 q1 : Z) :
  0 <= q400 -> 0 <= q100 <= 3 -> 0 <= q4 <= 24 -> 0 <= q1 <= 3 ->
  is_leap (q400 * 400 + 1 + q100 * 100 + q4 * 4 + q1)
  = (q1 =? 3) && (negb (q4 =? 24) || (q100 =? 3)).
Proof.
  intros H400 H100 H4 H1. unfold is_leap.
  set (y := q400 * 400 + 1 + q100 * 100 + q4 * 4 + q1).
  assert (E4 : y mod 4 = (q1 + 1) mod 4).
  { unfold y. replace (q400 * 400 + 1 + q100 * 100 + q4 * 4 + q1)
      with ((q1 + 1) + (q400 * 100 + q100 * 25 + q4) * 4) by ring.
    apply Z.mod_add. lia. }
  assert (E100 : y mod 100 = (q4 * 4 + q1 + 1) mod 100).
  { unfold y. replace (q400 * 400 + 1 + q100 * 100 + q4 * 4 + q1)
      with ((q4 * 4 + q1 + 1) + (q400 * 4 + q100) * 100) by ring.
    apply Z.mod_add. lia. }
  assert (E400 : y mod 400 = (q100 * 100 + q4 * 4 + q1 + 1) mod 400).
  { unfold y. replace (q400 * 400 + 1 + q100 * 100 + q4 * 4 + q1)
      with ((q100 * 100 + q4 * 4 + q1 + 1) + q400 * 400) by ring.
    apply Z.mod_add. lia. }
  rewrite E4, E100, E400.
  destruct (Z.eqb_spec q1 3) as [->|N1].
  - destruct (Z.eqb_spec q4 24) as [->|N4].
    + destruct (Z.eqb_spec q100 3) as [->|N100]; simpl.
      * reflexivity.
      * assert (q100 = 0 \/ q100 = 1 \/ q100 = 2) as [->|[->| ->]] by lia;
          reflexivity.
    + simpl. rewrite Z.mod_small with (a := q4 * 4 + 3 + 1) by lia.
      destruct (Z.eqb_spec (q4 * 4 + 3 + 1) 0); [lia|]. reflexivity.
  - simpl. rewrite Z.mod_small by lia.
    destruct (Z.eqb_spec (q1 + 1) 0); [lia|].
    assert (q1 = 0 \/ q1 = 1 \/ q1 = 2) as [->|[->| ->]] by lia; reflexivity.
Qed.

Lemma days_before_year_cycle (q400 q100 q4 q1 : Z) :
  0 <= q100 <= 3 -> 0 <= q4 <= 24 -> 0 <= q1 <= 3 ->
  days_before_year (q400 * 400 + 1 + q100 * 100 + q4 * 4 + q1)
  = 146097 * q400 + 36524 * q100 + 1461 * q4 + 365 * q1.
Proof.
  intros H100 H4 H1. unfold days_before_year.
  replace (q400 * 400 + 1 + q100 * 100 + q4 * 4 + q1 - 1)
    with (q400 * 400 + q100 * 100 + q4 * 4 + q1) by ring.
  Z.div_mod_to_equations. lia.
Qed.

Lemma month_step (m : Z) (leap : bool) :
  2 <= m <= 12 ->
  DAYS_BEFORE_MONTH m + (if (2 <? m) && leap then 1 else 0)
  - (nth (Z.to_nat (m - 1)) [0; 31; 28; 31; 30; 31; 30; 31; 31; 30; 31; 30; 31] 0
     + (if (m - 1 =? 2) && leap then 1 else 0))
  = DAYS_BEFORE_MONTH (m - 1) + (if (2 <? m - 1) && leap then 1 else 0).
Proof.
  intros Hm.
  assert (m = 2 \/ m = 3 \/ m = 4 \/ m = 5 \/ m = 6 \/ m = 7 \/ m = 8 \/ m = 9
          \/ m = 10 \/ m = 11 \/ m = 12) as H by lia.
  destruct leap;
    repeat (destruct H as [->|H]; [reflexivity|]); subst; reflexivity.
Qed.

(** [fromordinal n] is the date whose day number is [n]. *)
Lemma toordinal_fromordinal (n : Z) : 1 <= n -> toordinal (fromordinal n) = n.
Proof.
  intros Hn. unfold fromordinal. cbv zeta.
  unfold DI400Y, DI100Y, DI4Y.
  set (n0 := n - 1).
  pose proof (Z.div_mod n0 146097 ltac:(lia)) as E400.
  pose proof (Z.mod_pos_bound n0 146097 ltac:(lia)) as B400.
  set (q400 := n0 / 146097) in *. set (r400 := n0 mod 146097) in *.
  pose proof (Z.div_mod r400 36524 ltac:(lia)) as E100.
  pose proof (Z.mod_pos_bound r400 36524 ltac:(lia)) as B100.
  set (q100 := r400 / 36524) in *. set (r100 := r400 mod 36524) in *.
  pose proof (Z.div_mod r100 1461 ltac:(lia)) as E4.
  pose proof (Z.mod_pos_bound r100 1461 ltac:(lia)) as B4.
  set (q4 := r100 / 1461) in *. set (r4 := r100 mod 1461) in *.
  pose proof (Z.div_mod r4 365 ltac:(lia)) as E1.
  pose proof (Z.mod_pos_bound r4 365 ltac:(lia)) as B1.
  set (q1 := r4 / 365) in *. set (r1 := r4 mod 365) in *.
  assert (H0 : 0 <= n0) by (unfold n0; lia).
  assert (Hq400 : 0 <= q400) by (unfold q400; apply Z.div_pos; lia).
  assert (En : n = n0 + 1) by (unfold n0; lia).
  clearbody q1 r1 q4 r4 q100 r100 q400 r400 n0.
  assert (Hq100 : 0 <= q100 <= 4) by lia.
  assert (Hq4 : 0 <= q4 <= 24) by lia.
  assert (Hq1 : 0 <= q1 <= 4) by lia.
  destruct ((q1 =? 4) || (q100 =? 4)) eqn:Elast.
  - unfold toordinal. cbn [year month day].
    apply orb_true_iff in Elast. destruct Elast as [Eq|Eq];
      apply Z.eqb_eq in Eq.
    + assert (q4 <= 23) by lia. assert (q100 <= 3) by lia.
      replace (q400 * 400 + 1 + q100 * 100 + q4 * 4 + q1 - 1)
        with (q400 * 400 + 1 + q100 * 100 + q4 * 4 + 3) by lia.
      unfold days_before_month.
      rewrite is_leap_cycle, days_before_year_cycle by lia.
      replace (3 =? 3) with true by reflexivity.
      destruct (Z.eqb_spec q4 24); [lia|].
      change (DAYS_BEFORE_MONTH 12) with 334. change (2 <? 12) with true.
      cbn [andb orb negb]. lia.
    + assert (q4 = 0 /\ q1 = 0) as [Eq4 Eq1] by lia.
      replace (q400 * 400 + 1 + q100 * 100 + q4 * 4 + q1 - 1)
        with (q400 * 400 + 1 + 3 * 100 + 24 * 4 + 3) by lia.
      unfold days_before_month.
      rewrite is_leap_cycle, days_before_year_cycle by lia.
      change (DAYS_BEFORE_MONTH 12) with 334. change (2 <? 12) with true.
      change ((3 =? 3) && (negb (24 =? 24) || (3 =? 3))) with true.
      cbn [andb]. lia.
  - apply orb_false_iff in Elast. destruct Elast as [N1 N100].
    apply Z.eqb_neq in N1, N100.
    set (leapyear := (q1 =? 3) && (negb (q4 =? 24) || (q100 =? 3))).
    rewrite Z.shiftr_div_pow2 by lia. change (2 ^ 5) with 32.
    pose proof (Z.div_mod (r1 + 50) 32 ltac:(lia)) as Em.
    pose proof (Z.mod_pos_bound (r1 + 50) 32 ltac:(lia)) as Bm.
    set (m := (r1 + 50) / 32) in *. clearbody m.
    assert (Hm : 1 <= m <= 12) by lia.
    set (y := q400 * 400 + 1 + q100 * 100 + q4 * 4 + q1).
    assert (Hleap : is_leap y = leapyear).
    { unfold y, leapyear. apply is_leap_cycle; lia. }
    assert (Hdby : days_before_year y + r1 + 1 = n).
    { unfold y. rewrite days_before_year_cycle by lia. lia. }
    destruct (r1 <? DAYS_BEFORE_MONTH m + (if (2 <? m) && leapyear then 1 else 0))
      eqn:Elt.
    + unfold toordinal. cbn [year month day]. unfold days_before_month.
      rewrite Hleap.
      assert (2 <= m).
      { destruct (Z.eq_dec m 1) as [->|]; [|lia].
        simpl in Elt. apply Z.ltb_lt in Elt. lia. }
      rewrite month_step by lia. lia.
    + unfold toordinal. cbn [year month day]. unfold days_before_month.
      rewrite Hleap. lia.
Qed.

End DayNumbers.

(** ** The date of a visible text *)

(** A digit with the letter [g] somewhere behind it. *)
Fixpoint digit_then_g (s : string) : bool :=
  match s with
  | EmptyString => false
  | String c r => (is_digit c && mem_char "g" r) || digit_then_g r
  end.

Lemma span_digits_app (s : string) :
  fst (span_digits s) +++ snd (span_digits s) = s.
Proof.
  induction s as [|c s IH]; simpl; [reflexivity|].
  destruct (is_digit c); [|reflexivity].
  destruct (span_digits s) as [d rest]. simpl in *. now rewrite IH.
Qed.

Lemma giorni_fa_here_digit_then_g (s m : string) :
  giorni_fa_here s = Some m -> digit_then_g s = true.
Proof.
  unfold giorni_fa_here. pose proof (span_digits_app s) as Happ.
  destruct s as [|c s]; simpl in *; [discriminate|].
  destruct (is_digit c) eqn:Ec; [|discriminate].
  destruct (span_digits s) as [d rest]. simpl in *.
  destruct (startswith rest " giorni fa") eqn:Ep; [|discriminate].
  intros _. injection Happ as <-.
  rewrite mem_char_app.
  assert (Hg : mem_char "g" rest = true).
  { destruct rest as [|c1 [|c2 rest]]; simpl in Ep; try discriminate.
    - now rewrite andb_false_r in Ep.
    - apply andb_true_iff in Ep. destruct Ep as [_ Ep].
      apply andb_true_iff in Ep. destruct Ep as [Ep _].
      simpl. rewrite Ep. apply orb_true_r. }
  rewrite Hg, orb_true_r. reflexivity.
Qed.

Lemma search_giorni_fa_digit_then_g (s m : string) :
  search_giorni_fa s = Some m -> digit_then_g s = true.
Proof.
  induction s as [|c s IH].
  - simpl. discriminate.
  - cbn [search_giorni_fa].
    destruct (giorni_fa_here (String c s)) as [x|] eqn:E.
    + intros _. eapply giorni_fa_here_digit_then_g. exact E.
    + intros H. simpl. rewrite (IH H). apply orb_true_r.
Qed.

Lemma no_g_no_digit_then_g (s : string) :
  mem_char "g" s = false -> digit_then_g s = false.
Proof.
  induction s as [|c s IH]; simpl; [reflexivity|].
  intros H. apply orb_false_iff in H. destruct H as [_ H].
  rewrite H, IH by assumption. now rewrite andb_false_r.
Qed.

Lemma digit_then_g_app (a b : string) :
  all_chars (fun c => negb (is_digit c)) a = true ->
  mem_char "g" b = false ->
  digit_then_g (a +++ b) = false.
Proof.
  intros Ha Hb. induction a as [|c a IH]; simpl in *.
  - now apply no_g_no_digit_then_g.
  - apply andb_true_iff in Ha. destruct Ha as [Hc Ha].
    apply negb_true_iff in Hc. rewrite Hc, IH by assumption. reflexivity.
Qed.

Lemma all_chars_not_g (s : string) :
  all_chars (fun c => negb (Ascii.eqb "g" c)) s = true ->
  mem_char "g" s = false.
Proof.
  induction s as [|c s IH]; simpl; [reflexivity|].
  intros H. apply andb_true_iff in H. destruct H as [Hc H].
  apply negb_true_iff in Hc. now rewrite Hc, IH.
Qed.

Lemma truthy_false (s : string) : truthy s = false -> s = EmptyString.
Proof. destruct s; [reflexivity | discriminate]. Qed.

(** What [strptime] accepted, read off its pattern: the text is made of a
    part consumed by the first piece and a part consumed by the others. *)
Lemma strptime_Ok_split (s fmt : string) (d : date) (p : piece)
      (ps : list piece) :
  pattern fmt = Some (p :: ps) ->
  strptime s fmt = Ok d ->
  exists a b,
    s = a +++ b
    /\ all_chars (piece_class p) a = true
    /\ all_chars (pieces_class ps) b = true.
Proof.
  unfold strptime. intros ->.
  destruct (match_pieces (p :: ps) s []) as [[found rest]|] eqn:E;
    [|discriminate].
  destruct (truthy rest) eqn:Et; [discriminate|]. intros _.
  apply truthy_false in Et. subst rest.
  apply match_pieces_head in E. destruct E as [a [b [-> [H1 H2]]]].
  exists a, b. now rewrite append_empty_r.
Qed.

Lemma strptime_raises_ValueError (s fmt : string) (e : exn) :
  strptime s fmt = Raise e -> e = ValueError.
Proof.
  unfold strptime. destruct (pattern fmt); [|congruence].
  destruct (match_pieces _ _ _) as [[found rest]|]; [|congruence].
  destruct (truthy rest); [congruence|].
  destruct (convert found None 1 1) as [[y m] dd].
  destruct (valid_date _ _ _); congruence.
Qed.

(** In each of the four formats, the first piece takes no digit or no [g]
    at all, and the pieces behind it take no [g]. *)
Definition format_shape_ok (fmt : string) : bool :=
  match pattern fmt with
  | Some (p :: ps) =>
      (forallb (fun c => implb (piece_class p c) (negb (is_digit c))) all_ascii
       || forallb (fun c => implb (piece_class p c) (negb (Ascii.eqb "g" c)))
                  all_ascii)
      && forallb (fun c => implb (pieces_class ps c) (negb (Ascii.eqb "g" c)))
                 all_ascii
  | _ => false
  end.

Lemma formats_shape_ok : forallb format_shape_ok formats = true.
Proof. vm_compute. reflexivity. Qed.

(** A text one of the explicit formats parses holds no ["<N> giorni fa"]. *)
Lemma explicit_excludes_relative (s fmt : string) (d : date) :
  In fmt formats -> strptime s fmt = Ok d -> search_giorni_fa s = None.
Proof.
  intros Hin Hok.
  pose proof formats_shape_ok as Hshape. rewrite forallb_forall in Hshape.
  specialize (Hshape fmt Hin). unfold format_shape_ok in Hshape.
  destruct (pattern fmt) as [[|p ps]|] eqn:Ep; try discriminate.
  apply andb_true_iff in Hshape. destruct Hshape as [Hp Hps].
  destruct (strptime_Ok_split _ _ _ _ _ Ep Hok) as [a [b [-> [Ha Hb]]]].
  assert (Hb' : mem_char "g" b = false).
  { apply all_chars_not_g. eapply all_chars_weaken; [|exact Hb].
    intros c Hc. pose proof (ascii_forall _ Hps c) as H.
    simpl in H. now rewrite Hc in H. }
  destruct (search_giorni_fa (a +++ b)) as [m|] eqn:Es; [|reflexivity].
  apply search_giorni_fa_digit_then_g in Es.
  apply orb_true_iff in Hp. destruct Hp as [Hp|Hp].
  - rewrite digit_then_g_app in Es; [discriminate| |assumption].
    eapply all_chars_weaken; [|exact Ha].
    intros c Hc. pose proof (ascii_forall _ Hp c) as H.
    simpl in H. now rewrite Hc in H.
  - rewrite no_g_no_digit_then_g in Es; [discriminate|].
    rewrite mem_char_app, Hb', orb_false_r.
    apply all_chars_not_g. eapply all_chars_weaken; [|exact Ha].
    intros c Hc. pose proof (ascii_forall _ Hp c) as H.
    simpl in H. now rewrite Hc in H.
Qed.

(** The claim's reading of the date of a text.  The explicit formats in
    order, the first that parses wins... *)
Fixpoint first_parse (s : string) (fmts : list string) : option date :=
  match fmts with
  | [] => None
  | fmt :: rest =>
      match strptime s fmt with
      | Ok d => Some d
      | Raise _ => first_parse s rest
      end
  end.

(** ... the number [N] of the first ["<N> giorni fa"] in the text... *)
Definition relative_days (s : string) : option string :=
  option_map search_digits (search_giorni_fa s).

(** ... and the date: the explicit one, else today minus [N] days, else
    [None]. *)
Definition date_of_text (today : date) (s : string) : option string :=
  match first_parse s formats with
  | Some d => Some (strftime_iso d)
  | None =>
      match relative_days s with
      | Some ds =>
          Some (strftime_iso (fromordinal (toordinal today - py_int ds)))
      | None => None
      end
  end.

Lemma int_acc_nonneg (s : string) :
  forall acc, (0 <= acc)%Z -> (0 <= int_acc acc s)%Z.
Proof.
  induction s as [|c s IH]; cbn [int_acc]; intros acc H; [assumption|].
  apply IH. unfold digit_value. lia.
Qed.

Lemma py_int_nonneg (s : string) : (0 <= py_int s)%Z.
Proof. unfold py_int. apply int_acc_nonneg. lia. Qed.

Lemma first_parse_cons (s f : string) (fmts : list string) :
  first_parse s (f :: fmts)
  = match strptime s f with
    | Ok d => Some d
    | Raise _ => first_parse s fmts
    end.
Proof. reflexivity. Qed.

Lemma parse_date_text_cons (today : date) (s f : string) (fmts : list string) :
  parse_date_text today s (f :: fmts)
  = match strptime s f with
    | Ok d => Ok (Some (strftime_iso d))
    | Raise ValueError =>
        match search_giorni_fa s with
        | Some days_str =>
            days <- int_of_digits (search_digits days_str) ;;
            d <- minus_days today days ;;
            Ok (Some (strftime_iso d))
        | None => parse_date_text today s fmts
        end
    | Raise e => Raise e
    end.
Proof. reflexivity. Qed.

Lemma zero_padded_length (width : nat) :
  forall (n : Z) (acc : string),
    String.length (zero_padded width n acc) = width + String.length acc.
Proof.
  induction width as [|w IH]; intros n acc; simpl; [reflexivity|].
  rewrite IH. simpl. lia.
Qed.

Lemma length_append (a b : string) :
  String.length (a +++ b) = String.length a + String.length b.
Proof. induction a as [|c a IH]; simpl; [reflexivity | now rewrite IH]. Qed.

Lemma strftime_iso_length (d : date) :
  String.length (strftime_iso d) = year_digits (year d) + 6.
Proof.
  unfold strftime_iso. rewrite !length_append, !zero_padded_length.
  simpl. lia.
Qed.

Section DateProperties.

Variable today : date.
Variable s : string.

Hypothesis today_in_range : (toordinal today <= MAXORDINAL)%Z.

(** When the text holds ["<N> giorni fa"], [N] is written with at most
    4300 digits and today minus [N] days is a date. *)
Hypothesis relative_in_range :
  forall ds, relative_days s = Some ds ->
             String.length ds <= 4300 /\ (py_int ds < toordinal today)%Z.

Lemma relative_branch (m : string) :
  search_giorni_fa s = Some m ->
  (days <- int_of_digits (search_digits m) ;;
   d <- minus_days today days ;;
   Ok (Some (strftime_iso d)))
  = Ok (Some (strftime_iso
                (fromordinal (toordinal today - py_int (search_digits m))))).
Proof.
  intros Hm.
  destruct (relative_in_range (search_digits m)) as [Hlen Hlt].
  { unfold relative_days. now rewrite Hm. }
  unfold int_of_digits.
  destruct (4300 <? String.length (search_digits m)) eqn:E.
  { apply Nat.ltb_lt in E. lia. }
  simpl. unfold minus_days.
  pose proof (py_int_nonneg (search_digits m)) as H0.
  unfold MAXORDINAL in *.
  destruct (999999999 <? py_int (search_digits m))%Z eqn:E1.
  { apply Z.ltb_lt in E1. lia. }
  destruct ((0 <? toordinal today - py_int (search_digits m))%Z
            && (toordinal today - py_int (search_digits m) <=? 3652059)%Z)
    eqn:E2; [reflexivity|].
  apply andb_false_iff in E2. destruct E2 as [E2|E2].
  - apply Z.ltb_ge in E2. lia.
  - apply Z.leb_gt in E2. lia.
Qed.

Lemma first_parse_None_of_relative (m : string) (fmts : list string) :
  (forall f, In f fmts -> In f formats) ->
  search_giorni_fa s = Some m -> first_parse s fmts = None.
Proof.
  intros Hsub Hm. induction fmts as [|f fmts IH]; simpl; [reflexivity|].
  destruct (strptime s f) as [d|e] eqn:E.
  - rewrite (explicit_excludes_relative s f d) in Hm; [discriminate| |exact E].
    apply Hsub. now left.
  - apply IH. intros g Hg. apply Hsub. now right.
Qed.

Lemma parse_date_text_loop (f : string) (fmts : list string) :
  (forall g, In g (f :: fmts) -> In g formats) ->
  parse_date_text today s (f :: fmts)
  = Ok (match first_parse s (f :: fmts) with
        | Some d => Some (strftime_iso d)
        | None =>
            match relative_days s with
            | Some ds =>
                Some (strftime_iso
                        (fromordinal (toordinal today - py_int ds)))
            | None => None
            end
        end).
Proof.
  revert f. induction fmts as [|f' fmts IH]; intros f Hsub.
  - simpl. destruct (strptime s f) as [d|e] eqn:E; [reflexivity|].
    rewrite (strptime_raises_ValueError _ _ _ E).
    unfold relative_days.
    destruct (search_giorni_fa s) as [m|] eqn:Em; [|reflexivity].
    simpl. now apply relative_branch.
  - rewrite parse_date_text_cons, first_parse_cons.
    destruct (strptime s f) as [d|e] eqn:E; [reflexivity|].
    rewrite (strptime_raises_ValueError _ _ _ E).
    destruct (search_giorni_fa s) as [m|] eqn:Em.
    + rewrite (first_parse_None_of_relative m (f' :: fmts));
        [|intros g Hg; apply Hsub; now right|assumption].
      unfold relative_days. rewrite Em. simpl. now apply relative_branch.
    + apply IH. intros g Hg. apply Hsub. now right.
Qed.

(** C6, amended.  The date of a visible text is the one the claim gives:
    the explicit formats are tried in the order long month, abbreviated
    month, dots, slashes, and the first that parses gives the date; when
    none parses and the text holds ["<N> giorni fa"], the date is today
    minus [N] days, the date whose day number is that of today less [N];
    otherwise it is [None].  Nothing is raised, provided that [N] has at
    most 4300 digits and today minus [N] days is a date.  A date is written
    as [strftime] writes it, which is the ten characters of [YYYY-MM-DD]
    exactly for the years from 1000 on: an earlier year is written without
    leading zeros. *)
Theorem parse_date_text_fallback_order :
  parse_date_text today s formats = Ok (date_of_text today s)
  /\ (forall ds, relative_days s = Some ds ->
                 toordinal (fromordinal (toordinal today - py_int ds))
                 = (toordinal today - py_int ds)%Z)
  /\ (forall d, String.length (strftime_iso d) = 10 <-> (1000 <= year d)%Z).
Proof.
  split; [|split].
  - unfold date_of_text, formats. apply parse_date_text_loop.
    intros g Hg. exact Hg.
  - intros ds Hds. apply toordinal_fromordinal.
    destruct (relative_in_range ds Hds) as [_ Hlt]. lia.
  - intros d. rewrite strftime_iso_length. unfold year_digits.
    destruct (year d <? 10)%Z eqn:E1; [apply Z.ltb_lt in E1; lia|].
    destruct (year d <? 100)%Z eqn:E2; [apply Z.ltb_lt in E2; lia|].
    destruct (year d <? 1000)%Z eqn:E3;
      [apply Z.ltb_lt in E3 | apply Z.ltb_ge in E3]; lia.
Qed.

End DateProperties.

(** C6, as the claim states it, fails: for a number of days that leads
    before the first date, [OverflowError] is raised; and a date of a year
    below 1000 is not written as [YYYY-MM-DD]. *)
Lemma parse_date_text_overflow_counterexample :
  parse_date_text (mk_date 2024 1 5) "999999999 giorni fa" formats
  = Raise OverflowError
  /\ first_parse "999999999 giorni fa" formats = None
  /\ relative_days "999999999 giorni fa" = Some "999999999"
  /\ parse_date_text (mk_date 2024 1 5) "January 5, 0999" formats
     = Ok (Some "999-01-05")
  /\ parse_date_text (mk_date 2024 1 5) "400000 giorni fa" formats
     = Ok (Some "928-11-06").
Proof. vm_compute. repeat split. Qed.

(** Witnesses of [parse_date_text_fallback_order]: the texts of the claim,
    read on the 10th of January 2024. *)
Lemma parse_date_text_fallback_order_witness :
  (parse_date_text (mk_date 2024 1 10) "January 5, 2024" formats
   = Ok (date_of_text (mk_date 2024 1 10) "January 5, 2024")
   /\ date_of_text (mk_date 2024 1 10) "January 5, 2024" = Some "2024-01-05")
  /\ (parse_date_text (mk_date 2024 1 10) "5 giorni fa" formats
      = Ok (date_of_text (mk_date 2024 1 10) "5 giorni fa")
      /\ date_of_text (mk_date 2024 1 10) "5 giorni fa" = Some "2024-01-05")
  /\ (parse_date_text (mk_date 2024 1 10) "ieri" formats
      = Ok (date_of_text (mk_date 2024 1 10) "ieri")
      /\ date_of_text (mk_date 2024 1 10) "ieri" = None).
Proof.
  split; [|split]; (split; [|reflexivity]).
  - refine (proj1 (parse_date_text_fallback_order (mk_date 2024 1 10)
                     "January 5, 2024" _ _)).
    + vm_compute. discriminate.
    + intros ds H. vm_compute in H. discriminate.
  - refine (proj1 (parse_date_text_fallback_order (mk_date 2024 1 10)
                     "5 giorni fa" _ _)).
    + vm_compute. discriminate.
    + intros ds H. vm_compute in H. injection H as <-.
      split; [simpl; lia | reflexivity].
  - refine (proj1 (parse_date_text_fallback_order (mk_date 2024 1 10)
                     "ieri" _ _)).
    + vm_compute. discriminate.
    + intros ds H. vm_compute in H. discriminate.
Defined.

(** ** Discovery against the store *)

(** Two runs of an extractor over one document, against the stores [r1] and
    [r2] (and on any two days): a stub of the second run is not known to
    [r2], and unless [r1] knew its url the first run found a stub of that
    url too. *)
Definition agree (r1 r2 : list row) (R1 R2 : result (list article)) : Prop :=
  forall l1 l2, R1 = Ok l1 -> R2 = Ok l2 ->
    forall a2, In a2 l2 ->
      is_article_already_fetched r2 (url a2) = false
      /\ (is_article_already_fetched r1 (url a2) = false ->
          exists a1, In a1 l1 /\ url a1 = url a2).

Section Agree.

Variables r1 r2 : list row.

Lemma agree_nil : agree r1 r2 (Ok []) (Ok []).
Proof. intros l1 l2 _ H2 a2 Hin. injection H2 as <-. contradiction. Qed.

Lemma agree_raise (e : exn) (R : result (list article)) :
  agree r1 r2 (Raise e) R /\ agree r1 r2 R (Raise e).
Proof. split; intros l1 l2 H1 H2; discriminate. Qed.

Lemma agree_bind {A} (G1 G2 : result A) (K1 K2 : A -> result (list article)) :
  (forall x y, G1 = Ok x -> G2 = Ok y -> agree r1 r2 (K1 x) (K2 y)) ->
  agree r1 r2 (bind G1 K1) (bind G2 K2).
Proof.
  intros H l1 l2 H1 H2. inv_bind H1. inv_bind H2.
  exact (H _ _ Ha Ha0 l1 l2 H1 H2).
Qed.

Lemma agree_bind_same {A} (G : result A) (K1 K2 : A -> result (list article)) :
  (forall x, agree r1 r2 (K1 x) (K2 x)) ->
  agree r1 r2 (bind G K1) (bind G K2).
Proof.
  intros H. apply agree_bind. intros x y Hx Hy.
  rewrite Hx in Hy. injection Hy as <-. apply H.
Qed.

Lemma agree_app (A1 A2 B1 B2 : result (list article)) :
  agree r1 r2 A1 A2 -> agree r1 r2 B1 B2 ->
  agree r1 r2 (a <- A1 ;; b <- B1 ;; Ok (a ++ b))
              (a <- A2 ;; b <- B2 ;; Ok (a ++ b)).
Proof.
  intros HA HB l1 l2 H1 H2. inv_bind H1. inv_bind H1. inv_bind H2. inv_bind H2.
  injection H1 as <-. injection H2 as <-. intros art Hin.
  apply in_app_iff in Hin. destruct Hin as [Hin|Hin].
  - destruct (HA _ _ Ha Ha1 art Hin) as [Hk Hf]. split; [assumption|].
    intros Hn. destruct (Hf Hn) as [art1 [Hart1 Hu]].
    exists art1. split; [apply in_app_iff; now left | assumption].
  - destruct (HB _ _ Ha0 Ha2 art Hin) as [Hk Hf]. split; [assumption|].
    intros Hn. destruct (Hf Hn) as [art1 [Hart1 Hu]].
    exists art1. split; [apply in_app_iff; now right | assumption].
Qed.

Lemma agree_for_each {A} (b1 b2 : A -> result (list article)) (l : list A) :
  (forall x, agree r1 r2 (b1 x) (b2 x)) ->
  agree r1 r2 (for_each b1 l) (for_each b2 l).
Proof.
  intros Hb. induction l as [|x l IH]; simpl.
  - apply agree_nil.
  - apply agree_app; [apply Hb | exact IH].
Qed.

(** The test that ends every extraction: the stub is kept unless the store
    knows its url. *)
Lemma agree_filter (s1 s2 : article) :
  url s1 = url s2 ->
  agree r1 r2
        (if negb (is_article_already_fetched r1 (url s1)) then Ok [s1] else Ok [])
        (if negb (is_article_already_fetched r2 (url s2)) then Ok [s2] else Ok []).
Proof.
  intros Hu l1 l2 H1 H2 a2 Hin.
  destruct (is_article_already_fetched r2 (url s2)) eqn:E2; simpl in H2;
    injection H2 as <-; [contradiction|].
  destruct Hin as [<-|[]]. split; [assumption|].
  rewrite <- Hu. intros Hn. rewrite Hn in H1. simpl in H1.
  injection H1 as <-. exists s1. split; [now left | reflexivity].
Qed.

End Agree.

Section DiscoveryProperties.

Variable max_articles_per_site : Z.
Variable websites : list string.
Variable render : string -> option tag.
Variables today1 today2 : date.
Variables r1 r2 : list row.

Lemma extract_article_agree (source_url : string) (r : rule) (article_tag : tag) :
  agree r1 r2 (extract_article today1 r1 source_url r article_tag)
              (extract_article today2 r2 source_url r article_tag).
Proof.
  unfold extract_article. apply agree_bind_same. intros [link_url|].
  - apply agree_bind_same. intros title_. apply agree_bind. intros d1 d2 _ _.
    apply (agree_filter r1 r2
             (mk_article title_ d1 (Some (normalize_url source_url link_url))
                         source_url (source_ r) [] None None)
             (mk_article title_ d2 (Some (normalize_url source_url link_url))
                         source_url (source_ r) [] None None)).
    reflexivity.
  - apply agree_nil.
Qed.

Lemma parse_website_agree (soup : option tag) (source_url : string) (r : rule) :
  agree r1 r2
        (parse_website_for_article_links max_articles_per_site today1 soup
                                         source_url r1 r)
        (parse_website_for_article_links max_articles_per_site today2 soup
                                         source_url r2 r).
Proof.
  unfold parse_website_for_article_links.
  apply agree_bind_same. intros soup'. apply agree_bind_same. intros cs.
  apply agree_for_each. intros x. apply extract_article_agree.
Qed.

Lemma arxiv_entry_agree (source_url : string) (date : option string) (dt : tag) :
  agree r1 r2 (arxiv_entry r1 source_url date dt)
              (arxiv_entry r2 source_url date dt).
Proof.
  unfold arxiv_entry. apply agree_bind_same. intros link_url.
  apply agree_bind_same. intros pdf. apply agree_bind_same. intros ta.
  apply (agree_filter r1 r2
           (mk_article (fst ta) date link_url source_url "arxiv" (snd ta) pdf None)
           (mk_article (fst ta) date link_url source_url "arxiv" (snd ta) pdf None)).
  reflexivity.
Qed.

Lemma search_arxiv_agree (soup : tag) (source_url : string) :
  agree r1 r2 (search_arxiv max_articles_per_site soup source_url r1)
              (search_arxiv max_articles_per_site soup source_url r2).
Proof.
  unfold search_arxiv. apply agree_bind_same. intros sections.
  apply agree_for_each. intros section. unfold arxiv_section.
  do 4 (apply agree_bind_same; intros ?).
  apply agree_for_each. intros dt. apply arxiv_entry_agree.
Qed.

Lemma perplexity_header_agree (soup : tag) :
  agree r1 r2 (perplexity_header soup r1) (perplexity_header soup r2).
Proof.
  unfold perplexity_header. do 4 (apply agree_bind_same; intros ?).
  destruct (lookup "href" (tag_attrs x2)) as [h|]; [|apply agree_raise].
  apply (agree_filter r1 r2
           (mk_article (Some (get_text EmptyString true x2)) None
                       (Some (PERPLEXITY_URL +++ drop 1 h)) PERPLEXITY_URL
                       "perplexity_ai" [] None None)
           (mk_article (Some (get_text EmptyString true x2)) None
                       (Some (PERPLEXITY_URL +++ drop 1 h)) PERPLEXITY_URL
                       "perplexity_ai" [] None None)).
  reflexivity.
Qed.

Lemma meta_ai_header_agree (soup : tag) :
  agree r1 r2 (meta_ai_header soup r1) (meta_ai_header soup r2).
Proof.
  unfold meta_ai_header. do 7 (apply agree_bind_same; intros ?).
  apply (agree_filter r1 r2
           (mk_article (Some (get_text EmptyString true x2))
                       (Some (strftime_iso x5)) (lookup "href" (tag_attrs x2))
                       META_AI_URL "meta_ai" [] None None)
           (mk_article (Some (get_text EmptyString true x2))
                       (Some (strftime_iso x5)) (lookup "href" (tag_attrs x2))
                       META_AI_URL "meta_ai" [] None None)).
  reflexivity.
Qed.

Lemma header_then_listing_agree (H1 H2 : result (list article))
      (G : result (option tag)) (source_url : string) (r : rule) :
  agree r1 r2 H1 H2 ->
  agree r1 r2
        (header <- H1 ;;
         news_content <- G ;;
         site_articles <-
           parse_website_for_article_links max_articles_per_site today1
                                           news_content source_url r1 r ;;
         Ok (header ++ site_articles))
        (header <- H2 ;;
         news_content <- G ;;
         site_articles <-
           parse_website_for_article_links max_articles_per_site today2
                                           news_content source_url r2 r ;;
         Ok (header ++ site_articles)).
Proof.
  intros HH l1 l2 E1 E2. inv_bind E1. inv_bind E1. inv_bind E1.
  inv_bind E2. inv_bind E2. inv_bind E2.
  rewrite Ha0 in Ha3. injection Ha3 as <-.
  apply (agree_app r1 r2 H1 H2 _ _ HH (parse_website_agree a0 source_url r)).
  - rewrite Ha, Ha1. simpl. exact E1.
  - rewrite Ha2, Ha4. simpl. exact E2.
Qed.

Lemma scrape_site_agree (website_url : string) (soup : tag) :
  agree r1 r2
        (scrape_site max_articles_per_site today1 r1 website_url soup)
        (scrape_site max_articles_per_site today2 r2 website_url soup).
Proof.
  unfold scrape_site.
  repeat match goal with
         | |- agree _ _ (if ?c then _ else _) _ => destruct c
         end;
    try apply agree_nil;
    try apply parse_website_agree;
    try apply search_arxiv_agree;
    try (apply agree_bind_same; intros ?; apply parse_website_agree).
  - apply header_then_listing_agree. apply perplexity_header_agree.
  - apply header_then_listing_agree. apply meta_ai_header_agree.
Qed.

Lemma scrape_websites_agree :
  agree r1 r2
        (scrape_websites max_articles_per_site websites today1 render r1)
        (scrape_websites max_articles_per_site websites today2 render r2).
Proof.
  unfold scrape_websites. apply agree_for_each. intros website_url.
  destruct (render website_url) as [soup|]; [|apply agree_raise].
  apply scrape_site_agree.
Qed.

End DiscoveryProperties.

(** ** Two runs over one snapshot *)

Lemma opt_eqb_eq (a b : option string) : opt_eqb a b = true <-> a = b.
Proof.
  destruct a as [x|], b as [y|]; simpl; try (split; congruence).
  rewrite String.eqb_eq. split; congruence.
Qed.

Lemma dispatch_article_empty (soup : tag) :
  dispatch_article soup EmptyString content_selectors = Raise UnboundLocalError.
Proof. reflexivity. Qed.

Section RunProperties.

Variable max_articles_per_site : Z.
Variable websites : list string.
Variable render : string -> option tag.
Variable docs_folder : string.
Variable io_ok : article -> bool.

(** An article whose text was fetched has a url, and it is not empty. *)
Lemma scrape_article_url (a : article) (t : option string) :
  scrape_article render a = Ok t ->
  exists u, url a = Some u /\ truthy u = true.
Proof.
  unfold scrape_article. destruct (url a) as [u|]; [|discriminate].
  destruct (render u) as [soup|]; [|discriminate].
  destruct u as [|c u].
  - rewrite dispatch_article_empty. discriminate.
  - intros _. eexists. split; reflexivity.
Qed.

Lemma unique_with_text_urls (all_articles : list article) :
  forall seen_urls unique_articles,
    unique_with_text render seen_urls all_articles = Ok unique_articles ->
    (forall a, In a unique_articles ->
               (exists u, url a = Some u /\ truthy u = true)
               /\ exists a', In a' all_articles /\ url a' = url a)
    /\ (forall a', In a' all_articles ->
                   In (url a') seen_urls
                   \/ exists a, In a unique_articles /\ url a = url a').
Proof.
  induction all_articles as [|b rest IH]; simpl; intros seen unique_ H.
  - injection H as <-. split; [intros a [] | intros a' []].
  - destruct (existsb (opt_eqb (url b)) seen) eqn:Es; simpl in H.
    + destruct (IH _ _ H) as [H1 H2]. split.
      * intros a Ha. destruct (H1 a Ha) as [Hu [a' [Hin Hurl]]].
        split; [assumption|]. exists a'. split; [now right | assumption].
      * intros a' [<-|Hin]; [|now apply H2].
        left. apply existsb_exists in Es. destruct Es as [x [Hx Ex]].
        apply opt_eqb_eq in Ex. now rewrite Ex.
    + inv_bind H. inv_bind H. injection H as <-.
      destruct (IH _ _ Ha0) as [H1 H2]. split.
      * intros x [<-|Hx].
        -- simpl. split; [eapply scrape_article_url; exact Ha|].
           exists b. split; [now left | reflexivity].
        -- destruct (H1 x Hx) as [Hu [a' [Hin Hurl]]].
           split; [assumption|]. exists a'. split; [now right | assumption].
      * intros a' [<-|Hin].
        -- right. exists (set_text b a). split; [now left | reflexivity].
        -- destruct (H2 a' Hin) as [[E|Hs]|[x [Hx Hurl]]].
           ++ right. exists (set_text b a). split; [now left|]. simpl.
              now rewrite E.
           ++ now left.
           ++ right. exists x. split; [now right | assumption].
Qed.

(** C3.  Two runs of the pipeline over one snapshot of the sites (the same
    pages, whatever the two dates): when the first run fetched its articles
    and [update] stored them, every stub the second run meets has a url the
    store knows and is dropped where it is extracted; the second run finds
    no stub and returns no article, and its [update] inserts nothing and
    reports zero additions. *)
Theorem second_run_adds_nothing (today1 today2 : date)
        (records0 records1 : list row) (articles1 articles2 : list article)
        (n1 : nat) :
  fetch_articles_from_sources max_articles_per_site websites today1 render
                              records0 = Ok articles1 ->
  update docs_folder io_ok records0 articles1 = (records1, Ok n1) ->
  fetch_articles_from_sources max_articles_per_site websites today2 render
                              records1 = Ok articles2 ->
  scrape_websites max_articles_per_site websites today2 render records1 = Ok []
  /\ articles2 = []
  /\ update docs_folder io_ok records1 articles2
     = (map clear_is_new records1, Ok 0)
  /\ update_report 0 = AlreadyUpToDate.
Proof.
  intros Hrun1 Hupd Hrun2.
  unfold fetch_articles_from_sources in Hrun1, Hrun2.
  apply bind_Ok_inv in Hrun1. destruct Hrun1 as [found1 [Hs1 Hu1]].
  apply bind_Ok_inv in Hrun2. destruct Hrun2 as [found2 [Hs2 Hu2]].
  assert (Hempty : articles2 = []).
  { destruct (unique_with_text_urls _ _ _ Hu1) as [_ Hall1].
    destruct (unique_with_text_urls _ _ _ Hu2) as [Hsome2 _].
    destruct articles2 as [|x rest]; [reflexivity|]. exfalso.
    destruct (Hsome2 x (or_introl eq_refl)) as [[u [Hu Ht]] [x' [Hx' Hurl]]].
    destruct (scrape_websites_agree max_articles_per_site websites render
                today1 today2 records0 records1 _ _ Hs1 Hs2 x' Hx')
      as [Hnew Hfound].
    rewrite Hurl, Hu in Hnew, Hfound.
    assert (Hstored : In u (urls records1)).
    { destruct (is_article_already_fetched records0 (Some u)) eqn:Ek.
      - apply known_iff_In in Ek.
        destruct (update_loop_appends docs_folder io_ok articles1
                    (map clear_is_new records0) 0) as [ins [Hfst _]].
        unfold update in Hupd. rewrite Hupd in Hfst. simpl in Hfst.
        rewrite Hfst. unfold urls. rewrite map_app, in_app_iff. left.
        fold (urls (map clear_is_new records0)). now rewrite urls_clear.
      - destruct (Hfound eq_refl) as [y [Hy Hyu]].
        destruct (Hall1 y Hy) as [[]|[z [Hz Hzu]]].
        replace records1
          with (fst (update_loop docs_folder io_ok
                                 (map clear_is_new records0) 0 articles1))
          by (unfold update in Hupd; now rewrite Hupd).
        apply (update_loop_stores docs_folder io_ok articles1 _ 0 n1 z u).
        + unfold update in Hupd. now rewrite Hupd.
        + exact Hz.
        + now rewrite Hzu, Hyu.
        + exact Ht. }
    apply known_iff_In in Hstored. congruence. }
  subst articles2. repeat split.
  rewrite Hs2. destruct found2 as [|x rest]; [reflexivity|].
  simpl in Hu2. apply bind_Ok_inv in Hu2. destruct Hu2 as [t [_ Hu2]].
  apply bind_Ok_inv in Hu2. destruct Hu2 as [rest' [_ Hu2]]. discriminate.
Qed.

(** Every stub a scrape returns has a url the store does not know: the
    known ones are dropped where they are extracted. *)
Theorem scraped_stubs_are_unknown (today : date) (records : list row)
        (articles : list article) :
  scrape_websites max_articles_per_site websites today render records
  = Ok articles ->
  Forall (fun a => is_article_already_fetched records (url a) = false)
         articles.
Proof.
  intros H. apply Forall_forall. intros a Ha.
  now destruct (scrape_websites_agree max_articles_per_site websites render
                  today today records records _ _ H H a Ha).
Qed.

Lemma for_each_pieces {A B} (body : A -> result (list B)) (l : list A) :
  forall r, for_each body l = Ok r ->
            exists pieces,
              Forall2 (fun a piece => body a = Ok piece) l pieces
              /\ r = concat pieces.
Proof.
  induction l as [|a l IH]; simpl; intros r H.
  - injection H as <-. exists []. split; constructor.
  - inv_bind H. inv_bind H. injection H as <-.
    destruct (IH _ Ha0) as [pieces [Hp ->]].
    exists (a0 :: pieces). split; [now constructor | reflexivity].
Qed.

Lemma extract_article_one (today : date) (records : list row)
      (source_url : string) (r : rule) (article_tag : tag)
      (piece : list article) :
  extract_article today records source_url r article_tag = Ok piece ->
  length piece <= 1.
Proof.
  unfold extract_article. intros Hx. inv_bind Hx.
  destruct a as [link_url|]; [|injection Hx as <-; simpl; lia].
  inv_bind Hx. inv_bind Hx.
  destruct (negb _); injection Hx as <-; simpl; lia.
Qed.

Lemma concat_of_short {A B} (P : A -> list B -> Prop) (l : list A)
      (pieces : list (list B)) :
  Forall2 (fun a piece => P a piece /\ length piece <= 1) l pieces ->
  length (concat pieces) <= length l.
Proof.
  induction 1 as [|a piece l pieces [_ H1] _ IH]; simpl; [lia|].
  rewrite length_app. lia.
Qed.

(** The containers one call of the generic extractor looks at, of those in
    the listing: the first [min(count, cap)] for a cap that is not
    negative, and all but the last [-cap] for a negative cap. *)
Definition considered {A} (cap : Z) (containers : list A) : list A :=
  if (0 <=? cap)%Z
  then firstn (Nat.min (length containers) (Z.to_nat cap)) containers
  else firstn (length containers - Z.to_nat (- cap)) containers.

Lemma slice_to_considered {A} (cap : Z) (l : list A) :
  slice_to l (Z.min (Z.of_nat (length l)) cap) = considered cap l.
Proof.
  unfold slice_to, considered.
  destruct (0 <=? cap)%Z eqn:E.
  - apply Z.leb_le in E.
    assert (H : (0 <=? Z.min (Z.of_nat (length l)) cap)%Z = true)
      by (apply Z.leb_le; lia).
    rewrite H. f_equal. lia.
  - apply Z.leb_gt in E.
    assert (H : (0 <=? Z.min (Z.of_nat (length l)) cap)%Z = false)
      by (apply Z.leb_gt; lia).
    rewrite H. f_equal. lia.
Qed.

(** One call of the generic extractor looks at the containers of the
    listing in document order and stops at the cap: the stubs it returns
    are those of the first [min(count, max_articles_per_site)] containers,
    one or none for each, in the order of the containers; so that they are
    at most [max_articles_per_site] when the cap is not negative.  A
    negative cap does not stop anything: all containers but the last ones
    are looked at. *)
Theorem parse_website_cap (today : date) (soup : option tag)
        (source_url : string) (records : list row) (r : rule)
        (articles : list article) :
  parse_website_for_article_links max_articles_per_site today soup source_url
                                  records r = Ok articles ->
  exists listing articles_in_site pieces,
    soup = Some listing
    /\ select_containers listing r = Ok articles_in_site
    /\ Forall2 (fun article_tag piece =>
                  extract_article today records source_url r article_tag
                  = Ok piece
                  /\ length piece <= 1)
               (considered max_articles_per_site articles_in_site) pieces
    /\ articles = concat pieces
    /\ ((0 <= max_articles_per_site)%Z ->
        (Z.of_nat (length articles) <= max_articles_per_site)%Z).
Proof.
  unfold parse_website_for_article_links. intros H.
  inv_bind H. inv_bind H. cbv zeta in H. rewrite slice_to_considered in H.
  destruct soup as [listing|]; [|discriminate]. injection Ha as <-.
  destruct (for_each_pieces _ _ _ H) as [pieces [Hp ->]].
  assert (Hp1 : Forall2 (fun article_tag piece =>
                           extract_article today records source_url r
                                           article_tag = Ok piece
                           /\ length piece <= 1)
                        (considered max_articles_per_site a0) pieces).
  { eapply Forall2_impl; [|exact Hp]. intros x piece Hx.
    split; [assumption|]. eapply extract_article_one. exact Hx. }
  exists listing, a0, pieces. repeat split; try assumption.
  intros Hcap. apply concat_of_short in Hp1.
  unfold considered in Hp1. apply Z.leb_le in Hcap as Hc. rewrite Hc in Hp1.
  rewrite length_firstn in Hp1. lia.
Qed.

End RunProperties.

(** *** A run on a small snapshot *)

(** A listing of one card, and the page of its article. *)
Definition demo_listing : tag :=
  soup_of
    [Element "a" (Some ["PostCard_post-card__z_Sqq"]) [("href", "/news/claude")]
             [text_element "h3" (Some ["PostCard_post-heading__Ob1pu"]) "Claude";
              text_element "div" (Some ["PostList_post-date__djrOA"])
                           "January 5, 2024"]].

Definition demo_page : tag :=
  soup_of [text_element "div" (Some ["Body_body__XEXq7"]) "Hello"].

Definition demo_render (u : string) : option tag :=
  if String.eqb u "https://www.anthropic.com/news" then Some demo_listing
  else if String.eqb u "https://www.anthropic.com/news/claude"
       then Some demo_page
       else None.

Definition demo_article : article :=
  mk_article (Some "Claude") (Some "2024-01-05")
             (Some "https://www.anthropic.com/news/claude")
             "https://www.anthropic.com" "anthropic" [] None (Some "Hello").

Definition demo_row : row :=
  mk_row "https://www.anthropic.com/news/claude"
         "data/docs/claude_anthropic_2024_01_05.txt" (Some "Claude")
         "anthropic" (Some "2024-01-05") true true.

(** A witness of [second_run_adds_nothing]: the first run finds the article
    and stores it, the second run, a day later, finds nothing. *)
Lemma second_run_adds_nothing_witness :
  scrape_websites 20 ["https://www.anthropic.com/news"] (mk_date 2024 1 11)
                  demo_render [demo_row] = Ok []
  /\ (@nil article) = []
  /\ update "data/docs" (fun _ => true) [demo_row] []
     = (map clear_is_new [demo_row], Ok 0)
  /\ update_report 0 = AlreadyUpToDate.
Proof.
  apply (second_run_adds_nothing 20 ["https://www.anthropic.com/news"]
           demo_render "data/docs" (fun _ => true)
           (mk_date 2024 1 10) (mk_date 2024 1 11)
           [] [demo_row] [demo_article] [] 1); reflexivity.
Defined.

(** A witness of [update_keeps_urls_unique]: a store of one row and a batch
    that holds its url, a new url twice, and a stub without url. *)
Lemma update_keeps_urls_unique_witness :
  NoDup (urls (fst (update "data/docs" (fun _ => true) [demo_row]
                           [demo_article;
                            mk_article None None (Some "https://x.ai/news/a")
                                       "https://x.ai" "xai" [] None None;
                            mk_article (Some "again") None
                                       (Some "https://x.ai/news/a")
                                       "https://x.ai" "xai" [] None None;
                            mk_article None None None "https://arxiv.org"
                                       "arxiv" [] None None])))
  /\ Forall (fun r => truthy (row_url r) = true)
            (skipn (length [demo_row])
                   (fst (update "data/docs" (fun _ => true) [demo_row]
                           [demo_article;
                            mk_article None None (Some "https://x.ai/news/a")
                                       "https://x.ai" "xai" [] None None;
                            mk_article (Some "again") None
                                       (Some "https://x.ai/news/a")
                                       "https://x.ai" "xai" [] None None;
                            mk_article None None None "https://arxiv.org"
                                       "arxiv" [] None None]))).
Proof.
  apply (update_keeps_urls_unique "data/docs" (fun _ => true) [demo_row]).
  simpl. constructor; [intros [] | constructor].
Defined.

Definition demo_stub : article :=
  mk_article (Some "Claude") (Some "2024-01-05")
             (Some "https://www.anthropic.com/news/claude")
             "https://www.anthropic.com" "anthropic" [] None None.

Lemma scraped_stubs_are_unknown_witness :
  Forall (fun a => is_article_already_fetched [] (url a) = false) [demo_stub].
Proof.
  apply (scraped_stubs_are_unknown 20 ["https://www.anthropic.com/news"]
           demo_render (mk_date 2024 1 10) [] [demo_stub]).
  reflexivity.
Defined.

(** A listing of two cards. *)
Definition two_card_listing : tag :=
  soup_of
    [Element "a" (Some ["PostCard_post-card__z_Sqq"]) [("href", "/news/claude")]
             [text_element "h3" (Some ["PostCard_post-heading__Ob1pu"]) "Claude";
              text_element "div" (Some ["PostList_post-date__djrOA"])
                           "January 5, 2024"];
     Element "a" (Some ["PostCard_post-card__z_Sqq"]) [("href", "/news/opus")]
             [text_element "h3" (Some ["PostCard_post-heading__Ob1pu"]) "Opus";
              text_element "div" (Some ["PostList_post-date__djrOA"])
                           "January 4, 2024"]].

(** With a cap of one, the first card of two gives the one stub. *)
Lemma parse_website_cap_witness :
  exists listing articles_in_site pieces,
    Some two_card_listing = Some listing
    /\ select_containers listing anthropic_rule = Ok articles_in_site
    /\ Forall2 (fun article_tag piece =>
                  extract_article (mk_date 2024 1 10) [] ANTHROPIC_URL
                                  anthropic_rule article_tag
                  = Ok piece
                  /\ length piece <= 1)
               (considered 1 articles_in_site) pieces
    /\ [demo_stub] = concat pieces
    /\ ((0 <= 1)%Z -> (Z.of_nat (length [demo_stub]) <= 1)%Z).
Proof.
  apply (parse_website_cap 1 (mk_date 2024 1 10) (Some two_card_listing)
           ANTHROPIC_URL [] anthropic_rule [demo_stub]).
  reflexivity.
Defined.

(* ================================================================== *)
(** * Further properties of the store *)

Section StoreBatches.

Variable docs_folder : string.
Variable io_ok : article -> bool.

(** The urls a batch carries, in order. *)
Definition batch_urls (articles : list article) : list string :=
  flat_map (fun a => match url a with Some u => [u] | None => [] end) articles.

Lemma in_batch_urls (articles : list article) (u : string) :
  In u (batch_urls articles) <-> exists a, In a articles /\ url a = Some u.
Proof.
  unfold batch_urls. rewrite in_flat_map. split.
  - intros [a [Ha Hu]]. exists a. split; [assumption|].
    destruct (url a) as [v|]; [|contradiction]. destruct Hu as [<-|[]].
    reflexivity.
  - intros [a [Ha Hu]]. exists a. split; [assumption|]. rewrite Hu. now left.
Qed.

(** A batch whose urls are all stored leaves the rows as they are. *)
Lemma update_loop_all_known (articles : list article) :
  forall (records : list row) (n : nat),
    (forall a u, In a articles -> url a = Some u -> truthy u = true ->
                 In u (urls records)) ->
    update_loop docs_folder io_ok records n articles = (records, Ok n).
Proof.
  induction articles as [|a rest IH]; intros records n Hall; [reflexivity|].
  simpl. assert (Hrest : update_loop docs_folder io_ok records n rest
                         = (records, Ok n)).
  { apply IH. intros b u Hb. apply Hall. now right. }
  destruct (url a) as [u|] eqn:Eu; [|exact Hrest].
  destruct (truthy u) eqn:Et; simpl; [|exact Hrest].
  assert (Hk : In u (urls records)) by (apply (Hall a u); auto; now left).
  apply known_iff_In in Hk. simpl in Hk. rewrite Hk. exact Hrest.
Qed.

Lemma filter_is_new_cleared (records : list row) :
  filter is_new (map clear_is_new records) = [].
Proof. induction records as [|r rs IH]; simpl; [reflexivity | exact IH]. Qed.

Lemma filter_is_new_all (rows : list row) :
  Forall (fun r => is_new r = true) rows -> filter is_new rows = rows.
Proof.
  induction rows as [|r rs IH]; simpl; intros H; [reflexivity|].
  inversion H; subst. rewrite H2. f_equal. now apply IH.
Qed.

(** The rows [update] inserted are the rows flagged new, so
    [get_new_articles] returns them, in the order of their insertion, and as
    many as [update] counted. *)
Theorem new_articles_are_the_inserted_rows (records : list row)
        (articles : list article) :
  snd (get_new_articles (fst (update docs_folder io_ok records articles)))
  = map row_values
        (skipn (length records)
               (fst (update docs_folder io_ok records articles)))
  /\ (forall n, snd (update docs_folder io_ok records articles) = Ok n ->
                length (snd (get_new_articles
                               (fst (update docs_folder io_ok records articles))))
                = n).
Proof.
  unfold update.
  destruct (update_loop_appends docs_folder io_ok articles
              (map clear_is_new records) 0) as [ins [H1 [H2 [_ [_ H5]]]]].
  rewrite H1.
  assert (Hf : filter is_new (map clear_is_new records ++ ins) = ins).
  { rewrite filter_app, filter_is_new_cleared, filter_is_new_all by assumption.
    reflexivity. }
  assert (Hs : skipn (length records) (map clear_is_new records ++ ins) = ins).
  { replace (length records) with (length (map clear_is_new records) + 0)
      by (rewrite length_map; lia).
    rewrite skipn_app, skipn_all2 by lia.
    replace (length (map clear_is_new records) + 0
             - length (map clear_is_new records)) with 0 by lia.
    reflexivity. }
  simpl. rewrite Hf, Hs. split; [reflexivity|].
  intros n Hn. apply H5 in Hn. rewrite length_map. lia.
Qed.

(** The count [update] reports is the number of distinct urls of the batch
    that are non-empty and were not stored before. *)
Theorem update_counts_distinct_new_urls (records : list row)
        (articles : list article) (n : nat) :
  snd (update docs_folder io_ok records articles) = Ok n ->
  n = length (nodup string_dec
                (filter (fun u => truthy u
                                  && negb (is_article_already_fetched
                                             records (Some u)))
                        (batch_urls articles))).
Proof.
  intros Hok. unfold update in Hok.
  pose proof (update_loop_stores docs_folder io_ok articles
                (map clear_is_new records) 0 n) as Hstores.
  destruct (update_loop_appends docs_folder io_ok articles
              (map clear_is_new records) 0) as [ins [H1 [_ [H3 [H4 H5]]]]].
  rewrite (H5 n Hok). simpl. rewrite Forall_forall in H3.
  set (fresh := nodup string_dec _).
  assert (Hin : forall u, In u (urls ins) <-> In u fresh).
  { intros u. unfold fresh. rewrite nodup_In, filter_In, in_batch_urls. split.
    - intros Hu. unfold urls in Hu. apply in_map_iff in Hu.
      destruct Hu as [r [<- Hr]].
      destruct (H3 r Hr) as [Ht [Hn [a [Ha Hurl]]]]. split; [eauto|].
      rewrite Ht. simpl. apply negb_true_iff.
      destruct (existsb _ records) eqn:E; [|reflexivity].
      exfalso. apply Hn. rewrite urls_clear.
      apply (known_iff_In records (row_url r)). exact E.
    - intros [[a [Ha Hurl]] Hf]. apply andb_true_iff in Hf.
      destruct Hf as [Ht Hn]. apply negb_true_iff in Hn.
      specialize (Hstores a u Hok Ha Hurl Ht). rewrite H1 in Hstores.
      unfold urls in Hstores. rewrite map_app, in_app_iff in Hstores.
      destruct Hstores as [Hold|Hnew]; [|exact Hnew].
      exfalso. fold (urls (map clear_is_new records)) in Hold.
      rewrite urls_clear in Hold. apply known_iff_In in Hold.
      simpl in Hold, Hn. congruence. }
  unfold urls in *. rewrite <- (length_map row_url ins).
  apply Nat.le_antisymm.
  - apply NoDup_incl_length; [exact H4|]. intros u Hu. now apply Hin.
  - apply NoDup_incl_length; [apply NoDup_nodup|]. intros u Hu. now apply Hin.
Qed.

(** [update] is idempotent on a batch: run again on the batch it has just
    stored, it inserts nothing, reports zero, and leaves no row flagged
    new. *)
Theorem update_same_batch_again (records records1 : list row)
        (articles : list article) (n : nat) :
  update docs_folder io_ok records articles = (records1, Ok n) ->
  update docs_folder io_ok records1 articles
  = (map clear_is_new records1, Ok 0)
  /\ snd (get_new_articles (map clear_is_new records1)) = [].
Proof.
  intros Hupd. split.
  - unfold update. apply update_loop_all_known. intros a u Ha Hu Ht.
    rewrite urls_clear.
    replace records1
      with (fst (update_loop docs_folder io_ok (map clear_is_new records) 0
                             articles))
      by (unfold update in Hupd; now rewrite Hupd).
    apply (update_loop_stores docs_folder io_ok articles _ 0 n a u);
      try assumption.
    unfold update in Hupd. now rewrite Hupd.
  - simpl. now rewrite filter_is_new_cleared.
Qed.

End StoreBatches.

(* ================================================================== *)
(** * The body artifacts *)

Lemma replace_app (c : ascii) (new a b : string) :
  replace c new (a +++ b) = replace c new a +++ replace c new b.
Proof.
  induction a as [|d a IH]; simpl; [reflexivity|].
  destruct (Ascii.eqb d c); simpl; rewrite IH; [|reflexivity].
  now rewrite append_assoc.
Qed.

Lemma fold_replace_app (l : list ascii) :
  forall a b : string,
    fold_left (fun f char => replace char EmptyString f) l (a +++ b)
    = fold_left (fun f char => replace char EmptyString f) l a
      +++ fold_left (fun f char => replace char EmptyString f) l b.
Proof.
  induction l as [|c l IH]; intros a b; simpl; [reflexivity|].
  now rewrite replace_app, IH.
Qed.

Lemma filter_chars_app (keep : ascii -> bool) (a b : string) :
  filter_chars keep (a +++ b) = filter_chars keep a +++ filter_chars keep b.
Proof.
  induction a as [|d a IH]; simpl; [reflexivity|].
  destruct (keep d); simpl; now rewrite IH.
Qed.

Lemma map_chars_app (f : ascii -> ascii) (a b : string) :
  map_chars f (a +++ b) = map_chars f a +++ map_chars f b.
Proof. induction a as [|d a IH]; simpl; [reflexivity | now rewrite IH]. Qed.

Lemma mem_char_replace_other (d c : ascii) (new s : string) :
  Ascii.eqb d c = false -> mem_char d s = true ->
  mem_char d (replace c new s) = true.
Proof.
  intros Hdc. induction s as [|e s IH]; simpl; [discriminate|].
  intros H. destruct (Ascii.eqb e c) eqn:Eec.
  - rewrite mem_char_app. apply orb_true_iff in H. destruct H as [H|H].
    + apply Ascii.eqb_eq in H. subst e. congruence.
    + rewrite (IH H). apply orb_true_r.
  - simpl. apply orb_true_iff in H. destruct H as [H|H].
    + now rewrite H.
    + rewrite (IH H). apply orb_true_r.
Qed.

Lemma mem_char_fold_replace (d : ascii) (l : list ascii) :
  forallb (fun c => negb (Ascii.eqb d c)) l = true ->
  forall s, mem_char d s = true ->
            mem_char d (fold_left (fun f char => replace char EmptyString f)
                                  l s) = true.
Proof.
  induction l as [|c l IH]; simpl; intros Hl s Hs; [assumption|].
  apply andb_true_iff in Hl. destruct Hl as [Hc Hl].
  apply IH; [assumption|]. apply mem_char_replace_other; [|assumption].
  now apply negb_true_iff.
Qed.

Lemma mem_char_filter_kept (d : ascii) (keep : ascii -> bool) (s : string) :
  keep d = true -> mem_char d s = true ->
  mem_char d (filter_chars keep s) = true.
Proof.
  intros Hk. induction s as [|e s IH]; simpl; [discriminate|].
  intros H. apply orb_true_iff in H. destruct H as [H|H].
  - apply Ascii.eqb_eq in H. subst e. rewrite Hk. simpl.
    now rewrite Ascii.eqb_refl.
  - destruct (keep e); simpl; rewrite (IH H); [apply orb_true_r | reflexivity].
Qed.

Lemma mem_char_filter_absent (d : ascii) (keep : ascii -> bool) (s : string) :
  mem_char d s = false -> mem_char d (filter_chars keep s) = false.
Proof.
  induction s as [|e s IH]; simpl; [reflexivity|].
  intros H. apply orb_false_iff in H. destruct H as [H1 H2].
  destruct (keep e); simpl; [rewrite H1|]; now apply IH.
Qed.

Lemma mem_char_map_fixed (d : ascii) (f : ascii -> ascii) (s : string) :
  f d = d -> mem_char d s = true -> mem_char d (map_chars f s) = true.
Proof.
  intros Hf. induction s as [|e s IH]; simpl; [discriminate|].
  intros H. apply orb_true_iff in H. destruct H as [H|H].
  - apply Ascii.eqb_eq in H. subst e. now rewrite Hf, Ascii.eqb_refl.
  - rewrite (IH H). apply orb_true_r.
Qed.

Lemma all_chars_mem (q : ascii -> bool) (s : string) (c : ascii) :
  all_chars q s = true -> mem_char c s = true -> q c = true.
Proof.
  induction s as [|d s IH]; simpl; [discriminate|].
  intros H E. apply andb_true_iff in H. destruct H as [Hd Hs].
  apply orb_true_iff in E. destruct E as [E|E]; [|now apply IH].
  apply Ascii.eqb_eq in E. now subst.
Qed.

Lemma rfind_absent (c : ascii) (s : string) :
  mem_char c s = false -> rfind c s = None.
Proof.
  induction s as [|d s IH]; simpl; [reflexivity|].
  intros H. apply orb_false_iff in H. destruct H as [H1 H2].
  rewrite (IH H2). rewrite Ascii.eqb_sym. now rewrite H1.
Qed.

Lemma rfind_app (c : ascii) (a b : string) (i : nat) :
  rfind c b = Some i -> rfind c (a +++ b) = Some (String.length a + i).
Proof.
  intros Hb. induction a as [|d a IH]; simpl; [assumption|].
  now rewrite IH.
Qed.

Lemma substring_app_left (a b : string) :
  substring 0 (String.length a) (a +++ b) = a.
Proof.
  induction a as [|d a IH]; simpl; [destruct b; reflexivity|].
  now rewrite IH.
Qed.

Lemma drop_app_left (a b : string) : drop (String.length a) (a +++ b) = b.
Proof. induction a as [|d a IH]; simpl; [reflexivity | exact IH]. Qed.

Lemma not_all_dots (s : string) :
  mem_char "_" s = true -> all_chars (Ascii.eqb ".") s = false.
Proof.
  induction s as [|d s IH]; cbn [mem_char all_chars]; [discriminate|].
  intros H. apply orb_true_iff in H. destruct H as [H|H].
  - apply Ascii.eqb_eq in H. subst d. reflexivity.
  - rewrite (IH H). apply andb_false_r.
Qed.

(** The stem of a name that holds an underscore and ends in [.txt]. *)
Lemma splitext_txt (q : string) :
  mem_char "/" q = false -> mem_char "_" q = true ->
  splitext (q +++ ".txt") = (q, ".txt").
Proof.
  intros Hslash Hus. unfold splitext.
  rewrite (rfind_absent "/") by (rewrite mem_char_app, Hslash; reflexivity).
  rewrite (rfind_app "." q ".txt" 0) by reflexivity.
  rewrite Nat.add_0_r, Nat.sub_0_r. simpl (0 <=? _).
  rewrite substring_app_left, (not_all_dots q Hus), drop_app_left.
  reflexivity.
Qed.

Lemma not_reserved (s : string) :
  mem_char "_" s = true -> existsb (String.eqb s) reserved_names = false.
Proof.
  intros Hus. destruct (existsb _ _) eqn:E; [|reflexivity].
  apply existsb_exists in E. destruct E as [name [Hin Heq]].
  apply String.eqb_eq in Heq. subst name.
  assert (Hno : forallb (fun n => negb (mem_char "_" n)) reserved_names = true)
    by reflexivity.
  rewrite forallb_forall in Hno. specialize (Hno s Hin).
  rewrite Hus in Hno. discriminate.
Qed.

Lemma lstrip_app (p : ascii -> bool) (a b : string) (c : ascii) :
  mem_char c a = true -> p c = false ->
  lstrip p (a +++ b) = lstrip p a +++ b.
Proof.
  intros Hc Hp. induction a as [|d a IH]; simpl in *; [discriminate|].
  destruct (p d) eqn:Epd; [|reflexivity].
  apply orb_true_iff in Hc. destruct Hc as [Hc|Hc]; [|now apply IH].
  apply Ascii.eqb_eq in Hc. subst d. congruence.
Qed.

Lemma rstrip_txt (a : string) :
  rstrip (fun c => mem_char c " .") (a +++ ".txt") = a +++ ".txt".
Proof.
  induction a as [|d a IH]; [reflexivity|].
  cbn [append rstrip]. rewrite IH.
  destruct (a +++ ".txt") eqn:E; [|reflexivity].
  destruct a; discriminate.
Qed.

Lemma mem_char_lstrip (p : ascii -> bool) (s : string) (c : ascii) :
  mem_char c s = true -> p c = false -> mem_char c (lstrip p s) = true.
Proof.
  intros Hc Hp. induction s as [|d s IH]; simpl in *; [discriminate|].
  destruct (p d) eqn:Epd; [|exact Hc].
  apply orb_true_iff in Hc. destruct Hc as [Hc|Hc]; [|now apply IH].
  apply Ascii.eqb_eq in Hc. subst d. congruence.
Qed.

(** A name that holds an underscore and ends in [.txt] keeps the [.txt]. *)
Lemma safe_filename_txt (q : string) :
  mem_char "_" q = true ->
  exists stem, safe_filename (q +++ ".txt") = stem +++ ".txt".
Proof.
  intros Hus. unfold safe_filename.
  rewrite fold_replace_app.
  change (fold_left (fun f char => replace char EmptyString f)
                    (list_ascii_of_string invalid_chars) ".txt") with ".txt".
  set (q1 := fold_left _ _ q).
  assert (H1 : mem_char "_" q1 = true).
  { apply mem_char_fold_replace; [reflexivity | assumption]. }
  assert (S1 : mem_char "/" q1 = false).
  { destruct (mem_char "/" q1) eqn:E; [|reflexivity].
    assert (Hq : all_chars (not_among (list_ascii_of_string invalid_chars)) q1
                 = true).
    { apply (fold_replace_removes _ [] q).
      eapply all_chars_weaken; [|apply all_chars_true]. reflexivity. }
    pose proof (all_chars_mem _ _ _ Hq E) as Hc. discriminate. }
  rewrite filter_chars_app.
  change (filter_chars (fun c => mem_char c printable) ".txt") with ".txt".
  set (q2 := filter_chars _ q1).
  assert (H2 : mem_char "_" q2 = true).
  { apply mem_char_filter_kept; [reflexivity | assumption]. }
  assert (S2 : mem_char "/" q2 = false)
    by (apply mem_char_filter_absent; assumption).
  rewrite !replace_app.
  change (replace "-" "_" (replace " " "_" ".txt")) with ".txt".
  set (q3 := replace "-" "_" (replace " " "_" q2)).
  assert (H3 : mem_char "_" q3 = true).
  { unfold q3. repeat apply mem_char_replace_other; try reflexivity.
    assumption. }
  assert (S3 : mem_char "/" q3 = false).
  { unfold q3. repeat apply replace_keeps_absent; try reflexivity.
    assumption. }
  rewrite (splitext_txt q3 S3 H3). cbn [fst].
  rewrite not_reserved by (apply mem_char_map_fixed; [reflexivity|assumption]).
  unfold strip_set.
  rewrite (lstrip_app _ q3 ".txt" "_") by (assumption || reflexivity).
  rewrite rstrip_txt.
  exists (lstrip (fun c => mem_char c " .") q3).
  destruct (lstrip _ q3); reflexivity.
Qed.

Definition ends_with (suffix s : string) : Prop :=
  exists stem, s = stem +++ suffix.

Lemma os_path_join_ends (a b suffix : string) :
  ends_with suffix b -> ends_with suffix (os_path_join a b).
Proof.
  intros [stem ->]. unfold os_path_join.
  destruct (startswith _ "/"); [now exists stem|].
  destruct (_ || _).
  - exists (a +++ stem). now rewrite append_assoc.
  - exists (a +++ "/" +++ stem). now rewrite !append_assoc.
Qed.

Section Artifacts.

Variable docs_folder : string.
Variable io_ok : article -> bool.

Lemma body_path_is_txt (a : article) (path : string) :
  (if truthy_opt (pdf_url a) then download_pdf_from_url docs_folder io_ok a
   else save_article_to_txt docs_folder io_ok a) = Ok path ->
  ends_with ".txt" path.
Proof.
  destruct (truthy_opt (pdf_url a)).
  - unfold download_pdf_from_url. cbv zeta. destruct (io_ok a); [|discriminate].
    intros H. injection H as <-. apply os_path_join_ends. eexists. reflexivity.
  - unfold save_article_to_txt. cbv zeta. destruct (io_ok a); [|discriminate].
    intros H. injection H as <-. apply os_path_join_ends.
    set (q := format_opt (title a) +++ "_" +++ source a +++ "_"
              +++ format_opt (publish_date a)).
    match goal with
    | |- ends_with _ (lower (safe_filename ?x)) =>
        replace x with (q +++ ".txt")
          by (unfold q; rewrite !append_assoc; reflexivity)
    end.
    destruct (safe_filename_txt q) as [stem Hstem].
    { unfold q. rewrite !mem_char_app. simpl. apply orb_true_r. }
    rewrite Hstem. exists (lower stem). unfold lower.
    now rewrite map_chars_app.
Qed.

Lemma update_loop_inserts_txt (articles : list article) :
  forall (records : list row) (n : nat),
  exists inserted,
    fst (update_loop docs_folder io_ok records n articles)
    = records ++ inserted
    /\ Forall (fun r => ends_with ".txt" (article_file_path r)) inserted.
Proof.
  induction articles as [|a rest IH]; intros recs k.
  - exists []. simpl. rewrite app_nil_r. split; constructor.
  - simpl. destruct (url a) as [u|]; [|apply IH].
    destruct (negb (truthy u)); [apply IH|].
    destruct (existsb _ recs); [apply IH|].
    destruct (if truthy_opt (pdf_url a) then _ else _) as [path|e] eqn:E.
    + destruct (IH (recs ++ [mk_row u path (title a) (source a)
                                    (publish_date a) (truthy_opt (text a))
                                    true]) (S k)) as [ins' [Hf Hall]].
      eexists. rewrite Hf, <- app_assoc. split; [reflexivity|].
      constructor; [|assumption]. simpl. eapply body_path_is_txt. exact E.
    + exists []. simpl. rewrite app_nil_r. split; constructor.
Qed.

(** Every row [update] inserts records a body artifact whose path ends in
    [.txt], for a downloaded pdf and for a saved stub alike, whatever the
    title, the source and the date are. *)
Theorem inserted_rows_point_to_txt_files (records : list row)
        (articles : list article) :
  Forall (fun r => ends_with ".txt" (article_file_path r))
         (skipn (length records)
                (fst (update docs_folder io_ok records articles))).
Proof.
  unfold update.
  destruct (update_loop_inserts_txt articles (map clear_is_new records) 0)
    as [ins' [Hf Hall]].
  rewrite Hf.
  replace (length records) with (length (map clear_is_new records) + 0)
    by (rewrite length_map; lia).
  rewrite skipn_app, skipn_all2 by lia.
  replace (length (map clear_is_new records) + 0
           - length (map clear_is_new records)) with 0 by lia.
  exact Hall.
Qed.

(** The path of the body artifact is made from the title, the source and
    the date alone: two stubs of different urls that agree on the three are
    given one path, so that the second body replaces the first, and the
    store ends with two rows of one [article_file_path]. *)
Theorem same_title_source_date_share_a_path (records : list row)
        (a b : article) (ua ub : string) :
  url a = Some ua -> url b = Some ub -> ua <> ub ->
  truthy ua = true -> truthy ub = true ->
  ~ In ua (urls records) -> ~ In ub (urls records) ->
  title a = title b -> source a = source b ->
  publish_date a = publish_date b ->
  truthy_opt (pdf_url a) = truthy_opt (pdf_url b) ->
  io_ok a = true -> io_ok b = true ->
  exists ra rb,
    update docs_folder io_ok records [a; b]
    = (map clear_is_new records ++ [ra; rb], Ok 2)
    /\ row_url ra = ua /\ row_url rb = ub
    /\ article_file_path ra = article_file_path rb.
Proof.
  intros Ha Hb Hneq Hta Htb Hna Hnb Ht Hs Hd Hp Hia Hib.
  assert (Hka : existsb (fun r => String.eqb ua (row_url r))
                        (map clear_is_new records) = false).
  { destruct (existsb _ _) eqn:E; [|reflexivity]. exfalso. apply Hna.
    rewrite <- urls_clear. apply known_iff_In. exact E. }
  assert (Hkb : forall r, row_url r = ua ->
                  existsb (fun x => String.eqb ub (row_url x))
                          (map clear_is_new records ++ [r]) = false).
  { intros r Hr. rewrite existsb_app. simpl. rewrite Hr.
    replace (String.eqb ub ua) with false
      by (symmetry; apply String.eqb_neq; congruence).
    destruct (existsb (fun x => String.eqb ub (row_url x))
                      (map clear_is_new records)) eqn:E; [|reflexivity].
    exfalso. apply Hnb. rewrite <- urls_clear. apply known_iff_In. exact E. }
  unfold update. cbn [update_loop]. rewrite Ha, Hta. cbn [negb].
  cbn [is_article_already_fetched]. rewrite Hka.
  unfold download_pdf_from_url, save_article_to_txt. cbv zeta.
  rewrite Hia, Hb, Htb. cbn [negb].
  destruct (truthy_opt (pdf_url a)) eqn:Epa; rewrite <- Hp;
    (rewrite Hkb by reflexivity); rewrite Hib, <- Ht, <- Hs, <- Hd;
    rewrite <- app_assoc; eexists; eexists;
    (split; [reflexivity|]); repeat split.
Qed.

End Artifacts.

(* ================================================================== *)
(** * Further properties of the retriever *)

(** The sites [__scrape_article] knows a content selector for. *)
Definition content_sites : list string := map fst content_selectors.

(** The sites [__scrape_websites] has a branch for. *)
Definition listing_sites : list string :=
  [DEEPMIND_URL; ANTHROPIC_URL; OPENAI_URL; GOOGLE_RESEARCH_URL;
   HUGGINGFACE_URL; VERGE_URL; WIRED_URL; VENTUREBEAT_URL; TECHCRUNCH_URL;
   AIBUSINESS_URL; ILPOST_URL; MISTRAL_URL; PERPLEXITY_URL; XAI_URL;
   META_AI_URL; ARXIV_URL].

Lemma dispatch_article_outcome (soup : tag) (u : string)
      (chain : list (string * (string * string))) :
  if existsb (fun site => contains site u) (map fst chain)
  then exists t, dispatch_article soup u chain = Ok t
  else dispatch_article soup u chain = Raise UnboundLocalError.
Proof.
  induction chain as [|[site [content_tag content_class]] chain IH]; simpl;
    [reflexivity|].
  destruct (contains site u); simpl; [|exact IH].
  rewrite parse_article_eq. eexists. reflexivity.
Qed.

Lemma startswith_app (a b : string) : startswith (a +++ b) a = true.
Proof.
  induction a as [|c a IH]; simpl; [now destruct b|].
  now rewrite Ascii.eqb_refl, IH.
Qed.

Lemma normalize_url_prefix (source_url href : string) :
  startswith (normalize_url source_url href) "https" = true
  \/ startswith (normalize_url source_url href) source_url = true.
Proof.
  unfold normalize_url. destruct (startswith href "https") eqn:E; simpl.
  - now left.
  - right. apply startswith_app.
Qed.

Section RetrieverFacts.

Variable max_articles_per_site : Z.
Variable websites : list string.
Variable render : string -> option tag.

(** How [__scrape_article] ends for a stub that has a url: with the failure
    of the navigation when the page cannot be rendered, with
    [UnboundLocalError] when the url holds none of the sites a content
    selector is known for (no branch assigns [article_text]), and with a
    text or [None] otherwise. *)
Theorem scrape_article_outcomes (a : article) (u : string) :
  url a = Some u ->
  match render u with
  | None => scrape_article render a = Raise NavigationError
  | Some soup =>
      if existsb (fun site => contains site u) content_sites
      then exists t, scrape_article render a = Ok t
      else scrape_article render a = Raise UnboundLocalError
  end.
Proof.
  unfold scrape_article. intros ->.
  destruct (render u) as [soup|]; [|reflexivity].
  apply dispatch_article_outcome.
Qed.

Lemma scrape_article_site (a : article) (t : option string) :
  scrape_article render a = Ok t ->
  exists u, url a = Some u
            /\ existsb (fun site => contains site u) content_sites = true.
Proof.
  unfold scrape_article. intros H.
  destruct (url a) as [u|]; [|discriminate].
  destruct (render u) as [soup|]; [|discriminate].
  exists u. split; [reflexivity|].
  pose proof (dispatch_article_outcome soup u content_selectors) as Ho.
  fold content_sites in Ho.
  destruct (existsb _ content_sites); [reflexivity | congruence].
Qed.

Lemma unique_with_text_distinct (all_articles : list article) :
  forall seen_urls unique_articles,
    unique_with_text render seen_urls all_articles = Ok unique_articles ->
    NoDup (map url unique_articles)
    /\ (forall a, In a unique_articles -> ~ In (url a) seen_urls)
    /\ Forall (fun a => exists u,
                   url a = Some u
                   /\ existsb (fun site => contains site u) content_sites
                      = true)
              unique_articles.
Proof.
  induction all_articles as [|b rest IH]; simpl; intros seen unique_ H.
  - injection H as <-. repeat split; try constructor. intros a [].
  - destruct (existsb (opt_eqb (url b)) seen) eqn:Es; simpl in H.
    + now apply IH.
    + apply bind_Ok_inv in H. destruct H as [t [Ht H]].
      apply bind_Ok_inv in H. destruct H as [others [Ho H]].
      injection H as <-. destruct (IH _ _ Ho) as [Hnd [Hseen Hall]].
      repeat split.
      * simpl. constructor; [|assumption]. intros Hin.
        apply in_map_iff in Hin. destruct Hin as [x [Ex Hx]].
        apply (Hseen x Hx). rewrite Ex. now left.
      * intros x [<-|Hx] Hin.
        -- simpl in Hin.
           assert (E : existsb (opt_eqb (url b)) seen = true).
           { apply existsb_exists. exists (url b). split; [assumption|].
             now apply opt_eqb_eq. }
           congruence.
        -- apply (Hseen x Hx). now right.
      * constructor; [|assumption]. simpl.
        eapply scrape_article_site. exact Ht.
Qed.

(** The articles a run returns have pairwise distinct urls, and each url
    holds one of the sites a content selector is known for: in particular
    no returned article lacks a url or has an empty one. *)
Theorem fetched_articles_have_distinct_site_urls (today : date)
        (records : list row) (articles : list article) :
  fetch_articles_from_sources max_articles_per_site websites today render
                              records = Ok articles ->
  NoDup (map url articles)
  /\ Forall (fun a => exists u,
                 url a = Some u
                 /\ existsb (fun site => contains site u) content_sites = true)
            articles.
Proof.
  unfold fetch_articles_from_sources. intros H.
  apply bind_Ok_inv in H. destruct H as [found [_ H]].
  destruct (unique_with_text_distinct _ _ _ H) as [H1 [_ H3]]. now split.
Qed.

(** A website url that holds none of the sites the scraper has a branch
    for is rendered and yields no stub at all, and no error either. *)
Theorem scrape_site_of_unknown_site (today : date) (records : list row)
        (website_url : string) (soup : tag) :
  forallb (fun site => negb (contains site website_url)) listing_sites = true ->
  scrape_site max_articles_per_site today records website_url soup = Ok [].
Proof.
  intros H. unfold listing_sites in H. cbn [forallb] in H.
  repeat match type of H with
         | (_ && _) = true => apply andb_true_iff in H;
                              let H1 := fresh "N" in destruct H as [H1 H];
                              apply negb_true_iff in H1
         end.
  unfold scrape_site.
  repeat match goal with
         | N : contains ?s website_url = false |- _ => rewrite N; clear N
         end.
  reflexivity.
Qed.

Lemma extract_article_fields (today : date) (records : list row)
      (source_url : string) (r : rule) (article_tag : tag)
      (stubs : list article) :
  extract_article today records source_url r article_tag = Ok stubs ->
  Forall (fun a =>
            source a = source_ r /\ ArticlesDatabase.source_url a = source_url
            /\ authors a = [] /\ pdf_url a = None /\ text a = None
            /\ exists u, url a = Some u
                         /\ (startswith u "https" = true
                             \/ startswith u source_url = true))
         stubs.
Proof.
  unfold extract_article. intros H.
  apply bind_Ok_inv in H. destruct H as [link [_ H]].
  destruct link as [link_url|]; [|injection H as <-; constructor].
  apply bind_Ok_inv in H. destruct H as [t [_ H]].
  apply bind_Ok_inv in H. destruct H as [d [_ H]].
  destruct (negb _); injection H as <-; constructor; [|constructor].
  simpl. repeat split. eexists. split; [reflexivity|].
  apply normalize_url_prefix.
Qed.

Lemma for_each_Forall {A B} (P : B -> Prop) (body : A -> result (list B))
      (l : list A) :
  (forall a x, body a = Ok x -> Forall P x) ->
  forall r, for_each body l = Ok r -> Forall P r.
Proof.
  intros Hb. induction l as [|a l IH]; simpl; intros r H.
  - injection H as <-. constructor.
  - apply bind_Ok_inv in H. destruct H as [x [Hx H]].
    apply bind_Ok_inv in H. destruct H as [rest [Hrest H]].
    injection H as <-. apply Forall_app. split; eauto.
Qed.

(** Every stub of the generic extractor carries the source and the base url
    it was called with, no authors, no pdf and no text, and a url that
    starts with [https] (the [href] as it was) or with the base url. *)
Theorem generic_stub_fields (today : date) (soup : option tag)
        (source_url : string) (records : list row) (r : rule)
        (articles : list article) :
  parse_website_for_article_links max_articles_per_site today soup source_url
                                  records r = Ok articles ->
  Forall (fun a =>
            source a = source_ r /\ ArticlesDatabase.source_url a = source_url
            /\ authors a = [] /\ pdf_url a = None /\ text a = None
            /\ exists u, url a = Some u
                         /\ (startswith u "https" = true
                             \/ startswith u source_url = true))
         articles.
Proof.
  unfold parse_website_for_article_links. intros H.
  apply bind_Ok_inv in H. destruct H as [s [_ H]].
  apply bind_Ok_inv in H. destruct H as [cs [_ H]].
  eapply for_each_Forall; [|exact H].
  intros x stubs. apply extract_article_fields.
Qed.

End RetrieverFacts.

(** *** The properties above on the small snapshot *)

Definition demo_twin : article :=
  mk_article (Some "Claude") (Some "2024-01-05")
             (Some "https://www.anthropic.com/news/claude-2")
             "https://www.anthropic.com" "anthropic" [] None None.

Lemma update_counts_distinct_new_urls_witness :
  2 = length (nodup string_dec
                (filter (fun u => truthy u
                                  && negb (is_article_already_fetched
                                             [demo_row] (Some u)))
                        (batch_urls [demo_article; demo_twin; demo_twin;
                                     arxiv_stub "2024-01-05"]))).
Proof.
  apply (update_counts_distinct_new_urls "data/docs" (fun _ => true)
           [demo_row]
           [demo_article; demo_twin; demo_twin; arxiv_stub "2024-01-05"] 2).
  reflexivity.
Defined.

Lemma update_same_batch_again_witness :
  update "data/docs" (fun _ => true) [demo_row] [demo_article]
  = (map clear_is_new [demo_row], Ok 0)
  /\ snd (get_new_articles (map clear_is_new [demo_row])) = [].
Proof.
  apply (update_same_batch_again "data/docs" (fun _ => true) [] [demo_row]
           [demo_article] 1).
  reflexivity.
Defined.

Lemma same_title_source_date_share_a_path_witness :
  exists ra rb,
    update "data/docs" (fun _ => true) [] [demo_article; demo_twin]
    = (map clear_is_new [] ++ [ra; rb], Ok 2)
    /\ row_url ra = "https://www.anthropic.com/news/claude"
    /\ row_url rb = "https://www.anthropic.com/news/claude-2"
    /\ article_file_path ra = article_file_path rb.
Proof.
  apply (same_title_source_date_share_a_path "data/docs" (fun _ => true) []
           demo_article demo_twin);
    try reflexivity; try discriminate; intros [].
Defined.

Lemma fetched_articles_have_distinct_site_urls_witness :
  NoDup (map url [demo_article])
  /\ Forall (fun a => exists u,
                 url a = Some u
                 /\ existsb (fun site => contains site u) content_sites = true)
            [demo_article].
Proof.
  apply (fetched_articles_have_distinct_site_urls
           20 ["https://www.anthropic.com/news"] demo_render
           (mk_date 2024 1 10) []).
  reflexivity.
Defined.

Lemma scrape_site_of_unknown_site_witness :
  scrape_site 20 (mk_date 2024 1 10) [demo_row] "https://example.org/news"
              demo_listing = Ok [].
Proof.
  apply (scrape_site_of_unknown_site 20 (mk_date 2024 1 10) [demo_row]
           "https://example.org/news" demo_listing).
  reflexivity.
Defined.

Lemma generic_stub_fields_witness :
  Forall (fun a =>
            source a = source_ anthropic_rule
            /\ ArticlesDatabase.source_url a = ANTHROPIC_URL
            /\ authors a = [] /\ pdf_url a = None /\ text a = None
            /\ exists u, url a = Some u
                         /\ (startswith u "https" = true
                             \/ startswith u ANTHROPIC_URL = true))
         [demo_stub].
Proof.
  apply (generic_stub_fields 20 (mk_date 2024 1 10) (Some demo_listing)
           ANTHROPIC_URL [] anthropic_rule [demo_stub]).
  reflexivity.
Defined.

Lemma scrape_article_outcomes_witness :
  match demo_render "https://www.anthropic.com/news/claude" with
  | None => scrape_article demo_render demo_stub = Raise NavigationError
  | Some soup =>
      if existsb (fun site =>
                    contains site "https://www.anthropic.com/news/claude")
                 content_sites
      then exists t, scrape_article demo_render demo_stub = Ok t
      else scrape_article demo_render demo_stub = Raise UnboundLocalError
  end.
Proof.
  apply (scrape_article_outcomes demo_render demo_stub
           "https://www.anthropic.com/news/claude").
  reflexivity.
Defined.

(* ================================================================== *)
(** * Configuration and names *)

Import PyBuiltins Config Utils.

(** ** [str.split] and [str.join] *)

Lemma split_not_nil (sep : ascii) (s : string) : split sep s <> [].
Proof.
  induction s as [|c r IH]; simpl; [discriminate|].
  destruct (Ascii.eqb c sep); [discriminate|].
  destruct (split sep r); discriminate.
Qed.

Lemma split_absent (sep : ascii) (s : string) :
  mem_char sep s = false -> split sep s = [s].
Proof.
  induction s as [|c r IH]; simpl; [reflexivity|]. intros H.
  apply orb_false_iff in H. destruct H as [Hc Hr].
  rewrite Ascii.eqb_sym, Hc, (IH Hr). reflexivity.
Qed.

Lemma split_app (sep : ascii) (a b : string) :
  split sep (a +++ String sep b) = split sep a ++ split sep b.
Proof.
  induction a as [|c a IH]; simpl.
  - now rewrite Ascii.eqb_refl.
  - destruct (Ascii.eqb c sep); [now rewrite IH|].
    rewrite IH. pose proof (split_not_nil sep a) as Hn.
    destruct (split sep a) as [|x xs]; [contradiction | reflexivity].
Qed.

Lemma split_pieces (sep : ascii) (s : string) :
  Forall (fun x => mem_char sep x = false) (split sep s).
Proof.
  induction s as [|c r IH]; simpl; [repeat constructor|].
  destruct (Ascii.eqb c sep) eqn:E; [constructor; [reflexivity | exact IH]|].
  destruct (split sep r) as [|x xs]; [repeat constructor|].
  - simpl. now rewrite Ascii.eqb_sym, E.
  - inversion IH; subst. constructor; [|assumption].
    simpl. rewrite Ascii.eqb_sym, E. assumption.
Qed.

Lemma split_join (sep : ascii) (l : list string) :
  l <> [] -> Forall (fun x => mem_char sep x = false) l ->
  split sep (join (String sep EmptyString) l) = l.
Proof.
  induction l as [|x l IH]; [contradiction|]. intros _ H.
  inversion H as [|? ? Hx Hl]; subst.
  destruct l as [|y l].
  - simpl. now apply split_absent.
  - change (join (String sep EmptyString) (x :: y :: l))
      with (x +++ String sep (join (String sep EmptyString) (y :: l))).
    rewrite split_app, (split_absent _ _ Hx), IH by (discriminate || assumption).
    reflexivity.
Qed.

Lemma join_split (sep : ascii) (s : string) :
  join (String sep EmptyString) (split sep s) = s.
Proof.
  induction s as [|c r IH]; simpl; [reflexivity|].
  destruct (Ascii.eqb c sep) eqn:E.
  - apply Ascii.eqb_eq in E. subst c.
    pose proof (split_not_nil sep r) as Hn.
    destruct (split sep r) as [|x xs]; [contradiction|].
    change (join (String sep EmptyString) (EmptyString :: x :: xs))
      with (String sep (join (String sep EmptyString) (x :: xs))).
    now rewrite IH.
  - pose proof (split_not_nil sep r) as Hn.
    destruct (split sep r) as [|x xs]; [contradiction|].
    destruct xs as [|y ys]; simpl in *; now rewrite <- IH.
Qed.

(** ** [Config.get] *)

Section ConfigProperties.

Context {A : Type}.

(** A dotted key is the path of its components: for names without a dot,
    [get] of the names joined by dots walks the nested [dict]s name by
    name, and gives the default as soon as a name is missing or the value
    reached is not a [dict]. *)
Theorem get_walks_the_path (config default : value A) (names : list string) :
  names <> [] ->
  Forall (fun k => mem_char "." k = false) names ->
  get config (join "." names) default = get_loop config names default.
Proof.
  intros Hne Hnames. unfold get. cbv zeta. now rewrite split_join.
Qed.

Lemma lookup_dotted (items : list (string * value A)) (k : string) :
  Forall (fun item => mem_char "." (fst item) = true) items ->
  mem_char "." k = false -> lookup_key k items = None.
Proof.
  induction items as [|[k' v] rest IH]; simpl; intros H Hk; [reflexivity|].
  inversion H; subst. simpl in *.
  destruct (String.eqb k k') eqn:E; [|now apply IH].
  apply String.eqb_eq in E. subst k'. congruence.
Qed.

(** An entry whose name holds a dot cannot be read: the name is cut at its
    dots before the first lookup.  A [dict] that has only such entries
    answers every key, the empty one included, with the default. *)
Theorem get_never_reads_dotted_names (items : list (string * value A))
        (key : string) (default : value A) :
  Forall (fun item => mem_char "." (fst item) = true) items ->
  get (Dict items) key default = default.
Proof.
  intros H. unfold get. cbv zeta.
  pose proof (split_pieces "." key) as Hp.
  pose proof (split_not_nil "." key) as Hn.
  destruct (split "." key) as [|k rest]; [contradiction|].
  inversion Hp; subst. simpl. now rewrite (lookup_dotted items k).
Qed.

End ConfigProperties.

(** ** [to_camel_case] *)

Lemma join_empty_app (l1 l2 : list string) :
  join EmptyString (l1 ++ l2) = join EmptyString l1 +++ join EmptyString l2.
Proof.
  induction l1 as [|x l1 IH]; [reflexivity|].
  destruct l1 as [|y l1].
  - simpl. destruct l2 as [|z l2]; [now rewrite append_empty_r | reflexivity].
  - change (join EmptyString ((x :: y :: l1) ++ l2))
      with (x +++ EmptyString +++ join EmptyString ((y :: l1) ++ l2)).
    rewrite IH. simpl. now rewrite append_assoc.
Qed.

(** Capitalised: the first letter in upper case, the rest as it is. *)
Definition capitalized (word : string) : string :=
  match word with
  | EmptyString => EmptyString
  | String c r => String (upper_char c) r
  end.

Lemma title_from_lower (s : string) :
  all_chars is_lower s = true -> str_title_from true s = s.
Proof.
  induction s as [|c r IH]; simpl; [reflexivity|]. intros H.
  apply andb_true_iff in H. destruct H as [Hc Hr].
  rewrite Hc, orb_true_r, (IH Hr). unfold lower_char.
  replace (is_upper c) with false; [reflexivity|].
  unfold is_lower, is_upper, between in *.
  apply andb_true_iff in Hc. destruct Hc as [H1 H2].
  apply Nat.leb_le in H1. symmetry. apply andb_false_iff. right.
  apply Nat.leb_gt. lia.
Qed.

Lemma title_lower_word (w : string) :
  all_chars is_lower w = true -> str_title w = capitalized w.
Proof.
  destruct w as [|c r]; [reflexivity|]. simpl. intros H.
  apply andb_true_iff in H. destruct H as [Hc Hr].
  unfold str_title. simpl. now rewrite Hc, orb_true_r, title_from_lower.
Qed.

Lemma lower_has_no_underscore (w : string) :
  all_chars is_lower w = true -> mem_char "_" w = false.
Proof.
  induction w as [|c r IH]; cbn [mem_char all_chars]; [reflexivity|].
  intros H. apply andb_true_iff in H. destruct H as [Hc Hr]. rewrite (IH Hr).
  rewrite orb_false_r. destruct (Ascii.eqb "_" c) eqn:E; [|reflexivity].
  apply Ascii.eqb_eq in E. subst c. discriminate.
Qed.

(** On lower-case words joined by underscores, [to_camel_case] gives the
    words capitalised and joined without a separator. *)
Theorem to_camel_case_of_snake_case (words : list string) :
  words <> [] ->
  Forall (fun w => all_chars is_lower w = true) words ->
  to_camel_case (join "_" words) = join EmptyString (map capitalized words).
Proof.
  intros Hne Hw. unfold to_camel_case. cbv zeta.
  rewrite split_join.
  - f_equal. apply map_ext_in. intros w Hin. apply title_lower_word.
    rewrite Forall_forall in Hw. now apply Hw.
  - assumption.
  - eapply Forall_impl; [|exact Hw]. apply lower_has_no_underscore.
Qed.

Lemma title_from_no_underscore (s : string) :
  forall p, mem_char "_" s = false -> mem_char "_" (str_title_from p s) = false.
Proof.
  induction s as [|c r IH]; cbn [mem_char str_title_from]; intros p H;
    [reflexivity|].
  apply orb_false_iff in H. destruct H as [Hc Hr].
  rewrite (IH _ Hr), orb_false_r.
  assert (Hcase : Ascii.eqb "_" (lower_char c) = false
                  /\ Ascii.eqb "_" (upper_char c) = false).
  { pose proof (ascii_forall
                  (fun d => implb (negb (Ascii.eqb "_" d))
                                  (negb (Ascii.eqb "_" (lower_char d))
                                   && negb (Ascii.eqb "_" (upper_char d))))
                  eq_refl c) as Hd.
    cbv beta in Hd. rewrite Hc in Hd. cbn [negb implb] in Hd.
    apply andb_true_iff in Hd. destruct Hd as [H1 H2].
    now rewrite !negb_true_iff in *. }
  destruct Hcase. now destruct p.
Qed.

Lemma mem_char_join_empty (c : ascii) (l : list string) :
  Forall (fun x => mem_char c x = false) l ->
  mem_char c (join EmptyString l) = false.
Proof.
  induction l as [|x l IH]; [reflexivity|]. intros H.
  inversion H; subst. destruct l as [|y l]; [assumption|].
  change (join EmptyString (x :: y :: l))
    with (x +++ EmptyString +++ join EmptyString (y :: l)).
  rewrite !mem_char_app, IH by assumption. simpl. now rewrite H2.
Qed.

(** On ASCII names [to_camel_case] works piece by piece: the result for
    [a_b] is the result for [a] followed by the result for [b]; and no
    underscore is left in a result. *)
Theorem to_camel_case_by_pieces (a b : string) :
  all_chars is_ascii a = true -> all_chars is_ascii b = true ->
  to_camel_case (a +++ "_" +++ b) = to_camel_case a +++ to_camel_case b
  /\ mem_char "_" (to_camel_case a) = false.
Proof.
  intros _ _. unfold to_camel_case. cbv zeta. split.
  - change (a +++ "_" +++ b) with (a +++ String "_" b).
    now rewrite split_app, map_app, join_empty_app.
  - apply mem_char_join_empty. apply Forall_forall. intros x Hx.
    apply in_map_iff in Hx. destruct Hx as [w [<- Hw]].
    apply title_from_no_underscore.
    pose proof (split_pieces "_" a) as Hp. rewrite Forall_forall in Hp.
    now apply Hp.
Qed.

(* ================================================================== *)
(** * The agents that search *)

Import SearchAgents.

Lemma endswith_app (a suffix : string) : endswith (a +++ suffix) suffix = true.
Proof.
  induction a as [|c a IH].
  - change (EmptyString +++ suffix) with suffix.
    destruct suffix; cbn [endswith]; now rewrite String.eqb_refl.
  - change (String c a +++ suffix) with (String c (a +++ suffix)).
    cbn [endswith]. rewrite IH. apply orb_true_r.
Qed.

Lemma ends_with_endswith (suffix s : string) :
  ends_with suffix s -> endswith s suffix = true.
Proof. intros [stem ->]. apply endswith_app. Qed.

Section SearchLimit.

Variable world : Type.
Variable R : Type.
Variable run : world -> string -> world * option R.

Definition is_response (a : answer R) : bool :=
  match a with Response _ => true | _ => false end.

Definition responses (answers : list (answer R)) : nat :=
  length (filter is_response answers).

Lemma chats_counts (user_msgs : list string) :
  forall (self self' : counters) (w w' : world) (answers : list (answer R)),
    chats world R run self w user_msgs = (self', w', answers) ->
    max_search_calls self' = max_search_calls self
    /\ count_search_calls self'
       = (count_search_calls self + Z.of_nat (responses answers))%Z
    /\ length answers = length user_msgs
    /\ ((count_search_calls self <= max_search_calls self)%Z ->
        (count_search_calls self' <= max_search_calls self)%Z).
Proof.
  induction user_msgs as [|m rest IH]; simpl; intros self self' w w' answers H.
  - injection H as <- <- <-. unfold responses. simpl. repeat split; lia.
  - unfold chat, run_ in H.
    destruct (max_search_calls self <=? count_search_calls self)%Z eqn:E.
    + destruct (chats world R run self w rest) as [[s1 w1] a1] eqn:E1.
      injection H as <- <- <-. destruct (IH _ _ _ _ _ E1) as [H1 [H2 [H3 H4]]].
      unfold responses in *. simpl. repeat split; try lia; congruence.
    + destruct (run w m) as [w1 [r|]].
      * destruct (chats world R run _ w1 rest) as [[s2 w2] a2] eqn:E2.
        injection H as <- <- <-.
        destruct (IH _ _ _ _ _ E2) as [H1 [H2 [H3 H4]]].
        unfold responses in *. simpl in *. apply Z.leb_gt in E.
        repeat split; try lia; try congruence.
      * destruct (chats world R run self w1 rest) as [[s2 w2] a2] eqn:E2.
        injection H as <- <- <-.
        destruct (IH _ _ _ _ _ E2) as [H1 [H2 [H3 H4]]].
        unfold responses in *. simpl. repeat split; try lia; congruence.
Qed.

(** The counter of an agent counts the searches that were answered, and
    never passes the limit: over any sequence of [chat] calls that starts
    at or below the limit, at most [max_search_calls - count_search_calls]
    calls get a response of the workflow.  A search that raises is not
    counted. *)
Theorem search_calls_stay_within_limit (self self' : counters) (w w' : world)
        (user_msgs : list string) (answers : list (answer R)) :
  (count_search_calls self <= max_search_calls self)%Z ->
  chats world R run self w user_msgs = (self', w', answers) ->
  count_search_calls self'
  = (count_search_calls self + Z.of_nat (responses answers))%Z
  /\ (count_search_calls self' <= max_search_calls self')%Z
  /\ (Z.of_nat (responses answers)
      <= max_search_calls self - count_search_calls self)%Z.
Proof.
  intros Hle H. destruct (chats_counts _ _ _ _ _ _ H) as [H1 [H2 [_ H4]]].
  specialize (H4 Hle). repeat split; lia.
Qed.

(** Once the limit is reached it stays reached: every later [chat] is
    refused without running the workflow, whatever the message, and the
    agent has no way back. *)
Theorem search_limit_is_final (self : counters) (w : world)
        (user_msgs : list string) :
  (max_search_calls self <= count_search_calls self)%Z ->
  chats world R run self w user_msgs
  = (self, w, map (fun _ => LimitReached) user_msgs).
Proof.
  intros Hle. induction user_msgs as [|m rest IH]; simpl; [reflexivity|].
  unfold chat, run_. apply Z.leb_le in Hle. rewrite Hle.
  apply Z.leb_le in Hle. now rewrite IH.
Qed.

End SearchLimit.

(* ================================================================== *)
(** * The session with the user *)

Import ArticlesMultiAgent.

Lemma bye_is_no_number : int_of_string "/bye" = None.
Proof. reflexivity. Qed.

(** The lines of the listing of stored rows. *)
Fixpoint listing_lines (index : nat) (rows : list row) : string :=
  match rows with
  | [] => EmptyString
  | r :: rest =>
      String (ascii_of_nat 9) (str_of_nat index +++ ") ")
      +++ format_opt (row_title r) +++ " - " +++ row_source r
      +++ ", " +++ format_opt (row_publish_date r)
      +++ String (ascii_of_nat 10) EmptyString
      +++ listing_lines (S index) rest
  end.

Lemma str_of_cell_opt (o : option string) :
  str_of_cell (cell_of_opt o) = format_opt o.
Proof. now destruct o. Qed.

Lemma printable_from_rows (rows : list row) :
  forall (index : nat) (output : string),
    printable_from index (map row_values rows) output
    = Return (output +++ listing_lines index rows).
Proof.
  induction rows as [|r rows IH]; intros index output.
  - simpl. now rewrite append_empty_r.
  - cbn [map printable_from].
    change (getitem (row_values r) 2) with (Some (cell_of_opt (row_title r))).
    change (getitem (row_values r) 3) with (Some (CStr (row_source r))).
    change (getitem (row_values r) 4)
      with (Some (cell_of_opt (row_publish_date r))).
    cbv iota beta zeta. rewrite IH. f_equal.
    cbn [listing_lines str_of_cell]. rewrite !str_of_cell_opt.
    now rewrite !append_assoc.
Qed.

(** The listing of stored rows never fails. *)
Lemma printable_rows (rows : list row) :
  get_printable_articles_list (map row_values rows)
  = Return (listing_lines 0 rows).
Proof. unfold get_printable_articles_list. now rewrite printable_from_rows. Qed.

Lemma listing_is_not_bye (index : nat) (rows : list row) :
  String.eqb (listing_lines index rows) "/bye" = false.
Proof. destruct rows; reflexivity. Qed.

Section SessionProperties.

Variable world : Type.
Variable chat : world -> response_value -> world * chat_result.
Variable records : list row.
Variable current_hour : nat.

#[local] Abbreviation state := (ArticlesMultiAgent.state world).

(** A line that a menu of [n] entries refuses: a number outside
    [0 <= option < n]. *)
Definition refused (n : nat) (line : string) : Prop :=
  exists option, int_of_string line = Some option
                 /\ ((0 <=? option)%Z && (option <? Z.of_nat n)%Z) = false.

Lemma refused_not_bye (n : nat) (lines : list string) :
  Forall (refused n) lines -> ~ In "/bye" lines.
Proof.
  intros H Hin. rewrite Forall_forall in H.
  destruct (H _ Hin) as [k [Hk _]]. rewrite bye_is_no_number in Hk.
  discriminate.
Qed.

Lemma choose_spec (prompt : event) (n : nat) (lines : list string) :
  exists refused_lines,
    Forall (refused n) refused_lines
    /\ match choose prompt n lines with
       | (events, rest, r) =>
           Forall (fun e => e = prompt \/ e = InvalidOption) events
           /\ match r with
              | Return (ChoiceInt option) =>
                  exists line,
                    lines = refused_lines ++ line :: rest
                    /\ int_of_string line = Some option
                    /\ (0 <= option < Z.of_nat n)%Z
              | Return (ChoiceText text_) =>
                  lines = refused_lines ++ text_ :: rest
                  /\ int_of_string text_ = None
              | Throw e =>
                  e = EOFError /\ rest = [] /\ lines = refused_lines
              end
       end.
Proof.
  induction lines as [|line rest IH].
  - exists []. simpl. repeat split; repeat constructor.
  - cbn [choose]. destruct (int_of_string line) as [k|] eqn:Ek.
    + destruct ((0 <=? k)%Z && (k <? Z.of_nat n)%Z) eqn:Er.
      * exists []. split; [constructor|]. split; [repeat constructor; now left|].
        exists line. apply andb_true_iff in Er. destruct Er as [E1 E2].
        apply Z.leb_le in E1. apply Z.ltb_lt in E2. repeat split; auto.
      * destruct IH as [pre [Hpre IH]].
        destruct (choose prompt n rest) as [[events rest'] r].
        destruct IH as [Hev IH].
        exists (line :: pre). split.
        { constructor; [|assumption]. exists k. now split. }
        split; [constructor; [now left|]; constructor; [now right|]; assumption|].
        destruct r as [[k'|t]|e].
        -- destruct IH as [l [-> H]]. exists l. now split.
        -- destruct IH as [-> H]. now split.
        -- destruct IH as [-> [-> ->]]. now repeat split.
    + exists []. split; [constructor|]. split; [repeat constructor; now left|].
      now split.
Qed.

Lemma interactive_menu_eq (options : list string) (st : state) :
  interactive_menu world options st
  = let '(events, rest, r) :=
      choose AskOption (length options) (inputs world st) in
    (mk_state world rest
              (printed world st ++ MenuHeader :: menu_lines 0 options ++ events)
              (agent world st) (articles world st), r).
Proof.
  unfold interactive_menu, bindM, print, write, ask. simpl.
  destruct (choose AskOption (length options) (inputs world st))
    as [[events rest] r].
  now rewrite <- !app_assoc.
Qed.

(** What [interactive_menu] returns.  It reads lines until one is a number
    of an entry or no number at all: a number it returns is the number of
    an entry of the menu, a text it returns is the line as it was typed and
    is no number; the lines it skipped were numbers outside the menu.  It
    calls no agent and leaves the list of articles alone. *)
Theorem interactive_menu_choice (options : list string) (st : state) :
  exists refused_lines,
    Forall (refused (length options)) refused_lines
    /\ match interactive_menu world options st with
       | (st', r) =>
           agent world st' = agent world st
           /\ articles world st' = articles world st
           /\ match r with
              | Return (ChoiceInt option) =>
                  exists line,
                    inputs world st
                    = refused_lines ++ line :: inputs world st'
                    /\ int_of_string line = Some option
                    /\ (0 <= option < Z.of_nat (length options))%Z
              | Return (ChoiceText text_) =>
                  inputs world st = refused_lines ++ text_ :: inputs world st'
                  /\ int_of_string text_ = None
              | Throw e =>
                  e = EOFError /\ inputs world st' = []
                  /\ inputs world st = refused_lines
              end
       end.
Proof.
  rewrite interactive_menu_eq.
  destruct (choose_spec AskOption (length options) (inputs world st))
    as [pre [Hpre H]].
  exists pre. split; [assumption|].
  destruct (choose AskOption (length options) (inputs world st))
    as [[events rest] r].
  destruct H as [_ H]. simpl. now repeat split.
Qed.

(** The messages a piece of the trace sent to [chat]. *)
Definition messages (events : list event) : list response_value :=
  flat_map (fun e => match e with Asked m => [m] | _ => [] end) events.

Lemma messages_app (a b : list event) :
  messages (a ++ b) = messages a ++ messages b.
Proof. unfold messages. now rewrite flat_map_app. Qed.

Lemma messages_menu_lines (options : list string) :
  forall key, messages (menu_lines key options) = [].
Proof. induction options as [|o l IH]; intros key; simpl; auto. Qed.

Lemma messages_of_prompts (prompt : event) (events : list event) :
  messages [prompt] = [] ->
  Forall (fun e => e = prompt \/ e = InvalidOption) events ->
  messages events = [].
Proof.
  intros Hp. induction 1 as [|e l [->| ->] _ IH]; [reflexivity| |exact IH].
  change (prompt :: l) with ([prompt] ++ l).
  now rewrite messages_app, Hp, IH.
Qed.

(** [interactive_menu], with what it writes. *)
Lemma interactive_menu_spec (options : list string) (st : state) :
  match interactive_menu world options st with
  | (st', r) =>
      exists refused_lines events,
        Forall (refused (length options)) refused_lines
        /\ printed world st' = printed world st ++ events
        /\ messages events = []
        /\ agent world st' = agent world st
        /\ articles world st' = articles world st
        /\ match r with
           | Return (ChoiceInt option) =>
               exists line,
                 inputs world st = refused_lines ++ line :: inputs world st'
                 /\ int_of_string line = Some option
                 /\ (0 <= option < Z.of_nat (length options))%Z
           | Return (ChoiceText text_) =>
               inputs world st = refused_lines ++ text_ :: inputs world st'
               /\ int_of_string text_ = None
           | Throw e =>
               e = EOFError /\ inputs world st' = []
               /\ inputs world st = refused_lines
           end
  end.
Proof.
  rewrite interactive_menu_eq.
  destruct (choose_spec AskOption (length options) (inputs world st))
    as [pre [Hpre H]].
  destruct (choose AskOption (length options) (inputs world st))
    as [[events rest] r].
  destruct H as [Hev H].
  exists pre, (MenuHeader :: menu_lines 0 options ++ events).
  simpl. repeat split; try assumption.
  change (MenuHeader :: menu_lines 0 options ++ events)
    with ([MenuHeader] ++ menu_lines 0 options ++ events).
  rewrite !messages_app, messages_menu_lines.
  now rewrite (messages_of_prompts AskOption events).
Qed.

(** The list [articles] holds rows of the store. *)
Definition listed (st : state) : Prop :=
  exists rows, articles world st = map row_values rows /\ incl rows records.

(** The list [articles] is what one of the two accessors returns. *)
Definition from_accessor (st : state) : Prop :=
  articles world st = snd (get_new_articles records)
  \/ articles world st = snd (get_all_articles records).

Lemma from_accessor_listed (st : state) : from_accessor st -> listed st.
Proof.
  intros [H|H]; unfold listed; rewrite H; simpl.
  - exists (filter is_new records). split; [reflexivity|].
    intros r Hr. now apply filter_In in Hr.
  - exists records. split; [reflexivity | apply incl_refl].
Qed.

(** The requests about the stored row [r]. *)
Definition requests_about (r : row) : list string :=
  article_requests
    (prompt_header (row_title r) (row_source r) (row_publish_date r)
                   (CStr (row_url r)))
    (if negb (has_text r) then browse_first else retrieve_first).

Lemma request_is_not_bye (r : row) (s : string) :
  In s (requests_about r) -> is_bye (VStr s) = false.
Proof.
  unfold requests_about, article_requests, prompt_header.
  intros [<-|[<-|[<-|[]]]]; reflexivity.
Qed.

Lemma getitem_in_range {A : Type} (l : list A) (i : Z) :
  (0 <= i < Z.of_nat (length l))%Z ->
  exists x, getitem l i = Some x /\ nth_error l (Z.to_nat i) = Some x.
Proof.
  intros [H0 H1]. unfold getitem. apply Z.leb_le in H0 as H0'. rewrite H0'.
  destruct (nth_error l (Z.to_nat i)) as [x|] eqn:E; [eauto|].
  apply nth_error_None in E. lia.
Qed.

Lemma hd_filter {A : Type} (p : A -> bool) (l : list A) (x : A) :
  In x l -> p x = true ->
  exists first, hd_error (filter p l) = Some first
                /\ In first l /\ p first = true.
Proof.
  induction l as [|y l IH]; [contradiction|]. intros Hin Hp. simpl.
  destruct (p y) eqn:Ey.
  - exists y. simpl. repeat split; auto.
  - destruct Hin as [->|Hin]; [congruence|].
    destruct (IH Hin Hp) as [f [H1 [H2 H3]]]. exists f. auto.
Qed.

Lemma not_in_app_one (a : list string) (x : string) :
  ~ In "/bye" a -> x <> "/bye" -> ~ In "/bye" (a ++ [x]).
Proof.
  intros Ha Hx Hin. apply in_app_iff in Hin.
  destruct Hin as [Hin|[Hin|[]]]; auto.
Qed.

Lemma number_is_not_bye (line : string) (k : Z) :
  int_of_string line = Some k -> line <> "/bye".
Proof. intros H ->. rewrite bye_is_no_number in H. discriminate. Qed.

(** No [/bye] among lines that were refused or read as numbers. *)
Ltac no_bye :=
  let Hin := fresh "Hin" in
  intros Hin;
  repeat (rewrite in_app_iff in Hin || simpl in Hin);
  repeat match goal with
         | H : _ \/ _ |- _ => destruct H
         | H : False |- _ => destruct H
         end;
  try contradiction;
  subst;
  match goal with
  | H : int_of_string "/bye" = Some _ |- _ =>
      rewrite bye_is_no_number in H; discriminate
  end.

(** What the user typed to come to a result [s] of [explore_article]:
    either [s] itself, as the last line, which is no number; or numbers
    only, and [s] is a request about a stored row. *)
Definition explored (typed : list string) (s : string) : Prop :=
  (exists lines, typed = lines ++ [s] /\ ~ In "/bye" lines
                 /\ int_of_string s = None)
  \/ (~ In "/bye" typed /\ exists r, In r records /\ In s (requests_about r)).

Lemma explore_article_spec (st : state) :
  listed st ->
  match explore_article world chat records st with
  | (st', r) =>
      exists typed events,
        inputs world st = typed ++ inputs world st'
        /\ printed world st' = printed world st ++ events
        /\ messages events = []
        /\ agent world st' = agent world st
        /\ articles world st' = articles world st
        /\ match r with
           | Return (QueryAgent (VStr s)) => typed <> [] /\ explored typed s
           | Return _ => False
           | Throw e =>
               e = EOFError /\ inputs world st' = [] /\ ~ In "/bye" typed
           end
  end.
Proof.
  intros [rows [Hrows Hincl]].
  unfold explore_article, bindM at 1, get_articles.
  unfold bindM at 1, ask.
  destruct (choose_spec AskArticle (length (articles world st))
                        (inputs world st)) as [pre [Hpre H]].
  destruct (choose AskArticle (length (articles world st)) (inputs world st))
    as [[events rest] r].
  destruct H as [Hev H].
  assert (Hm : messages events = [])
    by now apply (messages_of_prompts AskArticle).
  pose proof (refused_not_bye _ _ Hpre) as Hnb.
  destruct r as [[k|t]|e].
  - (* a number of the list *)
    destruct H as [line [Hin [Hk Hrange]]].
    destruct (getitem_in_range _ _ Hrange) as [article [Hget Hnth]].
    cbn [inputs printed agent articles].
    unfold bindM at 1. unfold lift_option at 1. rewrite Hget.
    unfold ret at 1.
    rewrite Hrows in Hnth. rewrite nth_error_map in Hnth.
    destruct (nth_error rows (Z.to_nat k)) as [r|] eqn:Er; [|discriminate].
    injection Hnth as <-. apply nth_error_In in Er. apply Hincl in Er.
    unfold bindM at 1.
    change (getitem (row_values r) 0) with (Some (CStr (row_url r))).
    unfold lift_option at 1, ret at 1.
    destruct (hd_filter (fun x => cell_eqb (CStr (row_url x))
                                           (CStr (row_url r)))
                        records r Er) as [first [Hhd [Hfirst Hsame]]].
    { simpl. apply String.eqb_refl. }
    unfold bindM at 1. rewrite Hhd. unfold lift_option at 1, ret at 1.
    simpl in Hsame. apply String.eqb_eq in Hsame.
    unfold bindM at 1.
    match goal with
    | |- context [interactive_menu world article_menu ?s] =>
        pose proof (interactive_menu_spec article_menu s) as Hmenu;
        destruct (interactive_menu world article_menu s) as [st1 r1]
    end.
    destruct Hmenu as [pre1 [ev1 [Hpre1 [Hp1 [Hm1 [Ha1 [Hl1 H1]]]]]]].
    cbn [inputs printed agent articles] in Hp1, Ha1, Hl1, H1.
    pose proof (refused_not_bye _ _ Hpre1) as Hnb1.
    assert (Hhead : ~ In "/bye" (pre ++ [line])).
    { apply not_in_app_one; [assumption|]. eapply number_is_not_bye; eauto. }
    destruct r1 as [[j|t]|e].
    + destruct H1 as [line1 [Hin1 [Hj Hrange1]]].
      change (Z.of_nat (length article_menu)) with 3%Z in Hrange1.
      assert (Hreq : exists request,
                 option_of_key
                   (map (fun request => ret world (Str request))
                        (article_requests
                           (prompt_header (row_title first) (row_source first)
                              (row_publish_date first) (CStr (row_url r)))
                           (if negb (has_text first) then browse_first
                            else retrieve_first))) j
                 = Some (ret world (Str request))
                 /\ In request (requests_about first)).
      { unfold requests_about. rewrite Hsame.
        assert (Hj3 : j = 0%Z \/ j = 1%Z \/ j = 2%Z) by lia.
        destruct Hj3 as [-> | [-> | ->]]; eexists; (split; [reflexivity|]);
          simpl; auto. }
      destruct Hreq as [request [Hopt Hreq]].
      unfold perform_selected_option, bindM. unfold lift_option. rewrite Hopt.
      unfold ret.
      exists ((pre ++ [line]) ++ pre1 ++ [line1]), (events ++ ev1).
      rewrite Hin, Hin1, Hp1, Ha1, Hl1, !messages_app, Hm, Hm1.
      rewrite <- !app_assoc. simpl. repeat split.
      * destruct pre; discriminate.
      * right. split; [no_bye | eauto].
    + destruct H1 as [Hin1 Ht].
      unfold perform_selected_option, bindM, ret.
      exists ((pre ++ [line]) ++ pre1 ++ [t]), (events ++ ev1).
      rewrite Hin, Hin1, Hp1, Ha1, Hl1, !messages_app, Hm, Hm1.
      rewrite <- !app_assoc. simpl. repeat split.
      * destruct pre; discriminate.
      * left. exists (pre ++ line :: pre1). rewrite <- !app_assoc. simpl.
        repeat split; [no_bye | assumption].
    + destruct H1 as [-> [Hend Hin1]].
      exists ((pre ++ [line]) ++ pre1), (events ++ ev1).
      rewrite Hin, Hin1, Hp1, Ha1, Hl1, Hend, !messages_app, Hm, Hm1.
      rewrite <- !app_assoc, app_nil_r. simpl. repeat split. no_bye.
  - (* a text *)
    destruct H as [Hin Ht]. unfold ret. cbn [inputs printed agent articles].
    exists (pre ++ [t]), events. rewrite Hin, <- app_assoc. simpl.
    repeat split; try assumption.
    + destruct pre; discriminate.
    + left. exists pre. now repeat split.
  - (* the end of the input *)
    destruct H as [-> [-> ->]]. cbn [inputs printed agent articles].
    exists pre, events. rewrite app_nil_r. now repeat split.
Qed.

(** A message the session may send to [chat]: a line the user typed that
    is no number and is not [/bye], or a request about a stored row. *)
Definition fair_message (typed : list string) (m : response_value) : Prop :=
  exists s, m = VStr s /\ s <> "/bye"
            /\ ((In s typed /\ int_of_string s = None)
                \/ exists r, In r records /\ In s (requests_about r)).

(** [chat] may fail with an exception whose text is [/bye]. *)
Definition chat_may_fail_with_bye : Prop :=
  exists w m w', chat w m = (w', ChatFailed "/bye").

(** One turn of the loop of [start]: the menu, then the option. *)
Definition turn : M world response_value :=
  bindM world (interactive_menu world main_menu)
        (fun option =>
           perform_selected_option world chat option
                                   (main_options world chat records)
                                   CodeQueryAgent).

(** How a turn, or a whole session, may end. *)
Definition ends_by_bye (typed : list string) : Prop :=
  (exists lines, typed = lines ++ ["/bye"] /\ ~ In "/bye" lines)
  \/ (~ In "/bye" typed /\ chat_may_fail_with_bye).

Lemma perform_rows (rows : list row) (options : list (M world operation))
      (key : Z) (force : response_code) (st : state) :
  option_of_key options key
  = Some (ret world (ArticlesList (map row_values rows))) ->
  perform_selected_option world chat (ChoiceInt key) options force st
  = if 0 <? length rows
    then (mk_state world (inputs world st)
                   (printed world st ++ [ListHeader]) (agent world st)
                   (map row_values rows),
          Return (VStr (listing_lines 0 rows)))
    else (st, Return VNoMatch).
Proof.
  intros H. unfold perform_selected_option, bindM, lift_option. rewrite H.
  unfold ret. rewrite length_map. destruct (0 <? length rows); [|reflexivity].
  unfold print, write, set_articles, get_articles, lift. simpl.
  now rewrite printable_rows.
Qed.

Lemma ask_agent_spec (s : string) (st : state) :
  match (if negb (is_bye (VStr s)) then call_chat world chat (VStr s)
         else ret world (VStr s)) st with
  | (st', r) =>
      exists events,
        inputs world st' = inputs world st
        /\ printed world st' = printed world st ++ events
        /\ articles world st' = articles world st
        /\ ((s = "/bye" /\ messages events = [] /\ r = Return (VStr "/bye"))
            \/ (s <> "/bye" /\ messages events = [VStr s]
                /\ exists v, r = Return v
                             /\ (is_bye v = true -> chat_may_fail_with_bye)))
  end.
Proof.
  destruct (is_bye (VStr s)) eqn:E; simpl in E |- *.
  - apply String.eqb_eq in E. subst s. unfold ret. exists [].
    rewrite app_nil_r. repeat split. left. now repeat split.
  - apply String.eqb_neq in E. unfold call_chat.
    destruct (chat (agent world st) (VStr s)) as [w' res] eqn:Ec.
    exists [Asked (VStr s)]. simpl. repeat split. right.
    repeat split; [assumption|].
    eexists. split; [reflexivity|]. intros Hb.
    destruct res as [d|str_e]; simpl in Hb; [discriminate|].
    apply String.eqb_eq in Hb. subst str_e. unfold chat_may_fail_with_bye.
    eauto.
Qed.

Lemma explored_after (a b : list string) (s : string) :
  ~ In "/bye" a -> explored b s -> explored (a ++ b) s.
Proof.
  intros Ha [[lines [-> [Hl Hi]]]|[Hb Hr]].
  - left. exists (a ++ lines). rewrite app_assoc. repeat split; auto. no_bye.
  - right. split; [no_bye | assumption].
Qed.

(** The end of [perform_selected_option] for a result of the operation
    [query_agent]. *)
Lemma query_agent_spec (typed : list string) (s : string) (st : state) :
  explored typed s ->
  match (if negb (is_bye (VStr s)) then call_chat world chat (VStr s)
         else ret world (VStr s)) st with
  | (st', r) =>
      exists events,
        inputs world st' = inputs world st
        /\ printed world st' = printed world st ++ events
        /\ articles world st' = articles world st
        /\ Forall (fair_message typed) (messages events)
        /\ exists v, r = Return v
                     /\ if is_bye v then ends_by_bye typed
                        else ~ In "/bye" typed
  end.
Proof.
  intros Hexp. pose proof (ask_agent_spec s st) as H.
  destruct ((if negb (is_bye (VStr s)) then call_chat world chat (VStr s)
             else ret world (VStr s)) st) as [st' r].
  destruct H as [events [Hi [Hp [Hl H]]]]. exists events.
  repeat split; try assumption.
  - destruct H as [[_ [-> _]]|[Hs [-> _]]]; constructor; [|constructor].
    exists s. repeat split; [assumption|].
    destruct Hexp as [[lines [-> [Hn Hnum]]]|[Hn Hr]]; [left | now right].
    split; [|assumption]. apply in_app_iff. right. now left.
  - destruct H as [[-> [_ ->]]|[Hs [_ [v [-> Hv]]]]].
    + exists (VStr "/bye"). split; [reflexivity|]. simpl.
      destruct Hexp as [[lines [-> [Hn Hnum]]]|[Hn [r0 [Hr Hreq]]]].
      * left. eauto.
      * apply request_is_not_bye in Hreq. discriminate.
    + exists v. split; [reflexivity|].
      assert (Hno : ~ In "/bye" typed).
      { destruct Hexp as [[lines [-> [Hn Hnum]]]|[Hn Hr]]; [|assumption].
        now apply not_in_app_one. }
      destruct (is_bye v); [|assumption]. right. auto.
Qed.

Lemma turn_spec (st : state) :
  from_accessor st ->
  match turn st with
  | (st', r) =>
      exists typed events,
        inputs world st = typed ++ inputs world st'
        /\ printed world st' = printed world st ++ events
        /\ from_accessor st'
        /\ Forall (fair_message typed) (messages events)
        /\ match r with
           | Throw e =>
               e = EOFError /\ inputs world st' = [] /\ ~ In "/bye" typed
           | Return v =>
               typed <> []
               /\ if is_bye v then ends_by_bye typed else ~ In "/bye" typed
           end
  end.
Proof.
  intros Hacc. unfold turn, bindM at 1.
  pose proof (interactive_menu_spec main_menu st) as Hmenu.
  destruct (interactive_menu world main_menu st) as [st1 r1].
  destruct Hmenu as [pre [ev1 [Hpre [Hp1 [Hm1 [Ha1 [Hl1 H1]]]]]]].
  pose proof (refused_not_bye _ _ Hpre) as Hnb.
  assert (Hacc1 : from_accessor st1).
  { unfold from_accessor in *. now rewrite Hl1. }
  destruct r1 as [[k|t]|e].
  - (* a number of the menu *)
    destruct H1 as [line [Hin [Hk Hrange]]].
    change (Z.of_nat (length main_menu)) with 3%Z in Hrange.
    assert (Hk3 : k = 0%Z \/ k = 1%Z \/ k = 2%Z) by lia.
    destruct Hk3 as [-> | [-> | ->]].
    + (* the new articles *)
      rewrite (perform_rows (filter is_new records)) by reflexivity.
      destruct (0 <? length (filter is_new records)).
      * exists (pre ++ [line]), (ev1 ++ [ListHeader]).
        cbn [inputs printed agent articles].
        rewrite Hin, Hp1, <- !app_assoc, messages_app, Hm1. simpl.
        split; [reflexivity|]. split; [reflexivity|].
        split; [now left|]. split; [constructor|].
        split; [destruct pre; discriminate|].
        rewrite listing_is_not_bye. no_bye.
      * exists (pre ++ [line]), ev1.
        rewrite Hin, Hp1, <- !app_assoc, Hm1. simpl.
        split; [reflexivity|]. split; [reflexivity|].
        split; [assumption|]. split; [constructor|].
        split; [destruct pre; discriminate | no_bye].
    + (* all the articles *)
      rewrite (perform_rows records) by reflexivity.
      destruct (0 <? length records).
      * exists (pre ++ [line]), (ev1 ++ [ListHeader]).
        cbn [inputs printed agent articles].
        rewrite Hin, Hp1, <- !app_assoc, messages_app, Hm1. simpl.
        split; [reflexivity|]. split; [reflexivity|].
        split; [now right|]. split; [constructor|].
        split; [destruct pre; discriminate|].
        rewrite listing_is_not_bye. no_bye.
      * exists (pre ++ [line]), ev1.
        rewrite Hin, Hp1, <- !app_assoc, Hm1. simpl.
        split; [reflexivity|]. split; [reflexivity|].
        split; [assumption|]. split; [constructor|].
        split; [destruct pre; discriminate | no_bye].
    + (* one article *)
      unfold perform_selected_option, bindM at 1, bindM at 1.
      change (lift_option world NoSuchOption
                (option_of_key (main_options world chat records) 2) st1)
        with (st1, Return (explore_article world chat records)).
      cbv iota beta. unfold bindM at 1.
      pose proof (explore_article_spec st1 (from_accessor_listed _ Hacc1))
        as Hex.
      destruct (explore_article world chat records st1) as [st2 r2].
      destruct Hex as [typed2 [ev2 [Hin2 [Hp2 [Hm2 [Ha2 [Hl2 H2]]]]]]].
      assert (Hacc2 : from_accessor st2).
      { unfold from_accessor in *. now rewrite Hl2. }
      destruct r2 as [[rows|s0|[s| |d]]|e]; try contradiction.
      * destruct H2 as [Hne Hexp]. unfold ret at 1. cbv iota beta.
        assert (Hexp' : explored ((pre ++ [line]) ++ typed2) s).
        { apply explored_after; [no_bye | assumption]. }
        pose proof (query_agent_spec _ s st2 Hexp') as Hask.
        destruct ((if negb (is_bye (VStr s))
                   then call_chat world chat (VStr s)
                   else ret world (VStr s)) st2) as [st3 r3].
        destruct Hask as [ev3 [Hin3 [Hp3 [Hl3 [Hfair [v [-> Hv]]]]]]].
        exists ((pre ++ [line]) ++ typed2), (ev1 ++ ev2 ++ ev3).
        rewrite Hin, Hin2, Hin3, Hp3, Hp2, Hp1, <- !app_assoc.
        rewrite !messages_app, Hm1, Hm2. simpl.
        repeat split; try assumption.
        -- unfold from_accessor in *. now rewrite Hl3.
        -- now rewrite <- !app_assoc in Hfair.
        -- destruct pre; discriminate.
        -- now rewrite <- !app_assoc in Hv.
      * destruct H2 as [-> [Hend Hnb2]].
        exists ((pre ++ [line]) ++ typed2), (ev1 ++ ev2).
        rewrite Hin, Hin2, Hp2, Hp1, Hend, <- !app_assoc, app_nil_r.
        rewrite !messages_app, Hm1, Hm2. simpl.
        split; [reflexivity|]. split; [reflexivity|].
        split; [assumption|]. split; [constructor|].
        split; [reflexivity|]. split; [reflexivity | no_bye].
  - (* a text *)
    destruct H1 as [Hin Ht].
    unfold perform_selected_option, bindM at 1, ret at 1. cbv iota beta.
    assert (Hexp : explored (pre ++ [t]) t).
    { left. exists pre. now repeat split. }
    pose proof (query_agent_spec _ t st1 Hexp) as Hask.
    destruct ((if negb (is_bye (VStr t)) then call_chat world chat (VStr t)
               else ret world (VStr t)) st1) as [st3 r3].
    destruct Hask as [ev3 [Hin3 [Hp3 [Hl3 [Hfair [v [-> Hv]]]]]]].
    exists (pre ++ [t]), (ev1 ++ ev3).
    rewrite Hin, Hin3, Hp3, Hp1, <- !app_assoc, messages_app, Hm1. simpl.
    repeat split; try assumption.
    + unfold from_accessor in *. now rewrite Hl3.
    + destruct pre; discriminate.
  - destruct H1 as [-> [Hend Hin]].
    exists pre, ev1. rewrite Hin, Hend, app_nil_r, Hm1.
    split; [reflexivity|]. split; [assumption|].
    split; [assumption|]. split; [constructor|].
    split; [reflexivity|]. split; [reflexivity | assumption].
Qed.

Lemma main_loop_step (fuel : nat) (st : state) :
  main_loop world chat records (S fuel) st
  = match turn st with
    | (st', Return result) =>
        if is_bye result then (st', Return tt)
        else main_loop world chat records fuel
                       (mk_state world (inputs world st')
                                 (printed world st' ++ [Printed result])
                                 (agent world st') (articles world st'))
    | (st', Throw e) => (st', Throw e)
    end.
Proof.
  cbn [main_loop]. unfold turn, bindM.
  destruct (interactive_menu world main_menu st) as [st1 [c|e]];
    [|reflexivity].
  destruct (perform_selected_option world chat c
              (main_options world chat records) CodeQueryAgent st1)
    as [st2 [v|e]]; [|reflexivity].
  destruct (is_bye v); reflexivity.
Qed.

Lemma fair_message_left (a b : list string) (m : response_value) :
  fair_message a m -> fair_message (a ++ b) m.
Proof.
  intros [s [Hs [Hn [[Hin Hi]|Hr]]]]; exists s; repeat split; auto.
  left. split; [|assumption]. apply in_app_iff. auto.
Qed.

Lemma fair_message_right (a b : list string) (m : response_value) :
  fair_message b m -> fair_message (a ++ b) m.
Proof.
  intros [s [Hs [Hn [[Hin Hi]|Hr]]]]; exists s; repeat split; auto.
  left. split; [|assumption]. apply in_app_iff. auto.
Qed.

Lemma ends_by_bye_after (a b : list string) :
  ~ In "/bye" a -> ends_by_bye b -> ends_by_bye (a ++ b).
Proof.
  intros Ha [[lines [-> Hl]]|[Hb Hc]].
  - left. exists (a ++ lines). rewrite app_assoc. split; [reflexivity|].
    no_bye.
  - right. split; [no_bye | assumption].
Qed.

Lemma main_loop_spec (fuel : nat) :
  forall st : state,
    from_accessor st ->
    length (inputs world st) < fuel ->
    match main_loop world chat records fuel st with
    | (st', r) =>
        exists typed events,
          inputs world st = typed ++ inputs world st'
          /\ printed world st' = printed world st ++ events
          /\ from_accessor st'
          /\ Forall (fair_message typed) (messages events)
          /\ match r with
             | Throw e =>
                 e = EOFError /\ inputs world st' = []
                 /\ ~ In "/bye" typed
             | Return _ => ends_by_bye typed
             end
    end.
Proof.
  induction fuel as [|fuel IH]; intros st Hacc Hlen; [lia|].
  rewrite main_loop_step. pose proof (turn_spec st Hacc) as Hturn.
  destruct (turn st) as [st1 [v|e]].
  - destruct Hturn as [typed [events [Hin [Hp [Hacc1 [Hfair [Hne Hv]]]]]]].
    destruct (is_bye v).
    + exists typed, events. now repeat split.
    + set (st2 := mk_state world (inputs world st1)
                           (printed world st1 ++ [Printed v])
                           (agent world st1) (articles world st1)).
      assert (Hacc2 : from_accessor st2) by exact Hacc1.
      assert (Hlen2 : length (inputs world st2) < fuel).
      { simpl. rewrite Hin, length_app in Hlen.
        destruct typed; [contradiction|]. simpl in Hlen. lia. }
      specialize (IH st2 Hacc2 Hlen2).
      destruct (main_loop world chat records fuel st2) as [st3 r].
      destruct IH as [typed' [events' [Hin' [Hp' [Hacc3 [Hfair' Hr]]]]]].
      exists (typed ++ typed'), (events ++ [Printed v] ++ events').
      simpl in Hin', Hp'.
      rewrite Hin, Hin', Hp', Hp, <- !app_assoc, !messages_app.
      split; [reflexivity|]. split; [reflexivity|]. split; [assumption|].
      split.
      * apply Forall_app. split.
        -- eapply Forall_impl; [|exact Hfair]. intros m.
           apply fair_message_left.
        -- simpl. eapply Forall_impl; [|exact Hfair']. intros m.
           apply fair_message_right.
      * destruct r as [u|e].
        -- now apply ends_by_bye_after.
        -- destruct Hr as [-> [Hend Hnb]]. repeat split; [assumption|].
           no_bye.
  - destruct Hturn as [typed [events [Hin [Hp [Hacc1 [Hfair Hr]]]]]].
    exists typed, events. now repeat split.
Qed.

(** The rows the first listing shows: the new ones, or all when none is
    new. *)
Definition first_rows : list row :=
  if 0 <? length (filter is_new records) then filter is_new records
  else records.

Definition first_state (w : world) (lines : list string) : state :=
  mk_state world lines
           [greeting current_hour;
            if 0 <? length (filter is_new records) then SomeNews else NoNews;
            Printed (VStr (listing_lines 0 first_rows))]
           w (map row_values first_rows).

Lemma session_eq (w : world) (lines : list string) :
  session world chat records current_hour w lines
  = match main_loop world chat records (S (length lines))
                    (first_state w lines) with
    | (st', Return _) =>
        (mk_state world (inputs world st') (printed world st' ++ [Goodbye])
                  (agent world st') (articles world st'), Return tt)
    | (st', Throw e) => (st', Throw e)
    end.
Proof.
  unfold session, start, first_state, first_rows.
  unfold bindM at 1. unfold print at 1, write at 1.
  cbn [inputs printed agent articles app].
  unfold bindM at 1. cbn [snd get_new_articles get_all_articles].
  rewrite length_map.
  destruct (0 <? length (filter is_new records));
    unfold bindM at 1, print at 1, write at 1, set_articles at 1;
    cbn [inputs printed agent articles app];
    unfold bindM at 1, get_articles at 1;
    cbn [inputs printed agent articles app];
    unfold bindM at 1, lift at 1; rewrite printable_rows;
    unfold bindM at 1, print at 1, write at 1;
    cbn [inputs printed agent articles app];
    unfold bindM at 1;
    match goal with
    | |- context [main_loop world chat records ?f ?s] =>
        destruct (main_loop world chat records f s) as [st' [u|e]]
    end; reflexivity.
Qed.

Lemma first_state_from_accessor (w : world) (lines : list string) :
  from_accessor (first_state w lines).
Proof.
  unfold from_accessor, first_state, first_rows. simpl.
  destruct (0 <? length (filter is_new records)); auto.
Qed.

Lemma session_spec (w : world) (lines : list string) :
  match session world chat records current_hour w lines with
  | (st', r) =>
      exists typed events,
        lines = typed ++ inputs world st'
        /\ printed world st' = printed world (first_state w lines) ++ events
        /\ from_accessor st'
        /\ Forall (fair_message typed) (messages events)
        /\ match r with
           | Throw e =>
               e = EOFError /\ inputs world st' = []
               /\ ~ In "/bye" typed
           | Return _ =>
               ends_by_bye typed /\ exists before, events = before ++ [Goodbye]
           end
  end.
Proof.
  rewrite session_eq.
  pose proof (main_loop_spec (S (length lines)) (first_state w lines)
                (first_state_from_accessor w lines)) as H.
  destruct (main_loop world chat records (S (length lines))
                      (first_state w lines)) as [st' [u|e]].
  - destruct H as [typed [events [Hin [Hp [Hacc [Hfair Hr]]]]]]; [simpl; lia|].
    exists typed, (events ++ [Goodbye]).
    cbn [inputs printed agent articles] in *. rewrite Hp, <- app_assoc.
    rewrite messages_app, app_nil_r.
    repeat split; try assumption. eauto.
  - destruct H as [typed [events [Hin [Hp [Hacc [Hfair Hr]]]]]]; [simpl; lia|].
    exists typed, events. now repeat split.
Qed.

(** How a session ends.  Whatever the store holds, whatever the user types
    and whatever the agents answer, a session ends in one of two ways: by
    [/bye], with the farewell, or by [EOFError] at the end of the input.
    No index is out of range, no menu lacks the key chosen, and the loop
    does not go on without reading.  A line [/bye] ends the session at
    whichever prompt it is read; without one, the session can only end if
    [chat] fails with an exception whose text is [/bye]. *)
Theorem session_ends_by_bye_or_end_of_input (w : world) (lines : list string) :
  (In "/bye" lines ->
   snd (session world chat records current_hour w lines) = Return tt)
  /\ (~ In "/bye" lines ->
      snd (session world chat records current_hour w lines) = Throw EOFError
      \/ (snd (session world chat records current_hour w lines) = Return tt
          /\ chat_may_fail_with_bye))
  /\ from_accessor (fst (session world chat records current_hour w lines)).
Proof.
  pose proof (session_spec w lines) as H.
  destruct (session world chat records current_hour w lines) as [st' r].
  destruct H as [typed [events [Hin [Hp [Hacc [Hfair Hr]]]]]]. simpl.
  split; [|split; [|assumption]].
  - intros Hbye. destruct r as [[]|e]; [reflexivity|].
    destruct Hr as [-> [Hend Hnb]]. exfalso. apply Hnb.
    rewrite Hin, Hend, app_nil_r in Hbye. assumption.
  - intros Hnb. destruct r as [[]|e].
    + right. split; [reflexivity|].
      destruct Hr as [[[l [-> Hl]]|[_ Hc]] _]; [|assumption].
      exfalso. apply Hnb. rewrite Hin, !in_app_iff. simpl. auto.
    + left. now destruct Hr as [-> _].
Qed.

Lemma first_occurrence (x : string) (l1 l2 r1 r2 : list string) :
  l1 ++ x :: r1 = l2 ++ x :: r2 -> ~ In x l1 -> ~ In x l2 ->
  l1 = l2 /\ r1 = r2.
Proof.
  revert l2. induction l1 as [|a l1 IH]; intros [|b l2] H H1 H2; simpl in *.
  - injection H as <-. now split.
  - injection H as <- _. exfalso. apply H2. now left.
  - injection H as -> _. exfalso. apply H1. now left.
  - injection H as <- H. destruct (IH l2 H) as [-> ->]; auto.
Qed.

(** The session reads up to the first [/bye] and no further: when [chat]
    does not fail with the text [/bye], the lines that follow the first
    [/bye] are left unread, and the last thing written is the farewell. *)
Theorem session_reads_up_to_bye (w : world) (before after : list string) :
  ~ chat_may_fail_with_bye ->
  ~ In "/bye" before ->
  snd (session world chat records current_hour w
               (before ++ "/bye" :: after)) = Return tt
  /\ inputs world (fst (session world chat records current_hour w
                                (before ++ "/bye" :: after))) = after
  /\ last (printed world (fst (session world chat records current_hour w
                                       (before ++ "/bye" :: after))))
          GoodMorning = Goodbye.
Proof.
  intros Hchat Hb.
  pose proof (session_spec w (before ++ "/bye" :: after)) as H.
  destruct (session world chat records current_hour w
                    (before ++ "/bye" :: after)) as [st' r].
  destruct H as [typed [events [Hin [Hp [Hacc [Hfair Hr]]]]]]. simpl.
  destruct r as [[]|e].
  - destruct Hr as [[[l [-> Hl]]|[_ Hc]] [ev ->]]; [|contradiction].
    rewrite <- app_assoc in Hin. simpl in Hin.
    destruct (first_occurrence _ _ _ _ _ Hin Hb Hl) as [_ <-].
    repeat split. rewrite Hp, app_assoc. apply last_last.
  - destruct Hr as [-> [Hend Hnb]]. exfalso. apply Hnb.
    rewrite Hend, app_nil_r in Hin. rewrite <- Hin, in_app_iff. simpl. auto.
Qed.

(** What the agents are asked.  Every message a session sends to [chat] is
    a line the user typed that is no number, or one of the three requests
    about a row of the store; [/bye] is never sent. *)
Theorem session_messages_are_fair (w : world) (lines : list string) :
  Forall (fair_message lines)
         (messages (printed world
                            (fst (session world chat records current_hour
                                          w lines)))).
Proof.
  pose proof (session_spec w lines) as H.
  destruct (session world chat records current_hour w lines) as [st' r].
  destruct H as [typed [events [Hin [Hp [Hacc [Hfair Hr]]]]]]. simpl.
  rewrite Hp, messages_app.
  replace (messages (printed world (first_state w lines))) with
    (@nil response_value)
    by (unfold first_state; simpl;
        destruct (current_hour), (0 <? length (filter is_new records));
        unfold greeting; simpl;
        repeat match goal with
               | |- context [if ?c then _ else _] => destruct c
               end; reflexivity).
  simpl. rewrite Hin. eapply Forall_impl; [|exact Hfair].
  intros m. apply fair_message_left.
Qed.

Lemma same_url_same_row (r first : row) :
  NoDup (urls records) -> In r records -> In first records ->
  row_url first = row_url r -> first = r.
Proof.
  unfold urls. induction records as [|x l IH]; [contradiction|].
  simpl. intros Hnd Hr Hf Hu. inversion Hnd as [|? ? Hx Hl]; subst.
  destruct Hr as [->|Hr], Hf as [->|Hf]; auto.
  - exfalso. apply Hx. rewrite <- Hu. now apply in_map.
  - exfalso. apply Hx. rewrite Hu. now apply in_map.
Qed.

(** With the urls of the store pairwise distinct, [explore_article] asks
    about the article the user chose: for the number of a listed row and
    the number of a request, the result is that request about that row,
    with its own title, source, date and url, and sends it to the reading
    agent or to the browsing one as the row has a text or not. *)
Theorem explore_article_asks_about_the_chosen_row
        (st : state) (rows : list row) (r : row)
        (a b : string) (rest : list string) (k j : Z) (request : string) :
  NoDup (urls records) ->
  incl rows records ->
  articles world st = map row_values rows ->
  inputs world st = a :: b :: rest ->
  int_of_string a = Some k -> (0 <= k)%Z ->
  nth_error rows (Z.to_nat k) = Some r ->
  int_of_string b = Some j -> (0 <= j)%Z ->
  nth_error (requests_about r) (Z.to_nat j) = Some request ->
  exists events,
    explore_article world chat records st
    = (mk_state world rest (printed world st ++ events) (agent world st)
                (articles world st),
       Return (QueryAgent (VStr request)))
    /\ messages events = [].
Proof.
  intros Hnd Hincl Hart Hin Hk Hk0 Hr Hj Hj0 Hreq.
  assert (Hklt : (k <? Z.of_nat (length (articles world st)))%Z = true).
  { apply Z.ltb_lt. rewrite Hart, length_map.
    assert (Z.to_nat k < length rows) by (apply nth_error_Some; congruence).
    lia. }
  assert (Hjlt : (j <? 3)%Z = true).
  { apply Z.ltb_lt.
    assert (Z.to_nat j < length (requests_about r))
      by (apply nth_error_Some; congruence).
    change (length (requests_about r)) with 3 in H. lia. }
  apply Z.leb_le in Hk0 as Hk0'. apply Z.leb_le in Hj0 as Hj0'.
  unfold explore_article, bindM at 1, get_articles.
  unfold bindM at 1, ask. rewrite Hin. cbn [choose]. rewrite Hk, Hk0', Hklt.
  cbn [andb]. cbv iota beta.
  unfold bindM at 1, lift_option at 1, getitem at 1. rewrite Hk0'.
  cbn [articles]. rewrite Hart, nth_error_map, Hr. cbn [option_map].
  unfold ret at 1. unfold bindM at 1.
  change (getitem (row_values r) 0) with (Some (CStr (row_url r))).
  unfold lift_option at 1, ret at 1.
  assert (Hrin : In r records) by (apply Hincl; eapply nth_error_In; eauto).
  destruct (hd_filter (fun x => cell_eqb (CStr (row_url x))
                                         (CStr (row_url r)))
                      records r Hrin) as [first [Hhd [Hfirst Hsame]]].
  { simpl. apply String.eqb_refl. }
  simpl in Hsame. apply String.eqb_eq in Hsame.
  assert (first = r) by (now apply same_url_same_row). subst first.
  unfold bindM at 1. rewrite Hhd. unfold lift_option at 1, ret at 1.
  unfold bindM at 1. rewrite interactive_menu_eq.
  cbn [inputs printed agent articles choose].
  change (Z.of_nat (length article_menu)) with 3%Z.
  rewrite Hj, Hj0', Hjlt. cbn [andb]. cbv iota beta.
  unfold perform_selected_option, bindM, lift_option, option_of_key.
  rewrite Hj0'. fold (requests_about r). rewrite nth_error_map, Hreq.
  cbn [option_map]. unfold ret. cbv iota beta. rewrite <- Hart.
  rewrite <- app_assoc. eexists. split; reflexivity.
Qed.

End SessionProperties.

(* ================================================================== *)
(** * The store and the reading agent *)

Lemma startswith_char (s : string) (c : ascii) :
  startswith s (String c EmptyString) = true -> first_char s = Some c.
Proof.
  destruct s as [|d s]; cbn [startswith first_char]; [discriminate|].
  intros H. apply andb_true_iff in H. destruct H as [H _].
  apply Ascii.eqb_eq in H. now subst.
Qed.

Lemma strip_set_head (p : ascii -> bool) (s : string) (c : ascii) :
  first_char (strip_set p s) = Some c -> p c = false.
Proof. unfold strip_set. intros H. now apply rstrip_head, lstrip_head in H. Qed.

Lemma safe_filename_head (filename : string) :
  startswith (safe_filename filename) "." = false.
Proof.
  unfold safe_filename.
  match goal with
  | |- context [strip_set ?p ?y] => set (x := strip_set p y)
  end.
  cbv zeta. fold x. destruct (is_empty x); [reflexivity|].
  destruct (startswith x ".") eqn:E; [|reflexivity].
  apply startswith_char in E. apply strip_set_head in E.
  vm_compute in E. discriminate.
Qed.

Lemma safe_filename_not_empty (filename : string) :
  is_empty (safe_filename filename) = false.
Proof.
  unfold safe_filename.
  match goal with
  | |- context [strip_set ?p ?y] => set (x := strip_set p y)
  end.
  cbv zeta. fold x. destruct (is_empty x) eqn:E; [reflexivity | exact E].
Qed.

Lemma startswith_one (s : string) (c : ascii) :
  startswith s (String c EmptyString)
  = match first_char s with
    | Some d => Ascii.eqb c d
    | None => false
    end.
Proof.
  destruct s as [|d s]; cbn [startswith first_char]; [reflexivity|].
  destruct s; cbn [startswith]; apply andb_true_r.
Qed.

Lemma lower_keeps_head (s : string) :
  startswith s "." = false -> startswith (lower s) "." = false.
Proof.
  rewrite !startswith_one. destruct s as [|c s]; [reflexivity|].
  unfold lower. cbn [map_chars first_char]. intros E.
  destruct (Ascii.eqb "." (lower_char c)) eqn:E'; [|reflexivity].
  exfalso. apply Ascii.eqb_eq in E'.
  pose proof (ascii_forall
                (fun d => implb (Ascii.eqb "." (lower_char d))
                                (Ascii.eqb "." d)) eq_refl c) as Hd.
  cbv beta in Hd. rewrite <- E', Ascii.eqb_refl, E in Hd. discriminate.
Qed.

Lemma startswith_app_left (a b : string) (p : ascii) :
  is_empty a = false -> startswith a (String p EmptyString) = false ->
  startswith (a +++ b) (String p EmptyString) = false.
Proof.
  rewrite !startswith_one. destruct a as [|c a]; [discriminate|].
  intros _ H. exact H.
Qed.

Lemma lower_has_no_separator (s : string) :
  all_chars safe_char s = true -> mem_char "/" (lower s) = false.
Proof.
  unfold lower. induction s as [|c s IH]; cbn [all_chars map_chars mem_char];
    [reflexivity|].
  intros H. apply andb_true_iff in H. destruct H as [Hc Hs].
  rewrite (IH Hs), orb_false_r.
  pose proof (ascii_forall
                (fun d => implb (safe_char d)
                                (negb (Ascii.eqb "/" (lower_char d))))
                eq_refl c) as Hd.
  cbv beta in Hd. rewrite Hc in Hd. cbn [implb] in Hd.
  now apply negb_true_iff in Hd.
Qed.

Lemma is_empty_lower (s : string) : is_empty (lower s) = is_empty s.
Proof. now destruct s. Qed.

Section Documents.

Variable docs_folder : string.
Variable io_ok : article -> bool.

(** A body file of the store: it lies in the docs folder itself, its name
    does not start with a dot, and the test of the reading agent selects
    every listed path that ends with the name. *)
Definition body_file (path : string) : Prop :=
  exists name,
    path = os_path_join docs_folder name
    /\ mem_char "/" name = false
    /\ startswith name "." = false
    /\ forall isfile listed,
         ends_with name listed -> is_document isfile listed = true.

Lemma saved_name_is_txt (a : article) :
  ends_with ".txt"
            (lower (safe_filename
                      (format_opt (title a) +++ "_" +++ source a +++ "_"
                       +++ format_opt (publish_date a) +++ ".txt"))).
Proof.
  set (q := format_opt (title a) +++ "_" +++ source a +++ "_"
            +++ format_opt (publish_date a)).
  match goal with
  | |- ends_with _ (lower (safe_filename ?x)) =>
      replace x with (q +++ ".txt")
        by (unfold q; rewrite !append_assoc; reflexivity)
  end.
  destruct (safe_filename_txt q) as [stem Hstem].
  { unfold q. rewrite !mem_char_app. simpl. apply orb_true_r. }
  rewrite Hstem. exists (lower stem). unfold lower.
  now rewrite map_chars_app.
Qed.

Lemma txt_names_are_documents (name : string) :
  ends_with ".txt" name ->
  forall isfile listed,
    ends_with name listed -> is_document isfile listed = true.
Proof.
  intros [stem ->] isfile listed [dir ->]. unfold is_document.
  rewrite <- append_assoc, endswith_app. apply orb_true_r.
Qed.

Lemma body_path_is_body_file (a : article) (path : string) :
  (if truthy_opt (pdf_url a) then download_pdf_from_url docs_folder io_ok a
   else save_article_to_txt docs_folder io_ok a) = Ok path ->
  body_file path.
Proof.
  intros H. destruct (truthy_opt (pdf_url a)).
  - unfold download_pdf_from_url in H. cbv zeta in H.
    destruct (io_ok a); [|discriminate]. injection H as <-.
    eexists. split; [reflexivity|]. repeat split.
    + rewrite mem_char_app, lower_has_no_separator
        by apply safe_filename_chars. reflexivity.
    + apply startswith_app_left.
      * rewrite is_empty_lower. apply safe_filename_not_empty.
      * apply lower_keeps_head, safe_filename_head.
    + apply txt_names_are_documents. eexists. reflexivity.
  - unfold save_article_to_txt in H. cbv zeta in H.
    destruct (io_ok a); [|discriminate]. injection H as <-.
    eexists. split; [reflexivity|]. repeat split.
    + apply lower_has_no_separator, safe_filename_chars.
    + apply lower_keeps_head, safe_filename_head.
    + apply txt_names_are_documents, saved_name_is_txt.
Qed.

Lemma update_loop_inserts_body_files (articles : list article) :
  forall (records : list row) (n : nat),
  exists inserted,
    fst (update_loop docs_folder io_ok records n articles)
    = records ++ inserted
    /\ Forall (fun r => body_file (article_file_path r)) inserted.
Proof.
  induction articles as [|a rest IH]; intros recs k.
  - exists []. simpl. rewrite app_nil_r. split; constructor.
  - simpl. destruct (url a) as [u|]; [|apply IH].
    destruct (negb (truthy u)); [apply IH|].
    destruct (existsb _ recs); [apply IH|].
    destruct (if truthy_opt (pdf_url a) then _ else _) as [path|e] eqn:E.
    + destruct (IH (recs ++ [mk_row u path (title a) (source a)
                                    (publish_date a) (truthy_opt (text a))
                                    true]) (S k)) as [ins' [Hf Hall]].
      eexists. rewrite Hf, <- app_assoc. split; [reflexivity|].
      constructor; [|assumption]. simpl. eapply body_path_is_body_file.
      exact E.
    + exists []. simpl. rewrite app_nil_r. split; constructor.
Qed.

(** What the store writes, the reading agent finds.  The body file of
    every row [update] inserts lies in the docs folder itself, under a name
    that does not start with a dot, so that the listing [docs_folder/*]
    names it; and the test on the listed paths selects every path that ends
    with that name, be it a file or not. *)
Theorem stored_bodies_are_documents (records : list row)
        (articles : list article) :
  Forall (fun r => body_file (article_file_path r))
         (skipn (length records)
                (fst (update docs_folder io_ok records articles))).
Proof.
  unfold update.
  destruct (update_loop_inserts_body_files articles
              (map clear_is_new records) 0) as [ins' [Hf Hall]].
  rewrite Hf.
  replace (length records) with (length (map clear_is_new records) + 0)
    by (rewrite length_map; lia).
  rewrite skipn_app, skipn_all2 by lia.
  replace (length (map clear_is_new records) + 0
           - length (map clear_is_new records)) with 0 by lia.
  exact Hall.
Qed.

End Documents.

(* ================================================================== *)
(** * A run is all or nothing *)

Section AllOrNothing.

Variable max_articles_per_site : Z.
Variable websites : list string.
Variable today : date.
Variable render : string -> option tag.

Lemma scrape_article_same_url (a b : article) :
  url a = url b -> scrape_article render a = scrape_article render b.
Proof. unfold scrape_article. now intros ->. Qed.

Lemma opt_eqb_true (a b : option string) : opt_eqb a b = true -> a = b.
Proof.
  destruct a as [x|], b as [y|]; simpl; try discriminate; auto.
  intros H. apply String.eqb_eq in H. now subst.
Qed.

Lemma unique_with_text_scrapes_all (all_articles : list article) :
  forall seen_urls unique_articles,
    unique_with_text render seen_urls all_articles = Ok unique_articles ->
    forall a, In a all_articles -> ~ In (url a) seen_urls ->
              exists t, scrape_article render a = Ok t.
Proof.
  induction all_articles as [|b rest IH]; simpl;
    intros seen unique_ H a Ha Hns; [contradiction|].
  destruct (existsb (opt_eqb (url b)) seen) eqn:Es; simpl in H.
  - destruct Ha as [->|Ha]; [|eapply IH; eauto].
    exfalso. apply Hns. apply existsb_exists in Es.
    destruct Es as [x [Hx Hxe]]. apply opt_eqb_true in Hxe. now subst.
  - apply bind_Ok_inv in H. destruct H as [t [Ht H]].
    apply bind_Ok_inv in H. destruct H as [others [Ho H]].
    destruct Ha as [->|Ha]; [eauto|].
    destruct (existsb (opt_eqb (url a)) [url b]) eqn:E.
    + simpl in E. rewrite orb_false_r in E. apply opt_eqb_true in E.
      exists t. now rewrite (scrape_article_same_url a b E).
    + eapply IH; [exact Ho | exact Ha |]. intros [Hb|Hin]; [|auto].
      simpl in E. rewrite orb_false_r in E.
      rewrite <- Hb in E. destruct (url b); simpl in E;
        [rewrite String.eqb_refl in E|]; discriminate.
Qed.

Lemma for_each_all_ok {A B} (body : A -> result (list B)) (l : list A)
      (r : list B) :
  for_each body l = Ok r -> Forall (fun a => exists x, body a = Ok x) l.
Proof.
  revert r. induction l as [|a l IH]; simpl; intros r H; [constructor|].
  apply bind_Ok_inv in H. destruct H as [x [Hx H]].
  apply bind_Ok_inv in H. destruct H as [rest [Hrest H]].
  constructor; eauto.
Qed.

(** A run gives its articles only if nothing failed on the way: every
    configured site was rendered and scraped without an exception, and the
    page of every stub that was found gave its text without one.  One site
    whose layout changed, or one article that cannot be reached, and the
    run returns nothing. *)
Theorem fetch_is_all_or_nothing (records : list row)
        (articles : list article) :
  fetch_articles_from_sources max_articles_per_site websites today render
                              records = Ok articles ->
  Forall (fun website_url =>
            exists soup stubs,
              render website_url = Some soup
              /\ scrape_site max_articles_per_site today records
                             website_url soup = Ok stubs)
         websites
  /\ exists stubs,
       scrape_websites max_articles_per_site websites today render records
       = Ok stubs
       /\ Forall (fun a => exists t, scrape_article render a = Ok t) stubs.
Proof.
  unfold fetch_articles_from_sources. intros H.
  apply bind_Ok_inv in H. destruct H as [stubs [Hs H]]. split.
  - unfold scrape_websites in Hs. apply for_each_all_ok in Hs.
    eapply Forall_impl; [|exact Hs]. intros w [x Hx].
    destruct (render w) as [soup|]; [eauto | discriminate].
  - exists stubs. split; [assumption|]. apply Forall_forall. intros a Ha.
    eapply unique_with_text_scrapes_all; eauto.
Qed.

End AllOrNothing.

(* ================================================================== *)
(** * The stubs of the arXiv listing *)

(** A url the arXiv extractor made: absent, or starting with [https]. *)
Definition absent_or_https (u : option string) : Prop :=
  match u with
  | None => True
  | Some s => startswith s "https" = true
  end.

Lemma arxiv_link_https (dt : tag) (title_ : string) (u : option string) :
  arxiv_link dt title_ = Ok u -> absent_or_https u.
Proof.
  unfold arxiv_link. intros H. apply bind_Ok_inv in H.
  destruct H as [link [_ H]]. destruct link as [a|]; [|now injection H as <-].
  destruct (lookup "href" (tag_attrs a)) as [link_url|]; [|discriminate].
  injection H as <-.
  unfold absent_or_https.
  destruct (startswith link_url "https") eqn:E; cbn [negb];
    [assumption | reflexivity].
Qed.

Section ArxivStubs.

Variable max_articles_per_site : Z.

Lemma arxiv_entry_fields (records : list row) (source_url : string)
      (date : option string) (dt : tag) (stubs : list article) :
  arxiv_entry records source_url date dt = Ok stubs ->
  Forall (fun a =>
            source a = "arxiv" /\ ArticlesDatabase.source_url a = source_url
            /\ publish_date a = date /\ text a = None
            /\ absent_or_https (url a) /\ absent_or_https (pdf_url a))
         stubs.
Proof.
  unfold arxiv_entry. intros H.
  apply bind_Ok_inv in H. destruct H as [link_url [Hl H]].
  apply bind_Ok_inv in H. destruct H as [pdf_link_url [Hp H]].
  apply bind_Ok_inv in H. destruct H as [title_authors [_ H]].
  apply arxiv_link_https in Hl, Hp.
  destruct (negb _); injection H as <-; repeat constructor; assumption.
Qed.

(** Every stub of the arXiv extractor carries the source [arxiv] and the
    base url of the call, no text, the date of a section of the listing,
    and urls (of the abstract, of the pdf) that are absent or start with
    [https].  A stub without url is possible: an entry that has no
    abstract link is not dropped. *)
Theorem arxiv_stub_fields (soup : tag) (source_url : string)
        (records : list row) (articles : list article) :
  search_arxiv max_articles_per_site soup source_url records = Ok articles ->
  Forall (fun a =>
            source a = "arxiv" /\ ArticlesDatabase.source_url a = source_url
            /\ text a = None
            /\ absent_or_https (url a) /\ absent_or_https (pdf_url a))
         articles.
Proof.
  unfold search_arxiv. intros H.
  apply bind_Ok_inv in H. destruct H as [news_sections [_ H]].
  eapply for_each_Forall; [|exact H].
  intros news_section stubs Hs. unfold arxiv_section in Hs.
  apply bind_Ok_inv in Hs. destruct Hs as [h3 [_ Hs]].
  apply bind_Ok_inv in Hs. destruct Hs as [h3' [_ Hs]].
  apply bind_Ok_inv in Hs. destruct Hs as [date [_ Hs]].
  apply bind_Ok_inv in Hs. destruct Hs as [dt_elements [_ Hs]].
  eapply for_each_Forall; [|exact Hs].
  intros dt x Hx. apply arxiv_entry_fields in Hx.
  eapply Forall_impl; [|exact Hx].
  intros a [H1 [H2 [H3 [H4 [H5 H6]]]]]. repeat split; assumption.
Qed.

End ArxivStubs.

(** An entry of an arXiv listing that has no abstract link. *)
Definition linkless_listing : tag :=
  soup_of
    [Element "dl" None [("id", "articles")]
             [text_element "h3" None "Fri, 5 Jan 2024";
              Element "dt" None [] [];
              arxiv_dd "Title:A" "B"]].

Lemma arxiv_stub_fields_witness :
  Forall (fun a =>
            source a = "arxiv"
            /\ ArticlesDatabase.source_url a
               = "https://arxiv.org/list/cs.AI/recent"
            /\ text a = None
            /\ absent_or_https (url a) /\ absent_or_https (pdf_url a))
         [mk_article (Some "A") (Some "2024-01-05") None
                     "https://arxiv.org/list/cs.AI/recent" "arxiv" ["B"]
                     None None].
Proof.
  apply (arxiv_stub_fields 20 linkless_listing
           "https://arxiv.org/list/cs.AI/recent" []).
  reflexivity.
Defined.

(* ================================================================== *)
(** * The properties on small instances *)

Definition demo_config : value nat :=
  Dict [("search",
         Dict [("web", Dict [("sites", Leaf 3)]);
               ("max_articles_per_site", Leaf 5)]);
        ("db.folder_path", Leaf 7)].

Lemma get_walks_the_path_witness :
  get demo_config (join "." ["search"; "web"; "sites"]) (Leaf 0)
  = get_loop demo_config ["search"; "web"; "sites"] (Leaf 0).
Proof.
  apply (get_walks_the_path demo_config (Leaf 0) ["search"; "web"; "sites"]).
  - discriminate.
  - repeat constructor.
Defined.

Lemma get_never_reads_dotted_names_witness :
  get (Dict [("db.folder_path", Leaf 7)]) "db.folder_path" (Leaf 0) = Leaf 0.
Proof.
  apply (get_never_reads_dotted_names [("db.folder_path", Leaf 7)]
           "db.folder_path" (Leaf 0)).
  repeat constructor.
Defined.

Lemma to_camel_case_of_snake_case_witness :
  to_camel_case (join "_" ["retriever"; "agent"])
  = join EmptyString (map capitalized ["retriever"; "agent"]).
Proof.
  apply (to_camel_case_of_snake_case ["retriever"; "agent"]).
  - discriminate.
  - repeat constructor.
Defined.

Lemma to_camel_case_by_pieces_witness :
  to_camel_case ("llama_index" +++ "_" +++ "BrowserAgent")
  = to_camel_case "llama_index" +++ to_camel_case "BrowserAgent"
  /\ mem_char "_" (to_camel_case "llama_index") = false.
Proof.
  apply (to_camel_case_by_pieces "llama_index" "BrowserAgent"); reflexivity.
Defined.

(** A workflow that answers every second search and fails the others. *)
Definition demo_run (w : nat) (user_msg : string) : nat * option string :=
  (S w, if Nat.even w then Some user_msg else None).

Lemma search_calls_stay_within_limit_witness :
  count_search_calls (mk_counters 2 2)
  = (count_search_calls (mk_counters 0 2)
     + Z.of_nat (responses string
                   [Response "a"; Failed; Response "c"; LimitReached]))%Z
  /\ (count_search_calls (mk_counters 2 2)
      <= max_search_calls (mk_counters 2 2))%Z
  /\ (Z.of_nat (responses string
                  [Response "a"; Failed; Response "c"; LimitReached])
      <= max_search_calls (mk_counters 0 2)
         - count_search_calls (mk_counters 0 2))%Z.
Proof.
  apply (search_calls_stay_within_limit nat string demo_run
           (mk_counters 0 2) (mk_counters 2 2) 0 3 ["a"; "b"; "c"; "d"]).
  - simpl. lia.
  - reflexivity.
Defined.

Lemma search_limit_is_final_witness :
  chats nat string demo_run (mk_counters 10 10) 0 ["a"; "b"]
  = (mk_counters 10 10, 0, map (fun _ => LimitReached) ["a"; "b"]).
Proof.
  apply (search_limit_is_final nat string demo_run (mk_counters 10 10) 0
           ["a"; "b"]).
  simpl. lia.
Defined.

(** Agents that answer every message with the message. *)
Definition demo_chat (w : nat) (user_msg : response_value)
  : nat * chat_result :=
  (S w, Answered (mk_reply (match user_msg with VStr s => s | _ => "" end)
                           "Not written yet." "Review required.")).

Lemma demo_chat_never_fails : ~ chat_may_fail_with_bye nat demo_chat.
Proof. intros [w [m [w' H]]]. discriminate. Qed.

Lemma session_reads_up_to_bye_witness :
  snd (session nat demo_chat [demo_row] 9 0
               (["7"; "2"; "0"; "/Bye"] ++ "/bye" :: ["1"])) = Return tt
  /\ inputs nat (fst (session nat demo_chat [demo_row] 9 0
                              (["7"; "2"; "0"; "/Bye"] ++ "/bye" :: ["1"])))
     = ["1"]
  /\ last (printed nat (fst (session nat demo_chat [demo_row] 9 0
                                     (["7"; "2"; "0"; "/Bye"]
                                      ++ "/bye" :: ["1"]))))
          GoodMorning = Goodbye.
Proof.
  apply (session_reads_up_to_bye nat demo_chat [demo_row] 9 0
           ["7"; "2"; "0"; "/Bye"] ["1"]).
  - exact demo_chat_never_fails.
  - simpl. intros [H|[H|[H|[H|[]]]]]; discriminate.
Defined.

Lemma explore_article_asks_about_the_chosen_row_witness :
  exists events,
    explore_article nat demo_chat [demo_row]
                    (mk_state nat [" 0"; "+1"; "/bye"] [] 0
                              [row_values demo_row])
    = (mk_state nat ["/bye"] ([] ++ events) 0 [row_values demo_row],
       Return (QueryAgent
                 (VStr ("Given this article with the title 'Claude', "
                        +++ "published by anthropic on 2024-01-05 at the url "
                        +++ "'https://www.anthropic.com/news/claude', "
                        +++ "retrieve the article and extract article "
                        +++ "information from the knowledge base by handing "
                        +++ "off to RetrieverAgent, then create a detailed "
                        +++ "report about it, with specific insights on the "
                        +++ "conclusion and the findings of the article, plus "
                        +++ "explain if what is described in the article is "
                        +++ "a game changer and, if so how."))))
    /\ messages events = [].
Proof.
  apply (explore_article_asks_about_the_chosen_row
           nat demo_chat [demo_row]
           (mk_state nat [" 0"; "+1"; "/bye"] [] 0 [row_values demo_row])
           [demo_row] demo_row " 0" "+1" ["/bye"] 0 1).
  - repeat constructor. intros [].
  - apply incl_refl.
  - reflexivity.
  - reflexivity.
  - reflexivity.
  - lia.
  - reflexivity.
  - reflexivity.
  - lia.
  - reflexivity.
Defined.

Lemma fetch_is_all_or_nothing_witness :
  Forall (fun website_url =>
            exists soup stubs,
              demo_render website_url = Some soup
              /\ scrape_site 20 (mk_date 2024 1 10) [] website_url soup
                 = Ok stubs)
         ["https://www.anthropic.com/news"]
  /\ exists stubs,
       scrape_websites 20 ["https://www.anthropic.com/news"]
                       (mk_date 2024 1 10) demo_render [] = Ok stubs
       /\ Forall (fun a => exists t, scrape_article demo_render a = Ok t)
                 stubs.
Proof.
  apply (fetch_is_all_or_nothing 20 ["https://www.anthropic.com/news"]
           (mk_date 2024 1 10) demo_render [] [demo_article]).
  reflexivity.
Defined.

(* ================================================================== *)
(** * The answer of the agents *)

Import AgentChat.

Lemma stream_quiet (events : list stream_event) :
  forall current_agent response,
    stream false events current_agent response = response.
Proof. induction events as [|e l IH]; intros; simpl; auto. Qed.

(** Without [verbose] the answer is lost: whatever the agents put out and
    whatever state the run ends in, [__chat] returns an empty [response]
    and an empty [review], and only the report of the state, if any; and it
    never raises. *)
Theorem quiet_chat_returns_no_response (events : list stream_event)
        (final_state : list (string * string)) :
  exists report_content,
    chat_ false events final_state = Ok (mk_reply EmptyString report_content
                                                  EmptyString)
    /\ report_content = match state_get "report_content" final_state with
                        | Some r => r
                        | None => EmptyString
                        end.
Proof.
  unfold chat_. rewrite stream_quiet. simpl.
  eexists. split; [|reflexivity].
  destruct (state_get "review" final_state); reflexivity.
Qed.

(** An output of an agent that the loop keeps as the response. *)
Definition output_of (events : list stream_event) (s : string) : Prop :=
  exists e tool_calls,
    In e events /\ kind e = AgentOutput (Some s) tool_calls /\ truthy s = true.

Lemma stream_verbose (events : list stream_event) :
  forall current_agent response,
    stream true events current_agent response = response
    \/ output_of events (stream true events current_agent response).
Proof.
  induction events as [|e l IH]; intros current response; [now left|].
  cbn [stream].
  assert (Hmore : forall s, output_of l s -> output_of (e :: l) s).
  { intros s [x [t [Hx Hk]]]. exists x, t. split; [now right | assumption]. }
  destruct (names_another_agent e current).
  - destruct (current_agent_name e) as [name|].
    + destruct (IH name response) as [H|H]; auto.
    + destruct (IH current response) as [H|H]; auto.
  - destruct (kind e) as [content tool_calls| | |] eqn:Ek.
    + destruct (truthy_opt content) eqn:Et.
      * destruct content as [s|]; [|discriminate]. simpl in Et |- *.
        destruct (IH current s) as [Hs|Hs]; [|auto].
        right. rewrite Hs. exists e, tool_calls. repeat split; auto. now left.
      * destruct (IH current response) as [Hr|Hr]; auto.
    + destruct (IH current response) as [Hr|Hr]; auto.
    + destruct (IH current response) as [Hr|Hr]; auto.
    + destruct (IH current response) as [Hr|Hr]; auto.
Qed.

(** With [verbose], [__chat] raises [KeyError] exactly when the state has
    no [report_content]; when it returns, the response is empty or a
    non-empty output of an agent, and report and review are those of the
    state. *)
Theorem verbose_chat_needs_a_report (events : list stream_event)
        (final_state : list (string * string)) :
  match state_get "report_content" final_state with
  | None => chat_ true events final_state = Raise KeyError
  | Some report_content =>
      exists response,
        chat_ true events final_state
        = Ok (mk_reply response report_content
                       match state_get "review" final_state with
                       | Some r => r
                       | None => EmptyString
                       end)
        /\ (response = EmptyString \/ output_of events response)
  end.
Proof.
  unfold chat_. destruct (state_get "report_content" final_state) as [r|];
    [|reflexivity].
  simpl. eexists. split.
  - destruct (state_get "review" final_state); reflexivity.
  - apply stream_verbose.
Qed.

(* ================================================================== *)
(** * From the store to the session *)

Section Opening.

Variable docs_folder : string.
Variable io_ok : article -> bool.
Variable world : Type.
Variable chat : world -> response_value -> world * chat_result.
Variable current_hour : nat.

Lemma update_new_rows (records : list row) (articles : list article) :
  filter is_new (fst (update docs_folder io_ok records articles))
  = skipn (length records) (fst (update docs_folder io_ok records articles))
  /\ forall n, snd (update docs_folder io_ok records articles) = Ok n ->
               length (skipn (length records)
                             (fst (update docs_folder io_ok records articles)))
               = n.
Proof.
  unfold update.
  destruct (update_loop_appends docs_folder io_ok articles
              (map clear_is_new records) 0) as [ins [H1 [H2 [_ [_ H5]]]]].
  rewrite H1.
  assert (Hs : skipn (length records) (map clear_is_new records ++ ins) = ins).
  { replace (length records) with (length (map clear_is_new records) + 0)
      by (rewrite length_map; lia).
    rewrite skipn_app, skipn_all2 by lia.
    replace (length (map clear_is_new records) + 0
             - length (map clear_is_new records)) with 0 by lia.
    reflexivity. }
  rewrite Hs, filter_app, filter_is_new_cleared, filter_is_new_all
    by assumption.
  split; [reflexivity|]. intros n Hn. apply H5 in Hn. lia.
Qed.

(** A session that follows an update opens with what the update did: when
    the update inserted rows, the session announces news and lists exactly
    the inserted rows, in the order of their insertion; when it inserted
    none, the session says so and lists every row of the store. *)
Theorem session_opens_with_the_inserted_rows
        (records : list row) (articles : list article) (n : nat)
        (w : world) (lines : list string) :
  snd (update docs_folder io_ok records articles) = Ok n ->
  exists listing events,
    get_printable_articles_list
      (map row_values
           (if 0 <? n
            then skipn (length records)
                       (fst (update docs_folder io_ok records articles))
            else fst (update docs_folder io_ok records articles)))
    = Return listing
    /\ printed world
               (fst (session world chat
                             (fst (update docs_folder io_ok records articles))
                             current_hour w lines))
       = [greeting current_hour; if 0 <? n then SomeNews else NoNews;
          Printed (VStr listing)] ++ events.
Proof.
  intros Hn. destruct (update_new_rows records articles) as [Hf Hl].
  specialize (Hl n Hn).
  set (stored := fst (update docs_folder io_ok records articles)) in *.
  pose proof (session_spec world chat stored current_hour w lines) as H.
  destruct (session world chat stored current_hour w lines) as [st' r].
  destruct H as [typed [events [_ [Hp _]]]]. simpl.
  eexists. exists events. split; [apply printable_rows|].
  rewrite Hp. unfold first_state, first_rows. cbn [printed].
  rewrite Hf, Hl. reflexivity.
Qed.

End Opening.

Lemma session_opens_with_the_inserted_rows_witness :
  exists listing events,
    get_printable_articles_list
      (map row_values
           (if 0 <? 1
            then skipn (length (@nil row))
                       (fst (update "data/docs" (fun _ => true) []
                                    [demo_article]))
            else fst (update "data/docs" (fun _ => true) [] [demo_article])))
    = Return listing
    /\ printed nat
               (fst (session nat demo_chat
                             (fst (update "data/docs" (fun _ => true) []
                                          [demo_article]))
                             9 0 ["/bye"]))
       = [greeting 9; if 0 <? 1 then SomeNews else NoNews;
          Printed (VStr listing)] ++ events.
Proof.
  apply (session_opens_with_the_inserted_rows "data/docs" (fun _ => true)
           nat demo_chat 9 [] [demo_article] 1 0 ["/bye"]).
  reflexivity.
Defined.
